(** * Viseron: component / domain setup orchestration and the JSON storage helper

    A shallow embedding of [viseron/components/__init__.py] and
    [viseron/helpers/storage.py], and the properties of the specification
    checked against it.

    Python values are an inductive type, dictionaries whose iteration order
    is observable are insertion-ordered association lists, the remaining
    dictionaries are [gmap]s, exceptions are an error result, and the mutable
    registry [vis.data] is threaded explicitly through every function. *)

From stdpp Require Import gmap strings list pretty.

Open Scope string_scope.
Open Scope list_scope.
Open Scope Z_scope.

(** ** Python values, exceptions and ordered dictionaries *)

Module Py.

(** Dictionary keys that [json] accepts and that the code uses. *)
Inductive key : Type :=
| KStr (s : string)
| KInt (z : Z).

(** A Python [float]: a finite binary number, [m·2^e] with its sign, an
    infinity or a NaN.  A number has more than one such triple; the
    functions below depend on the number only, and [json] hands the
    float through as it is. *)
Inductive float : Type :=
| FloatFinite (negative : bool) (m : N) (e : Z)
| FloatInf (negative : bool)
| FloatNaN.

#[global] Instance float_eq_dec : EqDecision float.
Proof. solve_decision. Defined.

(** [f == z] for an integer [z]: Python compares the two numbers
    exactly. *)
Definition float_eq_int (f : float) (z : Z) : bool :=
  match f with
  | FloatFinite negative m e =>
      let n := if negative then - Z.of_N m else Z.of_N m in
      if 0 <=? e then n * 2 ^ e =? z else n =? z * 2 ^ (- e)
  | FloatInf _ | FloatNaN => false
  end.

Definition is_nan (f : float) : bool :=
  match f with FloatNaN => true | _ => false end.

(** The values that flow through configurations, setup results and the
    storage files. *)
#[warnings="-register-all"]
Inductive val : Type :=
| PyNone
| PyBool (b : bool)
| PyInt (z : Z)
| PyFloat (f : float)
| PyStr (s : string)
| PyList (l : list val)
| PyTuple (l : list val)
| PyDict (d : list (key * val)).

#[global] Instance key_eq_dec : EqDecision key.
Proof. solve_decision. Defined.

(** [bool(v)]: what [if v:] tests. *)
Definition truthy (v : val) : bool :=
  match v with
  | PyNone => false
  | PyBool b => b
  | PyInt z => negb (z =? 0)
  | PyFloat f => negb (float_eq_int f 0)
  | PyStr s => negb (String.eqb s "")
  | PyList l | PyTuple l => match l with [] => false | _ => true end
  | PyDict d => match d with [] => false | _ => true end
  end.

(** [v is True] and [v is False]: identity with the two singletons. *)
Definition is_True (v : val) : bool :=
  match v with PyBool true => true | _ => false end.

Definition is_False (v : val) : bool :=
  match v with PyBool false => true | _ => false end.

(** The exceptions the two source files raise or let through. *)
Inductive exn : Type :=
| KeyError
| ValueError
| TypeError
| RecursionError
| ModuleNotFoundError
| OSError
| JSONDecodeError
| StorageWriteError
| StorageReadError.

#[global] Instance exn_eq_dec : EqDecision exn.
Proof. solve_decision. Defined.

Inductive result (A : Type) : Type :=
| Ok (a : A)
| Raise (e : exn).
Arguments Ok {A} a.
Arguments Raise {A} e.

(** Insertion-ordered dictionaries. *)
Section odict.
Context {K V : Type} `{EqDecision K}.

(** [d.get(k)] *)
Fixpoint od_get (d : list (K * V)) (k : K) : option V :=
  match d with
  | [] => None
  | (k', v) :: d' => if decide (k = k') then Some v else od_get d' k
  end.

(** [d[k] = v]: an existing key keeps its position, a new one goes last. *)
Fixpoint od_set (d : list (K * V)) (k : K) (v : V) : list (K * V) :=
  match d with
  | [] => [(k, v)]
  | (k', v') :: d' =>
      if decide (k = k') then (k', v) :: d' else (k', v') :: od_set d' k v
  end.

(** [del d[k]]: [None] stands for the [KeyError] of an absent key. *)
Fixpoint od_del (d : list (K * V)) (k : K) : option (list (K * V)) :=
  match d with
  | [] => None
  | (k', v') :: d' =>
      if decide (k = k') then Some d'
      else match od_del d' k with
           | Some d'' => Some ((k', v') :: d'')
           | None => None
           end
  end.

Definition od_keys (d : list (K * V)) : list K := map fst d.
Definition od_values (d : list (K * V)) : list V := map snd d.
End odict.

(** [v[k]] for a string subscript [k]. *)
Definition getitem (v : val) (k : string) : result val :=
  match v with
  | PyDict d =>
      match od_get d (KStr k) with
      | Some x => Ok x
      | None => Raise KeyError
      end
  | _ => Raise TypeError
  end.

(** Every value of a list satisfies [P], as a proposition. *)
Definition all_vals (P : val → Prop) (l : list val) : Prop :=
  fold_right (λ x acc, P x ∧ acc) True l.

Definition all_items (P : val → Prop) (d : list (key * val)) : Prop :=
  fold_right (λ kv acc, P kv.2 ∧ acc) True d.

(** Structural induction through the nested lists. *)
Fixpoint val_nested_ind (P : val → Prop)
    (HNone : P PyNone) (HBool : ∀ b, P (PyBool b)) (HInt : ∀ z, P (PyInt z))
    (HFloat : ∀ f, P (PyFloat f)) (HStr : ∀ s, P (PyStr s))
    (HList : ∀ l, all_vals P l → P (PyList l))
    (HTuple : ∀ l, all_vals P l → P (PyTuple l))
    (HDict : ∀ d, all_items P d → P (PyDict d))
    (v : val) {struct v} : P v.
Proof.
  pose (go := val_nested_ind P HNone HBool HInt HFloat HStr HList HTuple
               HDict).
  destruct v as [ | b | z | f | s | l | l | d ].
  - exact HNone.
  - apply HBool.
  - apply HInt.
  - apply HFloat.
  - apply HStr.
  - apply HList. induction l as [ | x l IH ]; simpl; [ exact I | split; [ apply go | exact IH ] ].
  - apply HTuple. induction l as [ | x l IH ]; simpl; [ exact I | split; [ apply go | exact IH ] ].
  - apply HDict. induction d as [ | [k x] d IH ]; simpl; [ exact I | split; [ apply go | exact IH ] ].
Defined.

(** Structural equality of values is decidable. *)
Fixpoint val_eq_dec (x y : val) {struct x} : {x = y} + {x ≠ y}.
Proof.
  assert (Hl : ∀ l l' : list val,
             fold_right (λ a acc, (∀ b, {a = b} + {a ≠ b}) * acc)%type unit l →
             {l = l'} + {l ≠ l'}).
  { induction l as [ | a l IH ]; intros [ | b l' ] Hall;
      try (left; reflexivity); try (right; discriminate).
    destruct Hall as [Ha Hall].
    destruct (Ha b) as [-> | Hne]; [ | right; congruence ].
    destruct (IH l' Hall) as [-> | Hne]; [ left; reflexivity | right; congruence ]. }
  assert (Hd : ∀ d d' : list (key * val),
             fold_right (λ a acc, (∀ b, {a.2 = b} + {a.2 ≠ b}) * acc)%type unit d →
             {d = d'} + {d ≠ d'}).
  { induction d as [ | [k a] d IH ]; intros [ | [k' b] d' ] Hall;
      try (left; reflexivity); try (right; discriminate).
    destruct Hall as [Ha Hall]. simpl in Ha.
    destruct (key_eq_dec k k') as [-> | Hne]; [ | right; congruence ].
    destruct (Ha b) as [-> | Hne]; [ | right; congruence ].
    destruct (IH d' Hall) as [-> | Hne]; [ left; reflexivity | right; congruence ]. }
  destruct x as [ | b | z | f | s | l | l | d ],
    y as [ | b' | z' | f' | s' | l' | l' | d' ];
    try (right; discriminate); try (left; reflexivity).
  - destruct (decide (b = b')) as [-> | Hne]; [ left; reflexivity | right; congruence ].
  - destruct (Z.eq_dec z z') as [-> | Hne]; [ left; reflexivity | right; congruence ].
  - destruct (decide (f = f')) as [-> | Hne]; [ left; reflexivity | right; congruence ].
  - destruct (decide (s = s')) as [-> | Hne]; [ left; reflexivity | right; congruence ].
  - destruct (Hl l l') as [-> | Hne]; [ | left; reflexivity | right; congruence ].
    induction l as [ | a l IH ]; simpl; [ exact tt | exact (val_eq_dec a, IH) ].
  - destruct (Hl l l') as [-> | Hne]; [ | left; reflexivity | right; congruence ].
    induction l as [ | a l IH ]; simpl; [ exact tt | exact (val_eq_dec a, IH) ].
  - destruct (Hd d d') as [-> | Hne]; [ | left; reflexivity | right; congruence ].
    induction d as [ | [k a] d IH ]; simpl; [ exact tt | exact (val_eq_dec a, IH) ].
Defined.

#[global] Instance val_eq_decision : EqDecision val := val_eq_dec.

End Py.

Export Py.

(** ** JSON documents: what [json.dumps] writes and [json.load] reads *)

Module Json.

(** A file written by [json.dumps] is modelled by the document its text
    denotes. *)
#[warnings="-register-all"]
Inductive t : Type :=
| JNull
| JBool (b : bool)
| JNum (z : Z)
| JFloat (f : Py.float)
| JStr (s : string)
| JArr (l : list t)
| JObj (o : list (string * t)).

(** Keys are coerced to their text: [json.dumps({1: 2})] is [{"1": 2}]. *)
Definition key_text (k : Py.key) : string :=
  match k with
  | KStr s => s
  | KInt z => pretty z
  end.

(** [json.dumps(v, indent=4, cls=JSONEncoder)]: tuples are written as
    arrays, keys as strings, and a float as the shortest decimal that
    reads back as the same float ([NaN] and the infinities by their
    names).  The indentation does not change the document.
    [JSONEncoder] is that of [viseron/helpers/json.py], which is not
    among the sources here: an encoder class is asked, through its
    [default] method, about the objects that the standard encoder
    rejects, and no [val] is one of them; the model takes the class to
    change nothing else. *)
Fixpoint dumps (v : val) : t :=
  match v with
  | PyNone => JNull
  | PyBool b => JBool b
  | PyInt z => JNum z
  | PyFloat f => JFloat f
  | PyStr s => JStr s
  | PyList l => JArr (map dumps l)
  | PyTuple l => JArr (map dumps l)
  | PyDict d => JObj (map (λ kv, (key_text kv.1, dumps kv.2)) d)
  end.

(** [dict(pairs)]: a repeated key keeps its first position and its last
    value. *)
Definition dict_of_pairs (pairs : list (Py.key * val)) : list (Py.key * val) :=
  fold_left (λ d kv, od_set d kv.1 kv.2) pairs [].

(** [json.load]: arrays become lists, objects become string-keyed dicts. *)
Fixpoint loads (j : t) : val :=
  match j with
  | JNull => PyNone
  | JBool b => PyBool b
  | JNum z => PyInt z
  | JFloat f => PyFloat f
  | JStr s => PyStr s
  | JArr l => PyList (map loads l)
  | JObj o => PyDict (dict_of_pairs (map (λ kj, (KStr kj.1, loads kj.2)) o))
  end.

Definition is_str_key (k : Py.key) : bool :=
  match k with KStr _ => true | KInt _ => false end.

(** No key of [d] occurs twice. *)
Fixpoint distinct_keys (d : list (Py.key * val)) : bool :=
  match d with
  | [] => true
  | (k, _) :: d' =>
      match od_get d' k with
      | None => distinct_keys d'
      | Some _ => false
      end
  end.

(** The values that JSON has a notation of its own for and that are
    equal to themselves: no tuple, only dictionaries with pairwise
    distinct string keys, and no NaN (which is read back as a NaN, and
    a NaN differs from every float). *)
Fixpoint native (v : val) : bool :=
  match v with
  | PyNone | PyBool _ | PyInt _ | PyStr _ => true
  | PyFloat f => negb (is_nan f)
  | PyList l => forallb native l
  | PyTuple _ => false
  | PyDict d =>
      forallb (λ kv, is_str_key kv.1 && native kv.2) d && distinct_keys d
  end.

End Json.

(** ** [viseron/helpers/storage.py] *)

Module Storage.

(** What [open(path)] finds. *)
Inductive file : Type :=
| JsonText (j : Json.t)   (* text that [json.load] parses into [j] *)
| OtherText               (* text that is not JSON *)
| Denied.                 (* opening raises an [OSError] other than
                             [FileNotFoundError] *)

Inductive logev : Type :=
| LogWriting (path : string)
| LogWriteError (path : string)
| LogTempDeleteFailed (tmp path : string)
| LogVersionMismatch (key : string) (expected : Z) (got : val)
| LogNotFound (path : string)
| LogReadError (path : string).

(** The file system and the logger. *)
Record world : Type := World {
  fs : gmap string file;
  log : list logev
}.

Definition add_log (e : logev) (w : world) : world :=
  World (fs w) (log w ++ [e]).

Definition set_fs (f : gmap string file) (w : world) : world :=
  World f (log w).

(** What the operating system answers during one [_write]. *)
Record io : Type := IO {
  makedirs_ok : bool;
  tmp_name : option string;  (* [None]: the temporary file cannot be created *)
  write_ok : bool;
  replace_ok : bool;
  remove_ok : bool
}.

(** A [Storage] object; [_data] is [PyNone] until loaded or saved. *)
Record Storage : Type := Build {
  key : string;
  version : Z;
  _data : val
}.

(** [Storage(vis, key, version)] *)
Definition __init__ (key : string) (version : Z) : Storage :=
  Build key version PyNone.

Definition set_data (s : Storage) (v : val) : Storage :=
  Build (key s) (version s) v.

Fixpoint ends_with_slash (s : string) : bool :=
  match s with
  | EmptyString => false
  | String _ s' =>
      match s' with
      | EmptyString => String.eqb s "/"
      | _ => ends_with_slash s'
      end
  end.

(** POSIX [os.path.join] of two components. *)
Definition os_path_join (a b : string) : string :=
  if String.prefix "/" b then b
  else if String.eqb a "" || ends_with_slash a then a +:+ b
  else a +:+ "/" +:+ b.

(** [v != version] for the integer [version]. *)
Definition version_differs (v : val) (version : Z) : bool :=
  match v with
  | PyInt z => negb (z =? version)
  | PyBool b => negb ((if b then 1 else 0) =? version)
  | PyFloat f => negb (float_eq_int f version)
  | _ => true
  end.

Section storage.
(** [viseron.const.STORAGE_PATH] *)
Variable STORAGE_PATH : string.

(** [Storage.path] *)
Definition path (s : Storage) : string := os_path_join STORAGE_PATH (key s).

(** [Storage._write].  The directories are not part of the model; the
    temporary file is, as it outlives a failed write of its content. *)
Definition _write (s : Storage) (o : io) (content : file) (w : world)
  : result unit * world :=
  let w := add_log (LogWriting (path s)) w in
  if negb (makedirs_ok o) then (Raise OSError, w)
  else
    match tmp_name o with
    | None => (Raise StorageWriteError, add_log (LogWriteError (path s)) w)
    | Some tmp =>
        if negb (write_ok o) then
          (Raise StorageWriteError,
           add_log (LogWriteError (path s))
             (set_fs (<[tmp := OtherText]> (fs w)) w))
        else
          let w := set_fs (<[tmp := content]> (fs w)) w in
          if replace_ok o then
            (Ok tt, set_fs (<[path s := content]> (delete tmp (fs w))) w)
          else
            let w := add_log (LogWriteError (path s)) w in
            if remove_ok o then
              (Raise StorageWriteError, set_fs (delete tmp (fs w)) w)
            else
              (Raise StorageWriteError,
               add_log (LogTempDeleteFailed tmp (path s)) w)
    end.

(** [Storage.save] *)
Definition save (s : Storage) (o : io) (data : val) (w : world)
  : result unit * Storage * world :=
  let s := set_data s
             (PyDict [(KStr "version", PyInt (version s));
                      (KStr "data", data)]) in
  let json_data := Json.dumps (_data s) in
  let '(r, w) := _write s o (JsonText json_data) w in
  (r, s, w).

(** [Storage._load] *)
Definition _load (s : Storage) (w : world) : result val * world :=
  match fs w !! path s with
  | None => (Ok (PyDict []), add_log (LogNotFound (path s)) w)
  | Some Denied =>
      (Raise StorageReadError, add_log (LogReadError (path s)) w)
  | Some OtherText => (Raise JSONDecodeError, w)
  | Some (JsonText j) =>
      let data := Json.loads j in
      match getitem data "version" with
      | Raise e => (Raise e, w)
      | Ok v =>
          if version_differs v (version s) then
            (Ok data, add_log (LogVersionMismatch (key s) (version s) v) w)
          else (Ok data, w)
      end
  end.

(** The [Storage.data] property. *)
Definition data (s : Storage) (w : world) : result val * Storage * world :=
  let '(r, w) :=
    match _data s with
    | PyNone => _load s w
    | cached => (Ok cached, w)
    end in
  match r with
  | Raise e => (Raise e, s, w)
  | Ok loaded => (getitem loaded "data", set_data s loaded, w)
  end.

End storage.

End Storage.

(** ** [viseron/components/__init__.py] *)

Module Components.

(** An identifier is a string or [None]. *)
Abbreviation ident := (option string) (only parsing).

(** What a [RequireDomain] or an [OptionalDomain] names: its [domain] and
    its [identifier]. *)
Abbreviation ref := (string * option string)%type (only parsing).

(** [bool(identifier)] *)
Definition ident_truthy (i : ident) : bool :=
  match i with
  | Some s => negb (String.eqb s "")
  | None => false
  end.

(** The dataclass [DomainToSetup]; the owning component is named. *)
Record DomainToSetup : Type := Build_DomainToSetup {
  component : string;
  domain : string;
  config : val;
  identifier : ident;
  require_domains : list ref;
  optional_domains : list ref
}.

(** The equality [list.remove] compares with; configurations are compared
    structurally. *)
#[global] Instance DomainToSetup_eq_dec : EqDecision DomainToSetup.
Proof. solve_decision. Defined.

Definition key_of (d : DomainToSetup) : ref := (domain d, identifier d).

(** The immutable attributes of a [Component] object; its mutable list
    [domains_to_setup] lives in the state, under the component's name. *)
Record Component : Type := Build_Component {
  name : string;
  path : string;
  _config : val
}.

(** How a call of [CONFIG_SCHEMA] ends. *)
Inductive schema_result : Type :=
| SchemaReturns (v : val)
| SchemaInvalid          (* raises [vol.Invalid] *)
| SchemaCrash.           (* raises anything else *)

(** How a call of a module's [setup] ends. *)
Inductive setup_result : Type :=
| SetupReturns (v : val)
| SetupNotReady          (* raises [ComponentNotReady] / [DomainNotReady] *)
| SetupCrash.            (* raises any other [Exception] *)

(** The arguments of one [add_domain_to_setup] call. *)
Record registration : Type := Build_registration {
  reg_domain : string;
  reg_config : val;
  reg_identifier : ident;
  reg_require_domains : option (list ref);
  reg_optional_domains : option (list ref)
}.

(** A component module as one attempt sees it: its optional
    [CONFIG_SCHEMA], and what [setup(vis, config)] registers before it
    ends. *)
Record ComponentModule : Type := Build_ComponentModule {
  CONFIG_SCHEMA : option (val → schema_result);
  setup : val → list registration * setup_result
}.

(** A domain module as one attempt sees it. *)
Record DomainModule : Type := Build_DomainModule {
  DOMAIN_CONFIG_SCHEMA : option (val → schema_result)
}.

(** How a future ends: [future.result()] returns or re-raises. *)
Inductive outcome : Type :=
| Returned (v : val)
| Raised (e : exn).

#[global] Instance outcome_eq_dec : EqDecision outcome.
Proof. solve_decision. Defined.

(** Where a worker is in [Component.setup_domain]. *)
Inductive phase : Type :=
| AtStart (tries : Z)
| AwaitingDependencies (config : val) (futures : list nat) (tries : Z)
| InSetup (tries : Z)
| Finished (o : outcome).

(** A task handed to the executor; its future is its index in the pool. *)
Record Task : Type := Build_Task {
  entry : DomainToSetup;
  task_phase : phase
}.

(** A started [threading.Timer] that calls [setup_component] again. *)
Record Timer : Type := Build_Timer {
  interval : Z;
  timer_component : string;
  timer_tries : Z
}.

(** Log records of the components and of the resolver, and what the main
    thread and the workers do that the properties observe. *)
Inductive event : Type :=
| LogSettingUp (component : string) (tries : Z)
| LogInvalidConfig (component : string)
| LogSchemaCrash (component : string)
| CallSetup (component : string) (config : val)
| LogNotReady (component : string) (wait_time : Z)
| LogUncaught (component : string)
| LogSetupTook (component : string)
| LogSetupFailed (component : string)
| LogNotBoolean (component : string)
| LogFailedSetup (component : string)
| LogFailedLoad (component : string)
| LogMissingDependency (d : DomainToSetup) (required : ref)
| Submitted (future : nat) (k : ref)
| WaitsFor (future : nat) (required optional : list (ref * nat))
| CallDomainSetup (future : nat) (tries : Z)
| Sleeps (future : nat) (wait_time : Z)
| Completed (future : nat) (o : outcome).

(** [viseron.const]: the retry intervals. *)
Record Consts : Type := Build_Consts {
  COMPONENT_RETRY_INTERVAL : Z;
  COMPONENT_RETRY_INTERVAL_MAX : Z;
  DOMAIN_RETRY_INTERVAL : Z;
  DOMAIN_RETRY_INTERVAL_MAX : Z
}.

(** [vis.data] and the rest of the process state the module touches. *)
Record State : Type := Build_State {
  LOADING : gmap string Component;
  LOADED : gmap string Component;
  FAILED : gmap string Component;
  DOMAINS_TO_SETUP : list (string * list (option string * DomainToSetup));
  DOMAIN_IDENTIFIERS : list (string * list (option string));
  DOMAIN_SETUP_TASKS : gmap string (gmap (option string) nat);
  domains_to_setup : gmap string (list DomainToSetup);
  timers : list Timer;
  pool : list Task;
  trace : list event
}.

Definition set_LOADING (m : gmap string Component) (s : State) : State :=
  Build_State m (LOADED s) (FAILED s) (DOMAINS_TO_SETUP s)
    (DOMAIN_IDENTIFIERS s) (DOMAIN_SETUP_TASKS s) (domains_to_setup s)
    (timers s) (pool s) (trace s).

Definition set_LOADED (m : gmap string Component) (s : State) : State :=
  Build_State (LOADING s) m (FAILED s) (DOMAINS_TO_SETUP s)
    (DOMAIN_IDENTIFIERS s) (DOMAIN_SETUP_TASKS s) (domains_to_setup s)
    (timers s) (pool s) (trace s).

Definition set_FAILED (m : gmap string Component) (s : State) : State :=
  Build_State (LOADING s) (LOADED s) m (DOMAINS_TO_SETUP s)
    (DOMAIN_IDENTIFIERS s) (DOMAIN_SETUP_TASKS s) (domains_to_setup s)
    (timers s) (pool s) (trace s).

Definition set_DOMAINS_TO_SETUP
    (t : list (string * list (option string * DomainToSetup))) (s : State)
  : State :=
  Build_State (LOADING s) (LOADED s) (FAILED s) t
    (DOMAIN_IDENTIFIERS s) (DOMAIN_SETUP_TASKS s) (domains_to_setup s)
    (timers s) (pool s) (trace s).

Definition set_DOMAIN_IDENTIFIERS
    (i : list (string * list (option string))) (s : State) : State :=
  Build_State (LOADING s) (LOADED s) (FAILED s) (DOMAINS_TO_SETUP s)
    i (DOMAIN_SETUP_TASKS s) (domains_to_setup s)
    (timers s) (pool s) (trace s).

Definition set_DOMAIN_SETUP_TASKS
    (t : gmap string (gmap (option string) nat)) (s : State) : State :=
  Build_State (LOADING s) (LOADED s) (FAILED s) (DOMAINS_TO_SETUP s)
    (DOMAIN_IDENTIFIERS s) t (domains_to_setup s)
    (timers s) (pool s) (trace s).

Definition set_domains_to_setup
    (p : gmap string (list DomainToSetup)) (s : State) : State :=
  Build_State (LOADING s) (LOADED s) (FAILED s) (DOMAINS_TO_SETUP s)
    (DOMAIN_IDENTIFIERS s) (DOMAIN_SETUP_TASKS s) p
    (timers s) (pool s) (trace s).

Definition set_timers (t : list Timer) (s : State) : State :=
  Build_State (LOADING s) (LOADED s) (FAILED s) (DOMAINS_TO_SETUP s)
    (DOMAIN_IDENTIFIERS s) (DOMAIN_SETUP_TASKS s) (domains_to_setup s)
    t (pool s) (trace s).

Definition set_pool (p : list Task) (s : State) : State :=
  Build_State (LOADING s) (LOADED s) (FAILED s) (DOMAINS_TO_SETUP s)
    (DOMAIN_IDENTIFIERS s) (DOMAIN_SETUP_TASKS s) (domains_to_setup s)
    (timers s) p (trace s).

(** Events are appended in the order they happen. *)
Definition emit (e : event) (s : State) : State :=
  Build_State (LOADING s) (LOADED s) (FAILED s) (DOMAINS_TO_SETUP s)
    (DOMAIN_IDENTIFIERS s) (DOMAIN_SETUP_TASKS s) (domains_to_setup s)
    (timers s) (pool s) (trace s ++ [e]).

(** The state of a process that has set up nothing yet. *)
Definition initial : State :=
  Build_State ∅ ∅ ∅ [] [] ∅ ∅ [] [] [].

(** A [for] loop whose body may raise. *)
Fixpoint for_each {S A : Type} (body : S → A → result unit * S)
    (l : list A) (s : S) : result unit * S :=
  match l with
  | [] => (Ok tt, s)
  | x :: l' =>
      match body s x with
      | (Ok _, s') => for_each body l' s'
      | (Raise e, s') => (Raise e, s')
      end
  end.

(** [l.remove(x)]: drops the first element equal to [x]; [None] stands for
    the [ValueError] of a list without one. *)
Fixpoint py_remove {A : Type} `{EqDecision A} (x : A) (l : list A)
  : option (list A) :=
  match l with
  | [] => None
  | y :: l' =>
      if decide (x = y) then Some l'
      else match py_remove x l' with
           | Some l'' => Some (y :: l'')
           | None => None
           end
  end.

(** The list [self.domains_to_setup] of the component called [n]. *)
Definition pending_of (s : State) (n : string) : list DomainToSetup :=
  default [] (domains_to_setup s !! n).

(** [table.setdefault(domain, {})[identifier] = d] *)
Definition table_set
    (table : list (string * list (option string * DomainToSetup)))
    (dom : string) (i : ident) (d : DomainToSetup)
  : list (string * list (option string * DomainToSetup)) :=
  od_set table dom (od_set (default [] (od_get table dom)) i d).

(** [table[domain][identifier]]; [None] stands for the [KeyError]. *)
Definition table_get
    (table : list (string * list (option string * DomainToSetup)))
    (k : ref) : option DomainToSetup :=
  match od_get table k.1 with
  | Some inner => od_get inner k.2
  | None => None
  end.

(** [del table[domain][identifier]]; [None] stands for the [KeyError]. *)
Definition table_del
    (table : list (string * list (option string * DomainToSetup)))
    (k : ref) : option (list (string * list (option string * DomainToSetup))) :=
  match od_get table k.1 with
  | Some inner =>
      match od_del inner k.2 with
      | Some inner' => Some (od_set table k.1 inner')
      | None => None
      end
  | None => None
  end.

(** Every pending entry, in the order the nested loops visit them. *)
Definition table_entries
    (table : list (string * list (option string * DomainToSetup)))
  : list DomainToSetup :=
  concat (map (λ row, od_values row.2) table).

(** [r.domain in ids and r.identifier in ids[r.domain]] *)
Definition registered (ids : list (string * list (option string))) (r : ref)
  : bool :=
  match od_get ids r.1 with
  | Some l => bool_decide (r.2 ∈ l)
  | None => false
  end.

(** [tasks.get(domain, {}).get(identifier)] *)
Definition task_of (tasks : gmap string (gmap (option string) nat)) (k : ref)
  : option nat :=
  match tasks !! k.1 with
  | Some inner => inner !! k.2
  | None => None
  end.

(** [tasks.setdefault(domain, {})[identifier] = future] *)
Definition task_set (tasks : gmap string (gmap (option string) nat)) (k : ref)
    (future : nat) : gmap string (gmap (option string) nat) :=
  <[k.1 := <[k.2 := future]> (default ∅ (tasks !! k.1))]> tasks.

(** *** Components *)

(** [Component.validate_component_config] *)
Definition validate_component_config (self : Component) (m : ComponentModule)
    (s : State) : val * State :=
  match CONFIG_SCHEMA m with
  | Some schema =>
      match schema (_config self) with
      | SchemaReturns v => (v, s)
      | SchemaInvalid => (PyNone, emit (LogInvalidConfig (name self)) s)
      | SchemaCrash => (PyNone, emit (LogSchemaCrash (name self)) s)
      end
  | None => (PyBool true, s)
  end.

(** [Component.add_domain_to_setup] *)
Definition add_domain_to_setup (self : Component) (r : registration)
    (s : State) : State :=
  let domain_to_setup :=
    Build_DomainToSetup (name self) (reg_domain r) (reg_config r)
      (reg_identifier r)
      (default [] (reg_require_domains r))
      (default [] (reg_optional_domains r)) in
  let s :=
    set_domains_to_setup
      (<[name self := pending_of s (name self) ++ [domain_to_setup]]>
         (domains_to_setup s)) s in
  set_DOMAINS_TO_SETUP
    (table_set (DOMAINS_TO_SETUP s) (reg_domain r) (reg_identifier r)
       domain_to_setup) s.

(** The loop that clears the domains a failed component had queued. *)
Definition clear_marked (s : State) (d : DomainToSetup)
  : result unit * State :=
  match table_del (DOMAINS_TO_SETUP s) (key_of d) with
  | Some table => (Ok tt, set_DOMAINS_TO_SETUP table s)
  | None => (Raise KeyError, s)
  end.

(** [Component.setup_component], once the module is imported and the
    configuration validated. *)
Definition run_component_setup (c : Consts) (self : Component)
    (m : ComponentModule) (config : val) (tries : Z) (s : State)
  : result bool * State :=
  let '(result, s) :=
    if truthy config then
      let '(regs, ending) := setup m config in
      let s := emit (CallSetup (name self) config) s in
      let s := fold_left (λ s r, add_domain_to_setup self r s) regs s in
      match ending with
      | SetupReturns v => (v, s)
      | SetupNotReady =>
          let wait_time :=
            Z.min (tries * COMPONENT_RETRY_INTERVAL c)
                  (COMPONENT_RETRY_INTERVAL_MAX c) in
          let s := emit (LogNotReady (name self) wait_time) s in
          (PyBool false,
           set_timers
             (timers s ++ [Build_Timer wait_time (name self) (tries + 1)]) s)
      | SetupCrash => (PyBool false, emit (LogUncaught (name self)) s)
      end
    else (PyBool false, s) in
  if is_True result then (Ok true, emit (LogSetupTook (name self)) s)
  else
    match for_each clear_marked (pending_of s (name self)) s with
    | (Raise e, s) => (Raise e, s)
    | (Ok _, s) =>
        let s :=
          set_domains_to_setup (<[name self := []]> (domains_to_setup s)) s in
        if is_False result then
          (Ok false, emit (LogSetupFailed (name self)) s)
        else (Ok false, emit (LogNotBoolean (name self)) s)
    end.

(** [Component.setup_component]; [m] is what [get_component] imports,
    [None] when it raises [ModuleNotFoundError]. *)
Definition Component_setup_component (c : Consts) (self : Component)
    (m : option ComponentModule) (tries : Z) (s : State)
  : result bool * State :=
  let s := emit (LogSettingUp (name self) tries) s in
  match m with
  | None => (Raise ModuleNotFoundError, s)
  | Some component_module =>
      let '(config, s) := validate_component_config self component_module s in
      run_component_setup c self component_module config tries s
  end.

(** [del d[k]] on an unordered dictionary. *)
Definition map_del {V : Type} (k : string) (d : gmap string V)
  : option (gmap string V) :=
  match d !! k with
  | Some _ => Some (delete k d)
  | None => None
  end.

(** The module-level [setup_component]. *)
Definition setup_component (c : Consts) (s : State) (component : Component)
    (m : option ComponentModule) (tries : Z) : result unit * State :=
  let marked_failed (s : State) : result unit * State :=
    let s := set_FAILED (<[name component := component]> (FAILED s)) s in
    match map_del (name component) (LOADING s) with
    | Some loading => (Ok tt, set_LOADING loading s)
    | None => (Raise KeyError, s)
    end in
  let unmarked :=
    if 1 <? tries then
      match map_del (name component) (FAILED s) with
      | Some failed => (Ok tt, set_FAILED failed s)
      | None => (Raise KeyError, s)
      end
    else (Ok tt, s) in
  match unmarked with
  | (Raise e, s) => (Raise e, s)
  | (Ok _, s) =>
      let s := set_LOADING (<[name component := component]> (LOADING s)) s in
      match Component_setup_component c component m tries s with
      | (Ok true, s) =>
          let s := set_LOADED (<[name component := component]> (LOADED s)) s in
          match map_del (name component) (LOADING s) with
          | Some loading => (Ok tt, set_LOADING loading s)
          | None => (Raise KeyError, s)
          end
      | (Ok false, s) =>
          marked_failed (emit (LogFailedSetup (name component)) s)
      | (Raise ModuleNotFoundError, s) =>
          marked_failed (emit (LogFailedLoad (name component)) s)
      | (Raise e, s) => (Raise e, s)
      end
  end.

(** The first started timer that targets the component called [n], and the
    timers that remain. *)
Fixpoint take_timer (n : string) (ts : list Timer)
  : option (Timer * list Timer) :=
  match ts with
  | [] => None
  | t :: ts' =>
      if decide (timer_component t = n) then Some (t, ts')
      else match take_timer n ts' with
           | Some (t', rest) => Some (t', t :: rest)
           | None => None
           end
  end.

(** The attempts a component goes through: the first call, then one call
    per timer that a [ComponentNotReady] started, each with the module as
    that attempt finds it.  The run stops at the first call that starts no
    timer, or raises. *)
Fixpoint attempts (c : Consts) (component : Component)
    (modules : list (option ComponentModule)) (tries : Z) (s : State)
  : result unit * State :=
  match modules with
  | [] => (Ok tt, s)
  | m :: later =>
      match setup_component c s component m tries with
      | (Raise e, s') => (Raise e, s')
      | (Ok _, s') =>
          match take_timer (name component) (timers s') with
          | Some (t, ts) =>
              attempts c component later (timer_tries t) (set_timers ts s')
          | None => (Ok tt, s')
          end
      end
  end.

(** *** The dependency resolver *)

(** The body of the first loop of [domain_dependencies]:
    [ids.setdefault(d.domain, []).append(d.identifier)] for a truthy
    identifier. *)
Definition note_identifier (ids : list (string * list (option string)))
    (d : DomainToSetup) : list (string * list (option string)) :=
  if ident_truthy (identifier d) then
    od_set ids (domain d) (default [] (od_get ids (domain d)) ++ [identifier d])
  else ids.

(** What follows the error report of an unresolved requirement: the entry
    leaves its component's list, then the table. *)
Definition prune (d : DomainToSetup) (s : State) : result unit * State :=
  match py_remove d (pending_of s (component d)) with
  | None => (Raise ValueError, s)
  | Some l =>
      let s :=
        set_domains_to_setup (<[component d := l]> (domains_to_setup s)) s in
      match table_del (DOMAINS_TO_SETUP s) (key_of d) with
      | None => (Raise KeyError, s)
      | Some table => (Ok tt, set_DOMAINS_TO_SETUP table s)
      end
  end.

(** One turn of the loop over [d.require_domains]; the loop goes on after
    an entry was pruned. *)
Definition check_required (d : DomainToSetup) (s : State) (r : ref)
  : result unit * State :=
  if registered (DOMAIN_IDENTIFIERS s) r then (Ok tt, s)
  else prune d (emit (LogMissingDependency d r) s).

Definition check_entry (s : State) (d : DomainToSetup)
  : result unit * State :=
  for_each (check_required d) (require_domains d) s.

(** [domain_dependencies] *)
Definition domain_dependencies (s : State) : result unit * State :=
  let s :=
    set_DOMAIN_IDENTIFIERS
      (fold_left note_identifier (table_entries (DOMAINS_TO_SETUP s))
         (DOMAIN_IDENTIFIERS s)) s in
  for_each
    (λ s dom,
       for_each check_entry
         (od_values (default [] (od_get (DOMAINS_TO_SETUP s) dom))) s)
    (od_keys (DOMAINS_TO_SETUP s)) s.

(** *** Submitting the domains *)

(** [_setup_domain]: the task is handed to the executor and its future is
    stored under the entry's domain and identifier. *)
Definition _setup_domain (s : State) (d : DomainToSetup) : State :=
  let future := length (pool s) in
  let s := set_pool (pool s ++ [Build_Task d (AtStart 1)]) s in
  let s :=
    set_DOMAIN_SETUP_TASKS
      (task_set (DOMAIN_SETUP_TASKS s) (key_of d) future) s in
  emit (Submitted future (key_of d)) s.

(** The module-level [setup_domain]; [depth] is the room left on the call
    stack, and running out of it is Python's [RecursionError]. *)
Fixpoint setup_domain (depth : nat) (s : State) (d : DomainToSetup)
  : result unit * State :=
  match depth with
  | O => (Raise RecursionError, s)
  | S depth =>
      match task_of (DOMAIN_SETUP_TASKS s) (key_of d) with
      | Some _ => (Ok tt, s)
      | None =>
          let required (s : State) (r : ref) :=
            match table_get (DOMAINS_TO_SETUP s) r with
            | Some d' => setup_domain depth s d'
            | None => (Raise KeyError, s)
            end in
          let optional (s : State) (r : ref) :=
            if registered (DOMAIN_IDENTIFIERS s) r then required s r
            else (Ok tt, s) in
          match for_each required (require_domains d) s with
          | (Raise e, s) => (Raise e, s)
          | (Ok _, s) =>
              match for_each optional (optional_domains d) s with
              | (Raise e, s) => (Raise e, s)
              | (Ok _, s) => (Ok tt, _setup_domain s d)
              end
          end
      end
  end.

(** [setup_domains] up to the end of its submitting loop; the join on the
    futures that follows is the workers' side, below. *)
Definition setup_domains (depth : nat) (s : State) : result unit * State :=
  match domain_dependencies s with
  | (Raise e, s) => (Raise e, s)
  | (Ok _, s) =>
      for_each (setup_domain depth) (table_entries (DOMAINS_TO_SETUP s)) s
  end.

(** *** The workers *)

(** [Component.validate_domain_config]; what it logs is left out. *)
Definition validate_domain_config (raw : val) (m : DomainModule) : val :=
  match DOMAIN_CONFIG_SCHEMA m with
  | Some schema =>
      match schema raw with
      | SchemaReturns v => v
      | SchemaInvalid => PyNone
      | SchemaCrash => PyNone
      end
  | None => raw
  end.

(** [[tasks[r.domain][r.identifier] for r in rs]]; [None] stands for the
    [KeyError] of the first missing task. *)
Fixpoint lookup_futures (tasks : gmap string (gmap (option string) nat))
    (rs : list ref) : option (list (ref * nat)) :=
  match rs with
  | [] => Some []
  | r :: rs' =>
      match task_of tasks r with
      | None => None
      | Some f =>
          match lookup_futures tasks rs' with
          | Some fs => Some ((r, f) :: fs)
          | None => None
          end
      end
  end.

Definition dependencies_futures (s : State) (d : DomainToSetup)
  : option (list (ref * nat)) :=
  lookup_futures (DOMAIN_SETUP_TASKS s) (require_domains d).

Definition optional_dependencies_futures (s : State) (d : DomainToSetup)
  : option (list (ref * nat)) :=
  lookup_futures (DOMAIN_SETUP_TASKS s)
    (List.filter (registered (DOMAIN_IDENTIFIERS s)) (optional_domains d)).

(** How the future [f] ended, if it has. *)
Definition result_of (s : State) (f : nat) : option outcome :=
  match pool s !! f with
  | Some t =>
      match task_phase t with
      | Finished o => Some o
      | _ => None
      end
  | None => None
  end.

(** [as_completed(futures)] has yielded every future. *)
Definition all_done (s : State) (futures : list nat) : bool :=
  forallb (λ f, match result_of s f with Some _ => true | None => false end)
    futures.

(** The exception that the loop over the completed futures re-raises from
    [future.result()]: that of the first future, in the order of the list,
    that raised. *)
Fixpoint first_raised (s : State) (futures : list nat) : option exn :=
  match futures with
  | [] => None
  | f :: fs =>
      match result_of s f with
      | Some (Raised e) => Some e
      | _ => first_raised s fs
      end
  end.

(** The list [failed] of [_setup_dependencies]. *)
Definition failed (s : State) (futures : list nat) : list nat :=
  List.filter
    (λ f, match result_of s f with
          | Some (Returned v) => negb (is_True v)
          | _ => false
          end)
    futures.

Definition set_phase (future : nat) (p : phase) (s : State) : State :=
  set_pool (alter (λ t, Build_Task (entry t) p) future (pool s)) s.

(** The task ends: its future holds [o]. *)
Definition finish (future : nat) (o : outcome) (s : State) : State :=
  emit (Completed future o) (set_phase future (Finished o) s).

(** One move of the worker that runs [Component.setup_domain] for [future]:
    from its start to the wait on its dependencies, from the wait (once
    every awaited future is done) to the call of the domain's [setup] or to
    its end, and from the call to its end or to the next attempt.  [m] is
    what [get_domain] imports and [ending] how the domain's [setup] ends.
    A move appends one event; the log records of the workers are left
    out. *)
Definition Component_setup_domain (c : Consts) (future : nat)
    (m : option DomainModule) (ending : setup_result) (s : State) : State :=
  match pool s !! future with
  | None => s
  | Some t =>
      let d := entry t in
      match task_phase t with
      | AtStart tries =>
          match m with
          | None => finish future (Raised ModuleNotFoundError) s
          | Some domain_module =>
              let config := validate_domain_config (config d) domain_module in
              match dependencies_futures s d,
                    optional_dependencies_futures s d with
              | Some req, Some opt =>
                  set_phase future
                    (AwaitingDependencies config (map snd (req ++ opt)) tries)
                    (emit (WaitsFor future req opt) s)
              | _, _ => finish future (Raised KeyError) s
              end
          end
      | AwaitingDependencies config futures tries =>
          if all_done s futures then
            match first_raised s futures with
            | Some e => finish future (Raised e) s
            | None =>
                match failed s futures with
                | [] =>
                    if truthy config then
                      set_phase future (InSetup tries)
                        (emit (CallDomainSetup future tries) s)
                    else finish future (Returned (PyBool false)) s
                | _ :: _ => finish future (Returned (PyBool false)) s
                end
            end
          else s
      | InSetup tries =>
          match ending with
          | SetupReturns v =>
              finish future (Returned (PyBool (is_True v))) s
          | SetupNotReady =>
              let wait_time :=
                Z.min (tries * DOMAIN_RETRY_INTERVAL c)
                      (DOMAIN_RETRY_INTERVAL_MAX c) in
              set_phase future (AtStart (tries + 1))
                (emit (Sleeps future wait_time) s)
          | SetupCrash =>
              match od_get (DOMAIN_IDENTIFIERS s) (domain d) with
              | None => finish future (Returned (PyBool false)) s
              | Some l =>
                  match py_remove (identifier d) l with
                  | None => finish future (Raised ValueError) s
                  | Some l' =>
                      finish future (Returned (PyBool false))
                        (set_DOMAIN_IDENTIFIERS
                           (od_set (DOMAIN_IDENTIFIERS s) (domain d) l') s)
                  end
              end
          end
      | Finished _ => s
      end
  end.

(** What the threads do, one move at a time: the main thread submits a
    task, or a worker moves. *)
Inductive action : Type :=
| Submit (d : DomainToSetup)
| Work (future : nat) (m : option DomainModule) (ending : setup_result).

Definition perform (c : Consts) (s : State) (a : action) : State :=
  match a with
  | Submit d => _setup_domain s d
  | Work future m ending => Component_setup_domain c future m ending s
  end.

(** An interleaving of the threads. *)
Definition run (c : Consts) (acts : list action) (s : State) : State :=
  fold_left (perform c) acts s.

(** The keys the main thread submits, in order. *)
Definition submitted (acts : list action) : list ref :=
  omap (λ a, match a with Submit d => Some (key_of d) | Work _ _ _ => None end)
    acts.

(** *** Notions the properties are stated with *)

(** The dependencies that the module-level [setup_domain] and the workers
    follow: the required ones, and the optional ones that are registered. *)
Definition followed (ids : list (string * list (option string)))
    (d : DomainToSetup) : list ref :=
  require_domains d ++ List.filter (registered ids) (optional_domains d).

(** [k] names a pending entry that depends on [k']. *)
Definition depends_on
    (table : list (string * list (option string * DomainToSetup)))
    (ids : list (string * list (option string))) (k k' : ref) : Prop :=
  ∃ d, table_get table k = Some d ∧ k' ∈ followed ids d.

(** Every entry of the table is stored under its own domain and
    identifier, as [add_domain_to_setup] stores it. *)
Definition table_consistent (s : State) : Prop :=
  ∀ k d, table_get (DOMAINS_TO_SETUP s) k = Some d → key_of d = k.

(** The domain and identifier of every task handed to the executor, in
    the order of submission. *)
Definition submitted_keys (s : State) : list ref :=
  map (λ t, key_of (entry t)) (pool s).

(** What the submitting loop maintains: no two tasks for one domain and
    identifier, a future in [DOMAIN_SETUP_TASKS] for exactly the submitted
    keys, submitted after their dependencies, none of which depends on
    itself. *)
Record scheduled (s : State) : Prop := {
  scheduled_once : NoDup (submitted_keys s);
  scheduled_tasks :
    ∀ k, is_Some (task_of (DOMAIN_SETUP_TASKS s) k) ↔ k ∈ submitted_keys s;
  scheduled_closed :
    ∀ k k', is_Some (task_of (DOMAIN_SETUP_TASKS s) k) →
            depends_on (DOMAINS_TO_SETUP s) (DOMAIN_IDENTIFIERS s) k k' →
            is_Some (task_of (DOMAIN_SETUP_TASKS s) k');
  scheduled_acyclic :
    ∀ k, is_Some (task_of (DOMAIN_SETUP_TASKS s) k) →
         ¬ tc (depends_on (DOMAINS_TO_SETUP s) (DOMAIN_IDENTIFIERS s)) k k
}.

(** From [s0] to [s] the main thread only submitted tasks, for keys that
    had none and that satisfy [new]. *)
Record extends (new : ref → Prop) (s0 s : State) : Prop := {
  extends_table : DOMAINS_TO_SETUP s = DOMAINS_TO_SETUP s0;
  extends_ids : DOMAIN_IDENTIFIERS s = DOMAIN_IDENTIFIERS s0;
  extends_tasks :
    ∀ k f, task_of (DOMAIN_SETUP_TASKS s0) k = Some f →
           task_of (DOMAIN_SETUP_TASKS s) k = Some f;
  extends_new :
    ∀ k, is_Some (task_of (DOMAIN_SETUP_TASKS s) k) →
         is_Some (task_of (DOMAIN_SETUP_TASKS s0) k) ∨ new k
}.

(** What a call of [setup_domain] on a pending entry guarantees. *)
Definition setup_domain_spec (depth : nat) : Prop :=
  ∀ (s : State) (d : DomainToSetup) (res : result unit) (s' : State),
    table_consistent s →
    table_get (DOMAINS_TO_SETUP s) (key_of d) = Some d →
    scheduled s →
    setup_domain depth s d = (res, s') →
    scheduled s'
    ∧ extends (rtc (depends_on (DOMAINS_TO_SETUP s) (DOMAIN_IDENTIFIERS s))
                 (key_of d)) s s'
    ∧ (res = Ok tt → is_Some (task_of (DOMAIN_SETUP_TASKS s') (key_of d))).

(** The check of [table_consistent], row by row. *)
Definition stored_under_own_key
    (table : list (string * list (option string * DomainToSetup))) : bool :=
  forallb
    (λ row, forallb (λ kv, bool_decide (key_of kv.2 = (row.1, kv.1))) row.2)
    table.

(** [ids'] registers no more than [ids]. *)
Definition shrinks (ids ids' : list (string * list (option string))) : Prop :=
  ∀ r, registered ids' r = true → registered ids r = true.

(** The moves of the worker of [future], whose task is [t] in [s]: the
    event it appends and the phase it reaches. *)
Inductive worker_move (c : Consts) (s : State) (future : nat) (t : Task)
  : event → phase → Prop :=
| move_import_fails (n : Z) :
    task_phase t = AtStart n →
    worker_move c s future t
      (Completed future (Raised ModuleNotFoundError))
      (Finished (Raised ModuleNotFoundError))
| move_lookup_fails (n : Z) :
    task_phase t = AtStart n →
    worker_move c s future t
      (Completed future (Raised KeyError)) (Finished (Raised KeyError))
| move_wait (n : Z) (cfg : val) (req opt : list (ref * nat)) :
    task_phase t = AtStart n →
    dependencies_futures s (entry t) = Some req →
    optional_dependencies_futures s (entry t) = Some opt →
    worker_move c s future t
      (WaitsFor future req opt)
      (AwaitingDependencies cfg (map snd (req ++ opt)) n)
| move_call (cfg : val) (futures : list nat) (n : Z) :
    task_phase t = AwaitingDependencies cfg futures n →
    (∀ dep, dep ∈ futures → result_of s dep = Some (Returned (PyBool true))) →
    truthy cfg = true →
    worker_move c s future t (CallDomainSetup future n) (InSetup n)
| move_dependency_raised (cfg : val) (futures : list nat) (n : Z)
    (dep : nat) (e : exn) :
    task_phase t = AwaitingDependencies cfg futures n →
    dep ∈ futures →
    result_of s dep = Some (Raised e) →
    worker_move c s future t
      (Completed future (Raised e)) (Finished (Raised e))
| move_abandoned (cfg : val) (futures : list nat) (n : Z) :
    task_phase t = AwaitingDependencies cfg futures n →
    (∀ dep, dep ∈ futures → is_Some (result_of s dep)) →
    worker_move c s future t
      (Completed future (Returned (PyBool false)))
      (Finished (Returned (PyBool false)))
| move_ended (n : Z) (o : outcome) :
    task_phase t = InSetup n →
    worker_move c s future t (Completed future o) (Finished o)
| move_sleep (n : Z) :
    task_phase t = InSetup n →
    worker_move c s future t
      (Sleeps future
         (Z.min (n * DOMAIN_RETRY_INTERVAL c) (DOMAIN_RETRY_INTERVAL_MAX c)))
      (AtStart (n + 1)).

(** The state after the worker of [future] moved: its phase, one more
    event, and possibly fewer registered identifiers. *)
Definition moved (s : State) (future : nat) (e : event) (p : phase)
    (ids : list (string * list (option string))) : State :=
  Build_State (LOADING s) (LOADED s) (FAILED s) (DOMAINS_TO_SETUP s)
    ids (DOMAIN_SETUP_TASKS s) (domains_to_setup s) (timers s)
    (alter (λ t, Build_Task (entry t) p) future (pool s)) (trace s ++ [e]).

(** What the component-side functions leave alone. *)
Record same_lifecycle (s s' : State) : Prop := {
  same_LOADING : LOADING s' = LOADING s;
  same_LOADED : LOADED s' = LOADED s;
  same_FAILED : FAILED s' = FAILED s;
  same_pool : pool s' = pool s;
  same_tasks : DOMAIN_SETUP_TASKS s' = DOMAIN_SETUP_TASKS s;
  same_ids : DOMAIN_IDENTIFIERS s' = DOMAIN_IDENTIFIERS s
}.

(** The timer that a [ComponentNotReady] at attempt [tries] starts. *)
Definition retry_timer (c : Consts) (self : Component) (tries : Z) : Timer :=
  Build_Timer
    (Z.min (tries * COMPONENT_RETRY_INTERVAL c) (COMPONENT_RETRY_INTERVAL_MAX c))
    (name self) (tries + 1).

(** The futures a [WaitsFor] event names. *)
Definition awaited (req opt : list (ref * nat)) : list nat :=
  map snd (req ++ opt).

(** In [tr], every wait of the future [f] is followed by a call of its
    domain's [setup]. *)
Definition answered (tr : list event) (f : nat) : Prop :=
  ∀ i req opt, tr !! i = Some (WaitsFor f req opt) →
    ∃ j n, (i < j)%nat ∧ tr !! j = Some (CallDomainSetup f n).

(** In [tr], the future [f] waits at position [i]: no call of its domain's
    [setup] follows, and its other waits were followed by one. *)
Definition waits_at (tr : list event) (f i : nat) (req opt : list (ref * nat))
  : Prop :=
  tr !! i = Some (WaitsFor f req opt)
  ∧ (∀ j n, (i < j)%nat → tr !! j ≠ Some (CallDomainSetup f n))
  ∧ (∀ j r o, tr !! j = Some (WaitsFor f r o) → j ≠ i →
       ∃ j' n, (j < j')%nat ∧ tr !! j' = Some (CallDomainSetup f n)).

(** The phase of the task [t] of the future [f] agrees with the events. *)
Definition agrees (s : State) (f : nat) (t : Task) : Prop :=
  match task_phase t with
  | AtStart _ | InSetup _ => answered (trace s) f
  | AwaitingDependencies _ futures _ =>
      ∃ i req opt, waits_at (trace s) f i req opt ∧ futures = awaited req opt
  | Finished o =>
      (∃ i, trace s !! i = Some (Completed f o))
      ∧ (answered (trace s) f
         ∨ ∃ i req opt,
             waits_at (trace s) f i req opt
             ∧ (o = Returned (PyBool false)
                ∨ ∃ dep e, dep ∈ awaited req opt ∧ o = Raised e
                           ∧ result_of s dep = Some (Raised e)))
  end.

(** What every interleaving maintains. *)
Record orderly (s : State) : Prop := {
  orderly_agrees : ∀ f t, pool s !! f = Some t → agrees s f t;
  orderly_done :
    ∀ i f o, trace s !! i = Some (Completed f o) → result_of s f = Some o;
  orderly_calls :
    ∀ j f n, trace s !! j = Some (CallDomainSetup f n) →
      ∃ i req opt, (i < j)%nat ∧ trace s !! i = Some (WaitsFor f req opt);
  orderly_passed :
    ∀ i j f req opt n,
      trace s !! i = Some (WaitsFor f req opt) →
      trace s !! j = Some (CallDomainSetup f n) →
      (i < j)%nat →
      ∀ dep, dep ∈ awaited req opt →
        ∃ k, (k < j)%nat
             ∧ trace s !! k = Some (Completed dep (Returned (PyBool true)));
  orderly_covers :
    ∀ i f req opt, trace s !! i = Some (WaitsFor f req opt) →
      ∃ t, pool s !! f = Some t
           ∧ map fst req = require_domains (entry t)
           ∧ ∀ r, r ∈ optional_domains (entry t) →
                  registered (DOMAIN_IDENTIFIERS s) r = true → r ∈ map fst opt
}.

(** What an interleaving maintains when no key is submitted twice: the
    futures a task waited for are those of [DOMAIN_SETUP_TASKS], and a
    later wait of a task names no future that an earlier one did not. *)
Record stable (s : State) : Prop := {
  stable_lookup :
    ∀ i f req opt r dep, trace s !! i = Some (WaitsFor f req opt) →
      (r, dep) ∈ req ++ opt → task_of (DOMAIN_SETUP_TASKS s) r = Some dep;
  stable_nested :
    ∀ i i' f req opt req' opt',
      trace s !! i' = Some (WaitsFor f req' opt') →
      trace s !! i = Some (WaitsFor f req opt) →
      (i' < i)%nat →
      ∀ dep, dep ∈ awaited req opt → dep ∈ awaited req' opt'
}.

(** The main thread submits no key that has a task, or twice. *)
Definition fresh_submits (s : State) (acts : list action) : Prop :=
  NoDup (submitted acts)
  ∧ ∀ k, k ∈ submitted acts → task_of (DOMAIN_SETUP_TASKS s) k = None.

(** What the submitting thread and the workers write to the trace. *)
Definition scheduling_event (e : event) : bool :=
  match e with
  | Submitted _ _ | WaitsFor _ _ _ | CallDomainSetup _ _ | Sleeps _ _
  | Completed _ _ => true
  | _ => false
  end.

(** A state as [setup_domains] finds it after [domain_dependencies]:
    whatever entries are pending and whatever identifiers are
    registered, nothing has been handed to the executor yet. *)
Record unsubmitted (s : State) : Prop := {
  unsubmitted_pool : pool s = [];
  unsubmitted_tasks : DOMAIN_SETUP_TASKS s = ∅;
  unsubmitted_trace : ∀ e, e ∈ trace s → scheduling_event e = false
}.

(** The component called [n] is in exactly one of [LOADED] and [FAILED],
    and not in [LOADING]. *)
Definition settled (s : State) (n : string) : Prop :=
  LOADING s !! n = None
  ∧ ((is_Some (LOADED s !! n) ∧ FAILED s !! n = None)
     ∨ (LOADED s !! n = None ∧ is_Some (FAILED s !! n))).

(** The entry that [add_domain_to_setup] builds from a registration, and
    the key it is stored under. *)
Definition queued_entry (self : Component) (r : registration)
  : DomainToSetup :=
  Build_DomainToSetup (name self) (reg_domain r) (reg_config r)
    (reg_identifier r)
    (default [] (reg_require_domains r))
    (default [] (reg_optional_domains r)).

Definition reg_key (r : registration) : ref :=
  (reg_domain r, reg_identifier r).

(** The inner dictionaries of the table hold every identifier once, as
    dictionaries do. *)
Definition well_keyed
    (table : list (string * list (option string * DomainToSetup))) : Prop :=
  ∀ dom inner, od_get table dom = Some inner → NoDup (od_keys inner).

(** *** Starting the components *)


(** [key.split(" ")[0]]: the key up to its first space. *)
Fixpoint first_word (key : string) : string :=
  match key with
  | EmptyString => EmptyString
  | String a rest =>
      if Ascii.eqb a Ascii.Space then EmptyString else String a (first_word rest)
  end.














End Components.

(** ** Concrete scenarios *)

Module Scenarios.

Import Storage.

Definition storage_path : string := "/config/storage".

(** An operating system that lets every step of a write through. *)
Definition io_ok : io := IO true (Some "/config/storage/tmpab12cd") true true true.

(** The replace of the temporary file fails; its removal then succeeds. *)
Definition io_replace_fails : io :=
  IO true (Some "/config/storage/tmpab12cd") true false true.

Definition empty_world : world := World ∅ [].

Definition foo : Storage := __init__ "foo" 1.

Definition a_is_1 : val := PyDict [(KStr "a", PyInt 1)].

(** A dictionary that holds a float and a nested list:
    [{"fps": 29.97, "zones": [None, True, "yard"]}]; the float is
    [1054475631502295 / 2^45]. *)
Definition fps_29_97 : val :=
  PyDict [(KStr "fps", PyFloat (FloatFinite false 1054475631502295 (-45)));
          (KStr "zones", PyList [PyNone; PyBool true; PyStr "yard"])].

(** A dictionary with an integer key: [{1: "a"}]. *)
Definition int_keyed : val := PyDict [(KInt 1, PyStr "a")].

(** *** Storage files *)




Import Components.

(** The intervals of the specification's example. *)
Definition consts_3_60 : Consts := Build_Consts 3 60 3 60.

Definition camera_1 : option string := Some "camera_1".
Definition camera_2 : option string := Some "camera_2".

Definition some_config : val := PyDict [(KStr "fps", PyInt 5)].

(** *** A component that queues the same domain and identifier twice *)

Definition darknet : Component :=
  Build_Component "darknet" "viseron.components.darknet" some_config.

Definition detector_for_camera_1 : registration :=
  Build_registration "object_detector" some_config camera_1 None None.

(** Its [setup] registers an object detector for [camera_1] twice, then
    returns [False]. *)
Definition registers_twice_then_fails : ComponentModule :=
  Build_ComponentModule None
    (λ _, ([detector_for_camera_1; detector_for_camera_1],
           SetupReturns (PyBool false))).

(** *** Components that are not ready at first *)

Definition not_ready : ComponentModule :=
  Build_ComponentModule None (λ _, ([], SetupNotReady)).


(** A schema that accepts the configuration and returns an empty
    dictionary. *)
Definition accepts_as_empty : ComponentModule :=
  Build_ComponentModule (Some (λ _, SchemaReturns (PyDict [])))
    (λ _, ([detector_for_camera_1], SetupReturns (PyBool true))).

(** *** Pending domains with unresolved requirements *)

Definition nvr : Component :=
  Build_Component "nvr" "viseron.components.nvr" some_config.

Definition ffmpeg : Component :=
  Build_Component "ffmpeg" "viseron.components.ffmpeg" some_config.

(** An NVR for [camera_1] that requires a camera and an object detector,
    neither of which anything registers. *)
Definition nvr_camera_1 : registration :=
  Build_registration "nvr" some_config camera_1
    (Some [("camera", camera_1); ("object_detector", camera_1)]) None.

(** An NVR for [camera_2] that requires a camera nothing registers. *)
Definition nvr_camera_2 : registration :=
  Build_registration "nvr" some_config camera_2
    (Some [("camera", camera_2)]) None.

Definition two_unresolved : State :=
  add_domain_to_setup nvr nvr_camera_2
    (add_domain_to_setup nvr nvr_camera_1 initial).

(** The entry that [nvr_camera_2] queues. *)
Definition nvr_camera_2_entry : DomainToSetup :=
  Build_DomainToSetup "nvr" "nvr" some_config camera_2
    [("camera", camera_2)] [].

(** Only the NVR for [camera_2] is pending. *)
Definition one_unresolved : State :=
  add_domain_to_setup nvr nvr_camera_2 initial.

(** *** Workers *)

Definition camera_entry : DomainToSetup :=
  Build_DomainToSetup "ffmpeg" "camera" some_config camera_1 [] [].

(** One task, in its second call of the domain's [setup]. *)
Definition in_second_attempt : State :=
  set_pool [Build_Task camera_entry (InSetup 2)] initial.

(** One task that waits for nothing, with an empty configuration. *)
Definition waiting_with_empty_config : State :=
  set_pool [Build_Task camera_entry (AwaitingDependencies (PyDict []) [] 1)]
    initial.

(** *** Three pending domains that depend on each other *)

Definition camera_registration : registration :=
  Build_registration "camera" some_config camera_1 None None.

Definition detector_registration : registration :=
  Build_registration "object_detector" some_config camera_1
    (Some [("camera", camera_1)]) None.

Definition nvr_registration : registration :=
  Build_registration "nvr" some_config camera_1
    (Some [("camera", camera_1)]) (Some [("object_detector", camera_1)]).

(** The NVR is registered first: the camera is met as its dependency, as
    a dependency of the object detector, and as a pending entry. *)
Definition three_pending : State :=
  (domain_dependencies
     (add_domain_to_setup ffmpeg camera_registration
        (add_domain_to_setup darknet detector_registration
           (add_domain_to_setup nvr nvr_registration initial)))).2.

(** *** Interleavings *)

Definition any_domain_module : DomainModule := Build_DomainModule None.

Definition detector_entry : DomainToSetup :=
  Build_DomainToSetup "darknet" "object_detector" some_config camera_1 [] [].

(** An NVR that requires the camera and the object detector. *)
Definition nvr_entry : DomainToSetup :=
  Build_DomainToSetup "nvr" "nvr" some_config camera_1
    [("camera", camera_1); ("object_detector", camera_1)] [].

(** An NVR that requires the camera only. *)
Definition nvr_on_camera : DomainToSetup :=
  Build_DomainToSetup "nvr" "nvr" some_config camera_1
    [("camera", camera_1)] [].

(** A worker moves on; its module is found. *)
Definition moves (future : nat) : action :=
  Work future (Some any_domain_module) (SetupReturns PyNone).

(** The camera's [setup] returns [False], the module of the object
    detector is missing, and the NVR awaits both. *)
Definition a_dependency_raises : list action :=
  [Submit camera_entry; Submit detector_entry; Submit nvr_entry;
   moves 0; moves 0;
   Work 0 (Some any_domain_module) (SetupReturns (PyBool false));
   Work 1 None SetupCrash;
   moves 2; moves 2].

(** The camera's [setup] returns [False], and the NVR awaits it. *)
Definition a_dependency_fails : list action :=
  [Submit camera_entry; Submit nvr_on_camera;
   moves 0; moves 0;
   Work 0 (Some any_domain_module) (SetupReturns (PyBool false));
   moves 1; moves 1].

(** From [three_pending]: the camera's [setup] returns [True], that of
    the object detector returns [False], and the NVR awaits both, the
    camera as a required and the object detector as an optional
    dependency. *)
Definition an_optional_dependency_fails : list action :=
  [Submit (queued_entry ffmpeg camera_registration);
   Submit (queued_entry darknet detector_registration);
   Submit (queued_entry nvr nvr_registration);
   moves 0; moves 0;
   Work 0 (Some any_domain_module) (SetupReturns (PyBool true));
   moves 1; moves 1;
   Work 1 (Some any_domain_module) (SetupReturns (PyBool false));
   moves 2; moves 2].

(** From [three_pending]: every [setup] returns [True], and the NVR
    calls its own after the camera and the object detector are set
    up. *)
Definition every_dependency_is_set_up : list action :=
  [Submit (queued_entry ffmpeg camera_registration);
   Submit (queued_entry darknet detector_registration);
   Submit (queued_entry nvr nvr_registration);
   moves 0; moves 0;
   Work 0 (Some any_domain_module) (SetupReturns (PyBool true));
   moves 1; moves 1;
   Work 1 (Some any_domain_module) (SetupReturns (PyBool true));
   moves 2; moves 2].

(** *** A domain whose schema returns an empty dictionary *)

(** The schema of the domain accepts every configuration and returns an
    empty dictionary. *)
Definition returns_empty : DomainModule :=
  Build_DomainModule (Some (λ _, SchemaReturns (PyDict []))).

(** The camera has just been handed to the executor. *)
Definition camera_submitted : State := _setup_domain initial camera_entry.

(** *** A chain of requirements whose last link is missing *)



(** *** Two domains that require each other *)



(** *** An optional dependency that nothing registers *)



(** *** A domain without identifier whose [setup] crashes *)





(** *** A configuration *)



End Scenarios.

(** * Properties *)

(** ** Ordered dictionaries and JSON *)

Module JsonProofs.

Import Json.

Lemma od_get_None_iff {V : Type} (d : list (Py.key * V)) (k : Py.key) :
  od_get d k = None ↔ k ∉ map fst d.
Proof.
  induction d as [ | [k' v] d IH ]; simpl.
  - split; [ intros _; apply not_elem_of_nil | reflexivity ].
  - rewrite not_elem_of_cons. destruct (decide (k = k')) as [-> | Hne].
    + split; [ discriminate | intros [Hk _]; congruence ].
    + rewrite IH. tauto.
Qed.

Lemma distinct_keys_NoDup (d : list (Py.key * val)) :
  distinct_keys d = true ↔ NoDup (map fst d).
Proof.
  induction d as [ | [k v] d IH ]; simpl.
  - split; [ intros _; constructor | reflexivity ].
  - rewrite NoDup_cons, <- IH, <- od_get_None_iff.
    destruct (od_get d k); split; try discriminate; try tauto.
    intros [? _]. discriminate.
Qed.

Lemma od_set_fresh {V : Type} (d : list (Py.key * V)) (k : Py.key) (v : V) :
  k ∉ map fst d → od_set d k v = d ++ [(k, v)].
Proof.
  induction d as [ | [k' v'] d IH ]; simpl; intros Hk; [ reflexivity | ].
  apply not_elem_of_cons in Hk as [Hne Hk].
  destruct (decide (k = k')); [ congruence | ]. now rewrite IH.
Qed.

(** Building a dictionary from pairs with distinct keys keeps the pairs. *)
Lemma fold_od_set_distinct (pairs acc : list (Py.key * val)) :
  NoDup (map fst (acc ++ pairs)) →
  fold_left (λ d kv, od_set d kv.1 kv.2) pairs acc = acc ++ pairs.
Proof.
  revert acc. induction pairs as [ | [k v] pairs IH ]; intros acc Hnd; simpl.
  - now rewrite app_nil_r.
  - assert (Hk : k ∉ map fst acc).
    { rewrite map_app in Hnd. apply NoDup_app in Hnd as (_ & Hdisj & _).
      intros Hin. apply (Hdisj k Hin). simpl. left. }
    rewrite od_set_fresh by exact Hk.
    rewrite IH; rewrite <- app_assoc; [ reflexivity | exact Hnd ].
Qed.

Lemma dict_of_pairs_distinct (pairs : list (Py.key * val)) :
  distinct_keys pairs = true → dict_of_pairs pairs = pairs.
Proof.
  intros Hd. unfold dict_of_pairs.
  rewrite fold_od_set_distinct; [ reflexivity | ].
  now apply distinct_keys_NoDup.
Qed.

(** What is written for a native value is read back as that value. *)
Lemma loads_dumps (v : val) : native v = true → loads (dumps v) = v.
Proof.
  induction v as [ | b | z | f | s | l IH | l IH | d IH ] using val_nested_ind;
    simpl; intros Hn; try reflexivity; try discriminate.
  - f_equal. induction l as [ | x l IHl ]; simpl in *; [ reflexivity | ].
    apply andb_true_iff in Hn as [Hx Hl]. destruct IH as [IHx IH].
    now rewrite IHx, IHl.
  - apply andb_true_iff in Hn as [Hall Hdist].
    assert (Hmap : map (λ kj : string * t, (KStr kj.1, loads kj.2))
                     (map (λ kv : Py.key * val, (key_text kv.1, dumps kv.2)) d)
                   = d).
    { clear Hdist. induction d as [ | [k x] d IHd ]; simpl in *; [ reflexivity | ].
      apply andb_true_iff in Hall as [Hkx Hall].
      apply andb_true_iff in Hkx as [Hk Hx]. destruct IH as [IHx IH].
      rewrite IHx, IHd by assumption.
      destruct k; [ reflexivity | discriminate ]. }
    rewrite Hmap. now rewrite dict_of_pairs_distinct.
Qed.

End JsonProofs.

(** ** The storage helper *)

Module StorageProofs.

Import Storage Scenarios.

Section storage.
Variable STORAGE_PATH : string.

(** A successful [_write] leaves the content at the storage's path. *)
Lemma _write_ok (s : Storage) (o : io) (content : file) (w w' : world) :
  _write STORAGE_PATH s o content w = (Ok tt, w') →
  fs w' !! path STORAGE_PATH s = Some content.
Proof.
  unfold _write.
  destruct (makedirs_ok o); simpl; [ | discriminate ].
  destruct (tmp_name o) as [ tmp | ]; [ | discriminate ].
  destruct (write_ok o); simpl; [ | discriminate ].
  destruct (replace_ok o); simpl.
  - intros [= <-]. simpl. apply lookup_insert_eq.
  - destruct (remove_ok o); discriminate.
Qed.

(** With an operating system that lets everything through, [save]
    succeeds. *)
Lemma save_succeeds (s : Storage) (o : io) (tmp : string) (d : val)
    (w : world) :
  makedirs_ok o = true → tmp_name o = Some tmp → write_ok o = true →
  replace_ok o = true →
  (save STORAGE_PATH s o d w).1.1 = Ok tt.
Proof.
  intros Hm Ht Hw Hr. unfold save, _write. simpl.
  now rewrite Hm, Ht, Hw, Hr.
Qed.

(** [save] stores the new value in the object whatever the write does. *)
Lemma save_caches (s : Storage) (o : io) (d : val) (w : world) :
  _data (save STORAGE_PATH s o d w).1.2
  = PyDict [(KStr "version", PyInt (version s)); (KStr "data", d)].
Proof.
  unfold save. destruct (_write _ _ _ _ _) as [r w']. reflexivity.
Qed.

(** Reading the [data] of a storage whose file is unreadable raises the
    read error. *)
Lemma data_of_unreadable_file (key : string) (version : Z) (w : world) :
  fs w !! path STORAGE_PATH (__init__ key version) = Some Denied →
  (data STORAGE_PATH (__init__ key version) w).1.1 = Raise StorageReadError.
Proof. intros Hf. unfold data, _load. simpl. now rewrite Hf. Qed.

(** C7: [_load] answers a missing file with the empty dictionary and
    raises nothing, but the [data] property then subscripts that empty
    dictionary with ["data"]: reading the data of a storage without a
    file raises [KeyError] instead of returning an empty result. *)
Theorem data_of_missing_file_raises_KeyError
    (key : string) (version : Z) (w : world) :
  fs w !! path STORAGE_PATH (__init__ key version) = None →
  (_load STORAGE_PATH (__init__ key version) w).1 = Ok (PyDict [])
  ∧ (data STORAGE_PATH (__init__ key version) w).1.1 = Raise KeyError.
Proof.
  intros Hf. unfold data, _load. simpl. rewrite Hf. simpl. split; reflexivity.
Qed.

(** C8, as amended: for a dictionary made of the values that JSON has a
    notation of its own for ([None], booleans, integers, floats other
    than NaN, strings, lists, and dictionaries with pairwise distinct
    string keys; no tuple, no other key), after a [save] that succeeds,
    a fresh storage of the same key and version reads exactly that
    dictionary, and logs no version mismatch. *)
Theorem save_then_data_roundtrip
    (s : Storage) (o : io) (d : val) (w : world) (s' : Storage) (w' : world) :
  Json.native d = true →
  save STORAGE_PATH s o d w = (Ok tt, s', w') →
  data STORAGE_PATH (__init__ (key s) (version s)) w'
  = (Ok d,
     set_data (__init__ (key s) (version s))
       (PyDict [(KStr "version", PyInt (version s)); (KStr "data", d)]),
     w').
Proof.
  intros Hn Hsave. unfold save in Hsave.
  destruct (_write _ _ _ _ _) as [r w1] eqn:Hw.
  injection Hsave as -> <- <-.
  apply _write_ok in Hw. simpl in Hw.
  unfold data, _load. simpl.
  change (path STORAGE_PATH (__init__ (key s) (version s)))
    with (path STORAGE_PATH
            (set_data s (PyDict [(KStr "version", PyInt (version s));
                                 (KStr "data", d)]))).
  rewrite Hw.
  change (Json.JObj _)
    with (Json.dumps (PyDict [(KStr "version", PyInt (version s));
                              (KStr "data", d)])).
  rewrite JsonProofs.loads_dumps by (simpl; now rewrite Hn).
  simpl. now rewrite Z.eqb_refl.
Qed.

(** A write that raised the write error left the storage's file as it
    was, the temporary file being another one. *)
Lemma _write_failure_keeps_file (s : Storage) (o : io) (content : file)
    (w w' : world) :
  _write STORAGE_PATH s o content w = (Raise StorageWriteError, w') →
  (∀ tmp, tmp_name o = Some tmp → tmp ≠ path STORAGE_PATH s) →
  fs w' !! path STORAGE_PATH s = fs w !! path STORAGE_PATH s.
Proof.
  unfold _write.
  destruct (makedirs_ok o); simpl; [ | discriminate ].
  destruct (tmp_name o) as [ tmp | ]; [ | now intros [= <-] ].
  intros Hw Htmp. specialize (Htmp tmp eq_refl). revert Hw.
  destruct (write_ok o); simpl.
  - destruct (replace_ok o); simpl; [ discriminate | ].
    destruct (remove_ok o); intros [= <-]; simpl.
    + rewrite lookup_delete_ne by exact Htmp.
      now rewrite lookup_insert_ne by exact Htmp.
    + now rewrite lookup_insert_ne by exact Htmp.
  - intros [= <-]. simpl. now rewrite lookup_insert_ne by exact Htmp.
Qed.

(** C10: [save] assigns the cache before it writes, so after a write
    that raised the write error the same object still answers [data]
    with the new value, which the file does not hold: the file is as it
    was, and [data] does not read it. *)
Theorem save_failure_keeps_new_value
    (s : Storage) (o : io) (d : val) (w : world) (s' : Storage) (w' : world) :
  save STORAGE_PATH s o d w = (Raise StorageWriteError, s', w') →
  _data s' = PyDict [(KStr "version", PyInt (version s)); (KStr "data", d)]
  ∧ data STORAGE_PATH s' w' = (Ok d, s', w')
  ∧ ((∀ tmp, tmp_name o = Some tmp → tmp ≠ path STORAGE_PATH s) →
     fs w' !! path STORAGE_PATH s = fs w !! path STORAGE_PATH s).
Proof.
  intros Hsave.
  pose proof (save_caches s o d w) as Hc. rewrite Hsave in Hc. simpl in Hc.
  split; [ exact Hc | ]. split.
  - unfold data. rewrite Hc. simpl.
    destruct s' as [k v dt]. simpl in *. subst dt. reflexivity.
  - unfold save in Hsave.
    destruct (_write _ _ _ _ _) as [r w1] eqn:Hw.
    injection Hsave as -> _ <-.
    intros Htmp. now apply _write_failure_keeps_file in Hw.
Qed.

End storage.

Lemma data_of_missing_file_witness :
  (data storage_path foo empty_world).1.1 = Raise KeyError.
Proof.
  apply (data_of_missing_file_raises_KeyError storage_path "foo" 1 empty_world).
  reflexivity.
Defined.

Lemma save_then_data_roundtrip_witness :
  (data storage_path (__init__ "foo" 1)
     (save storage_path foo io_ok fps_29_97 empty_world).2).1.1
  = Ok fps_29_97.
Proof.
  pose proof (save_then_data_roundtrip storage_path foo io_ok fps_29_97
                empty_world
                (save storage_path foo io_ok fps_29_97 empty_world).1.2
                (save storage_path foo io_ok fps_29_97 empty_world).2
                eq_refl eq_refl) as H.
  change (__init__ (key foo) (version foo)) with (__init__ "foo" 1) in H.
  now rewrite H.
Defined.

(** C8, as stated, fails on a dictionary that is serialisable but not
    native: [{1: "a"}] is saved without error and read back as
    [{"1": "a"}]. *)
Lemma save_then_data_changes_int_keys :
  (save storage_path foo io_ok int_keyed empty_world).1.1 = Ok tt
  ∧ (data storage_path (__init__ "foo" 1)
       (save storage_path foo io_ok int_keyed empty_world).2).1.1
    = Ok (PyDict [(KStr "1", PyStr "a")])
  ∧ PyDict [(KStr "1", PyStr "a")] ≠ int_keyed.
Proof. split; [ reflexivity | split; [ reflexivity | discriminate ] ]. Qed.

Lemma save_failure_keeps_new_value_witness :
  (save storage_path foo io_replace_fails a_is_1 empty_world).1.1
  = Raise StorageWriteError
  ∧ (data storage_path
       (save storage_path foo io_replace_fails a_is_1 empty_world).1.2
       (save storage_path foo io_replace_fails a_is_1 empty_world).2).1.1
    = Ok a_is_1.
Proof.
  split; [ reflexivity | ].
  pose proof (save_failure_keeps_new_value storage_path foo io_replace_fails
                a_is_1 empty_world
                (save storage_path foo io_replace_fails a_is_1 empty_world).1.2
                (save storage_path foo io_replace_fails a_is_1 empty_world).2
                eq_refl) as (_ & H & _).
  now rewrite H.
Defined.

End StorageProofs.

(** ** Components: loading, retrying, clearing *)

Module ComponentProofs.

Import Components.

Lemma same_lifecycle_refl (s : State) : same_lifecycle s s.
Proof. now constructor. Qed.

Lemma same_lifecycle_trans (s1 s2 s3 : State) :
  same_lifecycle s1 s2 → same_lifecycle s2 s3 → same_lifecycle s1 s3.
Proof.
  intros [] []. constructor; etransitivity; eassumption.
Qed.

Lemma add_domain_to_setup_lifecycle (self : Component) (r : registration)
    (s : State) :
  same_lifecycle s (add_domain_to_setup self r s)
  ∧ timers (add_domain_to_setup self r s) = timers s
  ∧ trace (add_domain_to_setup self r s) = trace s.
Proof. repeat split. Qed.

Lemma registrations_lifecycle (self : Component) (regs : list registration)
    (s : State) :
  let s' := fold_left (λ s r, add_domain_to_setup self r s) regs s in
  same_lifecycle s s' ∧ timers s' = timers s ∧ trace s' = trace s.
Proof.
  revert s. induction regs as [ | r regs IH ]; intros s; simpl.
  - repeat split.
  - destruct (IH (add_domain_to_setup self r s)) as (Hl & Ht & Htr).
    split; [ | split ]; [ | exact Ht | exact Htr ].
    eapply same_lifecycle_trans; [ | exact Hl ]. repeat split.
Qed.

Lemma clear_marked_lifecycle (l : list DomainToSetup) (s : State)
    (r : result unit) (s' : State) :
  for_each clear_marked l s = (r, s') →
  same_lifecycle s s' ∧ timers s' = timers s ∧ trace s' = trace s
  ∧ domains_to_setup s' = domains_to_setup s.
Proof.
  revert s. induction l as [ | d l IH ]; intros s; simpl.
  - intros [= <- <-]. repeat split.
  - unfold clear_marked at 1.
    destruct (table_del (DOMAINS_TO_SETUP s) (key_of d)) as [ table | ].
    + intros Hloop. apply IH in Hloop as ([] & Ht & Htr & Hp).
      repeat split; assumption.
    + intros [= <- <-]. repeat split.
Qed.

(** The clearing loop only raises [KeyError]. *)
Lemma clear_marked_raises (l : list DomainToSetup) (s s' : State) (e : exn) :
  for_each clear_marked l s = (Raise e, s') → e = KeyError.
Proof.
  revert s. induction l as [ | d l IH ]; intros s; simpl; [ discriminate | ].
  unfold clear_marked at 1.
  destruct (table_del (DOMAINS_TO_SETUP s) (key_of d)) as [ table | ].
  - apply IH.
  - now intros [= <- <-].
Qed.

(** [run_component_setup] returns a boolean or raises the [KeyError] of its
    clearing loop. *)
Lemma run_component_setup_raises (c : Consts) (self : Component)
    (m : ComponentModule) (config : val) (tries : Z) (s s' : State) (e : exn) :
  run_component_setup c self m config tries s = (Raise e, s') → e = KeyError.
Proof.
  unfold run_component_setup.
  destruct (if truthy config then _ else _) as [result s1].
  destruct (is_True result); [ discriminate | ].
  destruct (for_each clear_marked _ s1) as [[ [] | e' ] s2] eqn:Hloop.
  - destruct (is_False result); discriminate.
  - intros [= <- <-]. eapply clear_marked_raises, Hloop.
Qed.

(** [run_component_setup] leaves the lifecycle maps alone, and starts a
    timer exactly when the module's [setup] raised [ComponentNotReady], in
    which case it does not return [True]. *)
Lemma run_component_setup_frame (c : Consts) (self : Component)
    (m : ComponentModule) (config : val) (tries : Z) (s : State)
    (r : result bool) (s' : State) :
  run_component_setup c self m config tries s = (r, s') →
  same_lifecycle s s'
  ∧ (timers s' = timers s
     ∨ (truthy config = true ∧ (setup m config).2 = SetupNotReady
        ∧ r ≠ Ok true ∧ timers s' = timers s ++ [retry_timer c self tries])).
Proof.
  unfold run_component_setup.
  destruct (truthy config) eqn:Hcfg.
  - destruct (setup m config) as [regs ending] eqn:Hsetup.
    pose proof (registrations_lifecycle self regs
                  (emit (CallSetup (name self) config) s)) as Hregs.
    simpl in Hregs.
    set (s1 := fold_left _ regs _) in *.
    destruct Hregs as ([] & Ht1 & _). simpl in *.
    destruct ending as [ v | | ].
    + destruct (is_True v).
      * intros [= <- <-]. split; [ | left; exact Ht1 ].
        constructor; assumption.
      * destruct (for_each clear_marked _ s1) as [[ [] | e ] s2] eqn:Hloop;
          apply clear_marked_lifecycle in Hloop as ([] & Ht2 & _).
        -- destruct (is_False v); intros [= <- <-];
             (split; [ constructor; simpl; congruence | left; simpl; congruence ]).
        -- intros [= <- <-].
           split; [ constructor; simpl; congruence | left; simpl; congruence ].
    + simpl.
      destruct (for_each clear_marked _ _) as [[ [] | e ] s2] eqn:Hloop;
        apply clear_marked_lifecycle in Hloop as ([] & Ht2 & _); simpl in *.
      * intros [= <- <-].
        split; [ constructor; simpl; congruence | right ].
        repeat split; [ discriminate | ]. simpl.
        rewrite Ht2, Ht1. reflexivity.
      * intros [= <- <-].
        split; [ constructor; simpl; congruence | right ].
        repeat split; [ discriminate | ]. rewrite Ht2, Ht1. reflexivity.
    + simpl.
      destruct (for_each clear_marked _ _) as [[ [] | e ] s2] eqn:Hloop;
        apply clear_marked_lifecycle in Hloop as ([] & Ht2 & _); simpl in *;
        intros [= <- <-];
        (split; [ constructor; simpl; congruence | left; simpl; congruence ]).
  - simpl.
    destruct (for_each clear_marked _ _) as [[ [] | e ] s2] eqn:Hloop;
      apply clear_marked_lifecycle in Hloop as ([] & Ht2 & _); simpl in *;
      intros [= <- <-];
      (split; [ constructor; simpl; congruence | left; simpl; congruence ]).
Qed.

Lemma validate_component_config_frame (self : Component) (m : ComponentModule)
    (s : State) :
  let s' := (validate_component_config self m s).2 in
  same_lifecycle s s' ∧ timers s' = timers s
  ∧ domains_to_setup s' = domains_to_setup s
  ∧ DOMAINS_TO_SETUP s' = DOMAINS_TO_SETUP s.
Proof.
  unfold validate_component_config.
  destruct (CONFIG_SCHEMA m) as [ schema | ]; [ destruct (schema _) | ];
    repeat split.
Qed.

Lemma Component_setup_component_frame (c : Consts) (self : Component)
    (m : option ComponentModule) (tries : Z) (s : State)
    (r : result bool) (s' : State) :
  Component_setup_component c self m tries s = (r, s') →
  same_lifecycle s s'
  ∧ (timers s' = timers s
     ∨ (r ≠ Ok true ∧ timers s' = timers s ++ [retry_timer c self tries])).
Proof.
  unfold Component_setup_component.
  destruct m as [ component_module | ].
  - destruct (validate_component_config _ _ _) as [config s1] eqn:Hv.
    pose proof (validate_component_config_frame self component_module
                  (emit (LogSettingUp (name self) tries) s)) as Hf.
    rewrite Hv in Hf. simpl in Hf. destruct Hf as ([] & Ht1 & _).
    intros Hrun. apply run_component_setup_frame in Hrun as ([] & Ht).
    split; [ constructor; simpl in *; congruence | ].
    destruct Ht as [ Ht | (_ & _ & Hr & Ht) ]; [ left | right; split; [ exact Hr | ] ];
      simpl in *; congruence.
  - intros [= <- <-]. split; [ repeat split | left; reflexivity ].
Qed.

Lemma take_timer_app (n : string) (ts : list Timer) (t : Timer) :
  take_timer n ts = None → timer_component t = n →
  take_timer n (ts ++ [t]) = Some (t, ts).
Proof.
  intros Hts Ht. induction ts as [ | t' ts IH ]; simpl in *.
  - destruct (decide (timer_component t = n)); [ reflexivity | contradiction ].
  - destruct (decide (timer_component t' = n)); [ discriminate | ].
    destruct (take_timer n ts) as [ [] | ]; [ discriminate | ].
    now rewrite IH.
Qed.

Lemma setup_component_once (c : Consts) (s : State) (component : Component)
    (m : option ComponentModule) (tries : Z) (s' : State) :
  setup_component c s component m tries = (Ok tt, s') →
  LOADED s !! name component = None →
  (tries ≤ 1 → FAILED s !! name component = None) →
  take_timer (name component) (timers s) = None →
  settled s' (name component)
  ∧ (take_timer (name component) (timers s') = None
     ∨ (LOADED s' !! name component = None
        ∧ take_timer (name component) (timers s')
          = Some (retry_timer c component tries, timers s))).
Proof.
  intros Hcall Hloaded Hfailed Htimers. unfold setup_component in Hcall.
  set (n := name component) in *.
  destruct (if 1 <? tries then _ else _) as [[ [] | e ] s0] eqn:Hunmark;
    [ | discriminate ].
  assert (H0 : LOADED s0 = LOADED s ∧ LOADING s0 = LOADING s
               ∧ timers s0 = timers s ∧ FAILED s0 !! n = None).
  { destruct (1 <? tries) eqn:Htries.
    - unfold map_del in Hunmark.
      destruct (FAILED s !! n); [ | discriminate ].
      injection Hunmark as <-. simpl. repeat split. apply lookup_delete_eq.
    - injection Hunmark as <-. repeat split. apply Hfailed. lia. }
  destruct H0 as (HL0 & HG0 & HT0 & HF0).
  destruct (Component_setup_component c component m tries _) as [r s2] eqn:Hrun.
  apply Component_setup_component_frame in Hrun as ([] & Ht).
  simpl in *. clear Hunmark.
  assert (Hdel : map_del n (LOADING s2) = Some (delete n (LOADING s2))).
  { unfold map_del. now rewrite same_LOADING0, lookup_insert_eq. }
  assert (Hfail : ∀ ev,
            (Ok (), set_LOADING (delete n (LOADING s2))
                      (set_FAILED (<[n:=component]> (FAILED s2)) (emit ev s2)))
            = (Ok (), s') →
            r ≠ Ok true →
            settled s' n
            ∧ (take_timer n (timers s') = None
               ∨ (LOADED s' !! n = None
                  ∧ take_timer n (timers s')
                    = Some (retry_timer c component tries, timers s)))).
  { intros ev [= <-] Hr. unfold settled. simpl.
    rewrite lookup_delete_eq, lookup_insert_eq, same_LOADED0, HL0.
    split; [ split; [ reflexivity | right; split; [ exact Hloaded | eauto ] ] | ].
    destruct Ht as [ -> | [_ ->] ]; rewrite HT0.
    - left. exact Htimers.
    - right. split; [ exact Hloaded | ]. now apply take_timer_app. }
  destruct r as [ [ | ] | e ].
  - rewrite Hdel in Hcall. injection Hcall as <-. unfold settled. simpl.
    rewrite lookup_delete_eq, lookup_insert_eq, same_FAILED0.
    split; [ split; [ reflexivity | left; split; [ eauto | exact HF0 ] ] | ].
    left. destruct Ht as [ -> | [Hr _] ]; [ | congruence ].
    now rewrite HT0.
  - rewrite Hdel in Hcall. eapply Hfail; [ exact Hcall | discriminate ].
  - destruct e; try discriminate.
    rewrite Hdel in Hcall. eapply Hfail; [ exact Hcall | discriminate ].
Qed.


(** A call of the module-level [setup_component] that raises: the
    exception is the [KeyError] of a [del], and unless that of the
    [FAILED] entry of a retry, the component is left in [LOADING] and in
    neither of the two other maps. *)
Lemma setup_component_raising (c : Consts) (s : State) (component : Component)
    (m : option ComponentModule) (tries : Z) (e : exn) (s' : State) :
  setup_component c s component m tries = (Raise e, s') →
  LOADED s !! name component = None →
  (tries ≤ 1 → FAILED s !! name component = None) →
  (1 < tries → is_Some (FAILED s !! name component)) →
  e = KeyError
  ∧ LOADING s' !! name component = Some component
  ∧ LOADED s' !! name component = None
  ∧ FAILED s' !! name component = None.
Proof.
  intros Hcall Hloaded Hfresh Hretry. unfold setup_component in Hcall.
  set (n := name component) in *.
  destruct (if 1 <? tries then _ else _) as [[ [] | e0 ] s0] eqn:Hunmark.
  2:{ exfalso. destruct (1 <? tries) eqn:Htries; [ | discriminate ].
      destruct (Hretry ltac:(now apply Z.ltb_lt)) as [x Hx].
      unfold map_del in Hunmark. fold n in Hunmark. rewrite Hx in Hunmark.
      discriminate. }
  assert (H0 : LOADED s0 = LOADED s ∧ FAILED s0 !! n = None).
  { destruct (1 <? tries) eqn:Htries.
    - unfold map_del in Hunmark.
      destruct (FAILED s !! n); [ | discriminate ].
      injection Hunmark as <-. simpl. split; [ reflexivity | ].
      apply lookup_delete_eq.
    - injection Hunmark as <-. split; [ reflexivity | ].
      apply Hfresh. apply Z.ltb_ge in Htries. lia. }
  destruct H0 as [HL0 HF0]. clear Hunmark.
  destruct (Component_setup_component c component m tries _) as [r s2] eqn:Hrun.
  pose proof Hrun as Hframe.
  apply Component_setup_component_frame in Hframe as ([] & _).
  simpl in *.
  assert (Hdel : map_del n (LOADING s2) = Some (delete n (LOADING s2))).
  { unfold map_del. now rewrite same_LOADING0, lookup_insert_eq. }
  destruct r as [ [ | ] | e1 ].
  - rewrite Hdel in Hcall. discriminate.
  - rewrite Hdel in Hcall. discriminate.
  - assert (He1 : e1 = KeyError ∨ e1 = ModuleNotFoundError).
    { revert Hrun. unfold Component_setup_component.
      destruct m as [ cm | ]; [ | intros [= <- _]; now right ].
      destruct (validate_component_config _ _ _) as [config s1].
      intros Hrun. left. eapply run_component_setup_raises, Hrun. }
    destruct He1 as [ -> | -> ].
    + injection Hcall as <- <-.
      rewrite same_LOADING0, same_LOADED0, same_FAILED0, HL0.
      rewrite lookup_insert_eq. auto.
    + rewrite Hdel in Hcall. discriminate.
Qed.

End ComponentProofs.

(** ** The workers, one move at a time *)

Module WorkerProofs.

Import Components.

Lemma od_get_od_set {K V : Type} `{EqDecision K} (d : list (K * V))
    (k k' : K) (v : V) :
  od_get (od_set d k v) k' = if decide (k' = k) then Some v else od_get d k'.
Proof.
  induction d as [ | [k0 v0] d IH ]; simpl.
  - destruct (decide (k' = k)); reflexivity.
  - destruct (decide (k = k0)) as [-> | Hne]; simpl.
    + destruct (decide (k' = k0)); reflexivity.
    + destruct (decide (k' = k0)) as [-> | Hne'].
      * destruct (decide (k0 = k)); [ congruence | reflexivity ].
      * exact IH.
Qed.

Lemma py_remove_subset {A : Type} `{EqDecision A} (x : A) (l l' : list A) :
  py_remove x l = Some l' → ∀ y, y ∈ l' → y ∈ l.
Proof.
  revert l'. induction l as [ | a l IH ]; intros l'; simpl; [ discriminate | ].
  destruct (decide (x = a)) as [-> | Hne].
  - intros [= <-] y Hy. now apply elem_of_cons; right.
  - destruct (py_remove x l) as [ l'' | ]; [ | discriminate ].
    intros [= <-] y Hy. apply elem_of_cons in Hy as [-> | Hy].
    + apply elem_of_cons; now left.
    + apply elem_of_cons; right. now apply (IH l'').
Qed.

Lemma shrinks_refl (ids : list (string * list (option string))) :
  shrinks ids ids.
Proof. intros r Hr. exact Hr. Qed.

Lemma shrinks_trans (a b c : list (string * list (option string))) :
  shrinks a b → shrinks b c → shrinks a c.
Proof. intros Hab Hbc r Hr. apply Hab, Hbc, Hr. Qed.

(** Removing an identifier from the list of its domain registers no more. *)
Lemma shrinks_remove (ids : list (string * list (option string)))
    (dom : string) (i : option string) (l l' : list (option string)) :
  od_get ids dom = Some l → py_remove i l = Some l' →
  shrinks ids (od_set ids dom l').
Proof.
  intros Hget Hrem [rd ri]. unfold registered. simpl.
  rewrite od_get_od_set. destruct (decide (rd = dom)) as [-> | Hne].
  - rewrite Hget. rewrite !bool_decide_eq_true.
    apply (py_remove_subset _ _ _ Hrem).
  - trivial.
Qed.

Lemma all_done_spec (s : State) (futures : list nat) :
  all_done s futures = true ↔ ∀ dep, dep ∈ futures → is_Some (result_of s dep).
Proof.
  unfold all_done. rewrite forallb_forall. split.
  - intros H dep Hd. apply list_elem_of_In, H in Hd.
    destruct (result_of s dep); [ eauto | discriminate ].
  - intros H dep Hd. apply list_elem_of_In, H in Hd as [o ->]. reflexivity.
Qed.

Lemma first_raised_Some (s : State) (futures : list nat) (e : exn) :
  first_raised s futures = Some e →
  ∃ dep, dep ∈ futures ∧ result_of s dep = Some (Raised e).
Proof.
  induction futures as [ | f fs IH ]; simpl; [ discriminate | ].
  destruct (result_of s f) as [ [ v | e' ] | ] eqn:Hf.
  - intros H. destruct (IH H) as (dep & Hd & Hr).
    exists dep. split; [ now apply elem_of_cons; right | exact Hr ].
  - intros [= <-]. exists f. split; [ apply elem_of_cons; now left | exact Hf ].
  - intros H. destruct (IH H) as (dep & Hd & Hr).
    exists dep. split; [ now apply elem_of_cons; right | exact Hr ].
Qed.

Lemma first_raised_None (s : State) (futures : list nat) :
  first_raised s futures = None →
  ∀ dep e, dep ∈ futures → result_of s dep ≠ Some (Raised e).
Proof.
  induction futures as [ | f fs IH ]; simpl; intros H dep e Hd.
  - now apply elem_of_nil in Hd.
  - apply elem_of_cons in Hd as [-> | Hd].
    + destruct (result_of s f) as [ [ v | e' ] | ]; congruence.
    + destruct (result_of s f) as [ [ v | e' ] | ];
        try discriminate; now apply IH.
Qed.

Lemma failed_nil (s : State) (futures : list nat) :
  failed s futures = [] →
  ∀ dep v, dep ∈ futures → result_of s dep = Some (Returned v) →
           v = PyBool true.
Proof.
  intros Hnil dep v Hd Hr. unfold failed in Hnil.
  assert (Hin : ¬ In dep (List.filter
                 (λ f, match result_of s f with
                       | Some (Returned v) => negb (is_True v)
                       | _ => false
                       end) futures)) by (rewrite Hnil; intros []).
  rewrite filter_In, Hr in Hin.
  destruct v as [ | [ | ] | | | | | | ]; try reflexivity;
    exfalso; apply Hin; (split; [ now apply list_elem_of_In | reflexivity ]).
Qed.

Lemma failed_cons (s : State) (futures : list nat) (f : nat) (fl : list nat) :
  failed s futures = f :: fl →
  ∃ v, f ∈ futures ∧ result_of s f = Some (Returned v) ∧ is_True v = false.
Proof.
  intros Hf.
  assert (Hin : In f (failed s futures)) by (rewrite Hf; now left).
  unfold failed in Hin. apply filter_In in Hin as [Hin Hv].
  destruct (result_of s f) as [ [ v | ] | ]; try discriminate.
  exists v. repeat split; [ now apply list_elem_of_In | ].
  now apply negb_true_iff.
Qed.

(** Every move of [Component.setup_domain] is one of [worker_move]. *)
Lemma Component_setup_domain_moves (c : Consts) (future : nat)
    (m : option DomainModule) (ending : setup_result) (s : State) :
  Component_setup_domain c future m ending s = s
  ∨ ∃ t e p ids,
      pool s !! future = Some t
      ∧ worker_move c s future t e p
      ∧ shrinks (DOMAIN_IDENTIFIERS s) ids
      ∧ Component_setup_domain c future m ending s = moved s future e p ids.
Proof.
  unfold Component_setup_domain.
  destruct (pool s !! future) as [ t | ] eqn:Ht; [ | now left ].
  destruct (task_phase t) as [ n | cfg futures n | n | o ] eqn:Hp.
  - right. destruct m as [ dm | ].
    + destruct (dependencies_futures s (entry t)) as [ req | ] eqn:Hreq.
      * destruct (optional_dependencies_futures s (entry t)) as [ opt | ] eqn:Hopt.
        -- eexists t, _, _, _. split; [ reflexivity | ].
           split; [ eapply move_wait; eassumption | ].
           split; [ apply shrinks_refl | reflexivity ].
        -- eexists t, _, _, _. split; [ reflexivity | ].
           split; [ eapply move_lookup_fails; eassumption | ].
           split; [ apply shrinks_refl | reflexivity ].
      * eexists t, _, _, _. split; [ reflexivity | ].
        split; [ eapply move_lookup_fails; eassumption | ].
        split; [ apply shrinks_refl | reflexivity ].
    + eexists t, _, _, _. split; [ reflexivity | ].
      split; [ eapply move_import_fails; eassumption | ].
      split; [ apply shrinks_refl | reflexivity ].
  - destruct (all_done s futures) eqn:Hdone; [ right | now left ].
    pose proof (proj1 (all_done_spec s futures) Hdone) as Hall.
    destruct (first_raised s futures) as [ e | ] eqn:Hraised.
    + apply first_raised_Some in Hraised as (dep & Hd & Hr).
      eexists t, _, _, _. split; [ reflexivity | ].
      split; [ eapply move_dependency_raised; eassumption | ].
      split; [ apply shrinks_refl | reflexivity ].
    + destruct (failed s futures) as [ | f fl ] eqn:Hfailed.
      * destruct (truthy cfg) eqn:Hcfg.
        -- eexists t, _, _, _. split; [ reflexivity | ].
           split; [ | split; [ apply shrinks_refl | reflexivity ] ].
           eapply move_call; [ eassumption | | exact Hcfg ].
           intros dep Hd. destruct (Hall dep Hd) as [ [ v | e ] Hr ].
           ++ rewrite Hr. do 2 f_equal. eapply failed_nil; eassumption.
           ++ exfalso. eapply first_raised_None; eassumption.
        -- eexists t, _, _, _. split; [ reflexivity | ].
           split; [ eapply move_abandoned; eassumption | ].
           split; [ apply shrinks_refl | reflexivity ].
      * eexists t, _, _, _. split; [ reflexivity | ].
        split; [ eapply move_abandoned; eassumption | ].
        split; [ apply shrinks_refl | reflexivity ].
  - right. destruct ending as [ v | | ].
    + eexists t, _, _, _. split; [ reflexivity | ].
      split; [ eapply move_ended; eassumption | ].
      split; [ apply shrinks_refl | reflexivity ].
    + eexists t, _, _, _. split; [ reflexivity | ].
      split; [ eapply move_sleep; eassumption | ].
      split; [ apply shrinks_refl | reflexivity ].
    + destruct (od_get (DOMAIN_IDENTIFIERS s) (domain (entry t)))
        as [ l | ] eqn:Hl.
      * destruct (py_remove (identifier (entry t)) l) as [ l' | ] eqn:Hrem.
        -- eexists t, _, _, _. split; [ reflexivity | ].
           split; [ eapply move_ended; eassumption | ].
           split; [ eapply shrinks_remove; eassumption | reflexivity ].
        -- eexists t, _, _, _. split; [ reflexivity | ].
           split; [ eapply move_ended; eassumption | ].
           split; [ apply shrinks_refl | reflexivity ].
      * eexists t, _, _, _. split; [ reflexivity | ].
        split; [ eapply move_ended; eassumption | ].
        split; [ apply shrinks_refl | reflexivity ].
  - now left.
Qed.

End WorkerProofs.

(** ** Retry delays, failed setups and falsy configurations *)

Module SetupProofs.

Import Components ComponentProofs WorkerProofs Scenarios.

(** A [ComponentNotReady] starts the retry timer, whatever the clearing
    loop does afterwards. *)
Lemma not_ready_starts_timer (c : Consts) (self : Component)
    (m : ComponentModule) (config : val) (tries : Z) (s : State) :
  truthy config = true → (setup m config).2 = SetupNotReady →
  timers (run_component_setup c self m config tries s).2
  = timers s ++ [retry_timer c self tries].
Proof.
  intros Hcfg Hend.
  destruct (run_component_setup c self m config tries s) as [r s'] eqn:Hrun.
  pose proof Hrun as Hframe. apply run_component_setup_frame in Hframe as [_ Ht].
  simpl. destruct Ht as [ Ht | (_ & _ & _ & Ht) ]; [ | exact Ht ].
  exfalso. revert Hrun. unfold run_component_setup. rewrite Hcfg.
  destruct (setup m config) as [regs ending]. simpl in Hend. subst ending.
  pose proof (registrations_lifecycle self regs
                (emit (CallSetup (name self) config) s)) as (_ & Ht1 & _).
  simpl in Ht1. simpl.
  destruct (for_each clear_marked _ _) as [[ [] | e ] s2] eqn:Hloop;
    apply clear_marked_lifecycle in Hloop as (_ & Ht2 & _); simpl in Ht2;
    intros [= <- <-]; simpl in Ht; rewrite Ht2, Ht1 in Ht;
    apply (f_equal length) in Ht; rewrite length_app in Ht; simpl in Ht; lia.
Qed.

(** A [DomainNotReady] makes the worker sleep, then start over. *)
Lemma not_ready_sleeps (c : Consts) (s : State) (future : nat) (t : Task)
    (dm : option DomainModule) (tries : Z) :
  pool s !! future = Some t → task_phase t = InSetup tries →
  Component_setup_domain c future dm SetupNotReady s
  = moved s future
      (Sleeps future
         (Z.min (tries * DOMAIN_RETRY_INTERVAL c) (DOMAIN_RETRY_INTERVAL_MAX c)))
      (AtStart (tries + 1)) (DOMAIN_IDENTIFIERS s).
Proof.
  intros Ht Hp. unfold Component_setup_domain. now rewrite Ht, Hp.
Qed.

(** C4: at attempt [tries ≥ 1], a component that is not ready is retried by
    a timer of [min(tries × COMPONENT_RETRY_INTERVAL,
    COMPONENT_RETRY_INTERVAL_MAX)] seconds, and a domain that is not ready
    sleeps [min(tries × DOMAIN_RETRY_INTERVAL, DOMAIN_RETRY_INTERVAL_MAX)]
    seconds, both for attempt [tries + 1]; with an interval of 3 and a
    maximum of 60 the delay is [3 × tries] up to 5 tries and 60 from 20
    tries on. *)
Theorem not_ready_retry_delay (c : Consts) (self : Component)
    (m : ComponentModule) (config : val) (s : State) (future : nat) (t : Task)
    (dm : option DomainModule) (tries : Z) :
  1 ≤ tries →
  truthy config = true → (setup m config).2 = SetupNotReady →
  pool s !! future = Some t → task_phase t = InSetup tries →
  let component_delay :=
    Z.min (tries * COMPONENT_RETRY_INTERVAL c) (COMPONENT_RETRY_INTERVAL_MAX c) in
  let domain_delay :=
    Z.min (tries * DOMAIN_RETRY_INTERVAL c) (DOMAIN_RETRY_INTERVAL_MAX c) in
  timers (run_component_setup c self m config tries s).2
  = timers s ++ [Build_Timer component_delay (name self) (tries + 1)]
  ∧ Component_setup_domain c future dm SetupNotReady s
    = moved s future (Sleeps future domain_delay) (AtStart (tries + 1))
        (DOMAIN_IDENTIFIERS s)
  ∧ (COMPONENT_RETRY_INTERVAL c = 3 → COMPONENT_RETRY_INTERVAL_MAX c = 60 →
     (tries ≤ 5 → component_delay = 3 * tries)
     ∧ (20 ≤ tries → component_delay = 60))
  ∧ (DOMAIN_RETRY_INTERVAL c = 3 → DOMAIN_RETRY_INTERVAL_MAX c = 60 →
     (tries ≤ 5 → domain_delay = 3 * tries)
     ∧ (20 ≤ tries → domain_delay = 60)).
Proof.
  intros Htries Hcfg Hend Ht Hp. cbv zeta.
  split; [ now apply not_ready_starts_timer | ].
  split; [ eapply not_ready_sleeps; eassumption | ].
  split; intros -> ->; lia.
Qed.

Lemma not_ready_retry_delay_witness :
  timers (run_component_setup consts_3_60 darknet not_ready (PyBool true) 2
            in_second_attempt).2
  = [Build_Timer 6 "darknet" 3]
  ∧ trace (Component_setup_domain consts_3_60 0%nat None SetupNotReady
             in_second_attempt)
    = [Sleeps 0%nat 6].
Proof.
  pose proof (not_ready_retry_delay consts_3_60 darknet not_ready (PyBool true)
                in_second_attempt 0%nat (Build_Task camera_entry (InSetup 2))
                None 2 ltac:(lia) eq_refl eq_refl eq_refl eq_refl)
    as (Htimer & Hsleep & _).
  split; [ exact Htimer | now rewrite Hsleep ].
Defined.

(** *** The clearing loop of a failed component *)

Lemma od_keys_od_set {K V : Type} `{EqDecision K} (d : list (K * V))
    (k : K) (v : V) :
  od_keys (od_set d k v)
  = match od_get d k with
    | Some _ => od_keys d
    | None => od_keys d ++ [k]
    end.
Proof.
  induction d as [ | [k0 v0] d IH ]; simpl; [ reflexivity | ].
  destruct (decide (k = k0)) as [ -> | Hne ]; simpl; [ reflexivity | ].
  rewrite IH. now destruct (od_get d k).
Qed.

Lemma od_get_None_keys {K V : Type} `{EqDecision K} (d : list (K * V))
    (k : K) :
  od_get d k = None ↔ k ∉ od_keys d.
Proof.
  induction d as [ | [k0 v0] d IH ]; simpl.
  - split; [ intros _; apply not_elem_of_nil | reflexivity ].
  - rewrite not_elem_of_cons. destruct (decide (k = k0)) as [ -> | Hne ].
    + split; [ discriminate | intros [H _]; congruence ].
    + rewrite IH. tauto.
Qed.

Lemma od_set_NoDup {K V : Type} `{EqDecision K} (d : list (K * V))
    (k : K) (v : V) :
  NoDup (od_keys d) → NoDup (od_keys (od_set d k v)).
Proof.
  intros Hd. rewrite od_keys_od_set.
  destruct (od_get d k) eqn:Hget; [ exact Hd | ].
  apply NoDup_app. split; [ exact Hd | ]. split; [ | apply NoDup_singleton ].
  intros x Hx ->%list_elem_of_singleton.
  now apply od_get_None_keys in Hget.
Qed.

Lemma od_del_Some {K V : Type} `{EqDecision K} (d : list (K * V)) (k : K) :
  is_Some (od_get d k) → is_Some (od_del d k).
Proof.
  induction d as [ | [k0 v0] d IH ]; simpl; [ intros [? [=]] | ].
  destruct (decide (k = k0)); [ eauto | ].
  intros H. destruct (IH H) as [d' ->]. eauto.
Qed.

Lemma od_get_od_del_ne {K V : Type} `{EqDecision K} (d d' : list (K * V))
    (k k' : K) :
  od_del d k = Some d' → k' ≠ k → od_get d' k' = od_get d k'.
Proof.
  revert d'. induction d as [ | [k0 v0] d IH ]; intros d'; simpl;
    [ discriminate | ].
  destruct (decide (k = k0)) as [ -> | Hne ].
  - intros [= <-] Hk. destruct (decide (k' = k0)); [ congruence | reflexivity ].
  - destruct (od_del d k) as [ d'' | ]; [ | discriminate ].
    intros [= <-] Hk. simpl.
    destruct (decide (k' = k0)); [ reflexivity | now apply IH ].
Qed.

Lemma od_del_keys {K V : Type} `{EqDecision K} (d d' : list (K * V)) (k : K) :
  od_del d k = Some d' → NoDup (od_keys d) →
  NoDup (od_keys d') ∧ od_get d' k = None.
Proof.
  revert d'. induction d as [ | [k0 v0] d IH ]; intros d'; simpl;
    [ discriminate | ].
  rewrite NoDup_cons. destruct (decide (k = k0)) as [ -> | Hne ].
  - intros [= <-] [Hk0 Hd]. split; [ exact Hd | now apply od_get_None_keys ].
  - destruct (od_del d k) as [ d'' | ] eqn:Hdel; [ | discriminate ].
    intros [= <-] [Hk0 Hd]. destruct (IH d'' eq_refl Hd) as [Hnd Hget].
    simpl. rewrite decide_False by exact Hne. split; [ | exact Hget ].
    apply NoDup_cons. split; [ | exact Hnd ].
    intros Hin. apply Hk0. apply od_get_None_keys in Hk0 as Hnone.
    destruct (od_get d'' k0) eqn:Hget0.
    + rewrite (od_get_od_del_ne _ _ _ _ Hdel) in Hget0 by congruence.
      congruence.
    + now apply od_get_None_keys in Hget0.
Qed.

Lemma table_get_table_set
    (table : list (string * list (option string * DomainToSetup)))
    (dom : string) (i : ident) (d : DomainToSetup) (k : ref) :
  table_get (table_set table dom i d) k
  = if decide (k = (dom, i)) then Some d else table_get table k.
Proof.
  destruct k as [kd ki]. unfold table_get, table_set. simpl.
  rewrite od_get_od_set. destruct (decide (kd = dom)) as [ -> | Hne ].
  - rewrite od_get_od_set. destruct (decide (ki = i)) as [ -> | Hi ].
    + now rewrite decide_True.
    + rewrite decide_False by congruence.
      now destruct (od_get table dom).
  - now rewrite decide_False by congruence.
Qed.

Lemma table_set_well_keyed
    (table : list (string * list (option string * DomainToSetup)))
    (dom : string) (i : ident) (d : DomainToSetup) :
  well_keyed table → well_keyed (table_set table dom i d).
Proof.
  intros Hwk dom' inner. unfold table_set. rewrite od_get_od_set.
  destruct (decide (dom' = dom)) as [ -> | Hne ]; [ | apply Hwk ].
  intros [= <-]. apply od_set_NoDup.
  destruct (od_get table dom) as [ inner | ] eqn:Hget; simpl.
  - exact (Hwk _ _ Hget).
  - apply NoDup_nil_2.
Qed.

Lemma table_del_Some
    (table : list (string * list (option string * DomainToSetup)))
    (k : ref) :
  is_Some (table_get table k) → is_Some (table_del table k).
Proof.
  unfold table_get, table_del.
  destruct (od_get table k.1) as [ inner | ]; [ | intros [? [=]] ].
  intros H. destruct (od_del_Some _ _ H) as [inner' ->]. eauto.
Qed.

Lemma table_get_table_del_ne
    (table table' : list (string * list (option string * DomainToSetup)))
    (k k' : ref) :
  table_del table k = Some table' → k' ≠ k →
  table_get table' k' = table_get table k'.
Proof.
  destruct k as [kd ki], k' as [kd' ki']. unfold table_get, table_del. simpl.
  destruct (od_get table kd) as [ inner | ] eqn:Hrow; [ | discriminate ].
  destruct (od_del inner ki) as [ inner' | ] eqn:Hdel; [ | discriminate ].
  intros [= <-] Hne. rewrite od_get_od_set.
  destruct (decide (kd' = kd)) as [ -> | ]; [ | reflexivity ].
  rewrite Hrow. apply (od_get_od_del_ne _ _ _ _ Hdel). congruence.
Qed.

Lemma table_del_well_keyed
    (table table' : list (string * list (option string * DomainToSetup)))
    (k : ref) :
  table_del table k = Some table' → well_keyed table →
  well_keyed table' ∧ table_get table' k = None.
Proof.
  destruct k as [kd ki]. unfold table_get, table_del. simpl.
  destruct (od_get table kd) as [ inner | ] eqn:Hrow; [ | discriminate ].
  destruct (od_del inner ki) as [ inner' | ] eqn:Hdel; [ | discriminate ].
  intros [= <-] Hwk.
  destruct (od_del_keys _ _ _ Hdel (Hwk _ _ Hrow)) as [Hnd Hget]. split.
  - intros dom' inner0. rewrite od_get_od_set.
    destruct (decide (dom' = kd)) as [ -> | ]; [ | apply Hwk ].
    now intros [= <-].
  - rewrite od_get_od_set, decide_True by reflexivity. exact Hget.
Qed.

(** Over entries with distinct keys that are all in the table, the
    clearing loop runs to its end and leaves none of them there. *)
Lemma clear_marked_distinct (l : list DomainToSetup) (s : State) :
  well_keyed (DOMAINS_TO_SETUP s) →
  NoDup (map key_of l) →
  (∀ d, d ∈ l → is_Some (table_get (DOMAINS_TO_SETUP s) (key_of d))) →
  ∃ s', for_each clear_marked l s = (Ok tt, s')
        ∧ well_keyed (DOMAINS_TO_SETUP s')
        ∧ (∀ d, d ∈ l → table_get (DOMAINS_TO_SETUP s') (key_of d) = None)
        ∧ (∀ k, k ∉ map key_of l →
             table_get (DOMAINS_TO_SETUP s') k
             = table_get (DOMAINS_TO_SETUP s) k).
Proof.
  revert s. induction l as [ | d l IH ]; intros s Hwk Hnd Hin; simpl.
  - exists s. split; [ reflexivity | ]. split; [ exact Hwk | ].
    split; [ | reflexivity ]. intros d Hd. now apply elem_of_nil in Hd.
  - simpl in Hnd. apply NoDup_cons in Hnd as [Hd Hnd].
    unfold clear_marked at 1.
    destruct (table_del_Some _ _ (Hin d (list_elem_of_here _ _)))
      as [table Hdel].
    rewrite Hdel.
    destruct (table_del_well_keyed _ _ _ Hdel Hwk) as [Hwk1 Hgone].
    destruct (IH (set_DOMAINS_TO_SETUP table s)) as (s' & Hrun & Hwk' & Hl & Hk).
    + exact Hwk1.
    + exact Hnd.
    + intros d' Hd'. simpl.
      rewrite (table_get_table_del_ne _ _ _ _ Hdel).
      * apply Hin. now apply list_elem_of_further.
      * intros Heq. apply Hd. rewrite <- Heq.
        apply list_elem_of_fmap. now exists d'.
    + exists s'. split; [ exact Hrun | ]. split; [ exact Hwk' | ]. split.
      * intros d' [ -> | Hd' ]%elem_of_cons; [ | now apply Hl ].
        rewrite (Hk _ Hd). exact Hgone.
      * intros k [Hkd Hkl]%not_elem_of_cons. rewrite (Hk _ Hkl). simpl.
        now apply (table_get_table_del_ne _ _ _ _ Hdel).
Qed.

(** What the registrations of one [setup] call leave behind: the list of
    the component grows by their entries, and each is in the table. *)
Lemma registrations_queue (self : Component) (regs : list registration)
    (s : State) :
  well_keyed (DOMAINS_TO_SETUP s) →
  let s' := fold_left (λ s r, add_domain_to_setup self r s) regs s in
  pending_of s' (name self)
  = pending_of s (name self) ++ map (queued_entry self) regs
  ∧ well_keyed (DOMAINS_TO_SETUP s')
  ∧ (∀ k, is_Some (table_get (DOMAINS_TO_SETUP s) k) →
          is_Some (table_get (DOMAINS_TO_SETUP s') k))
  ∧ (∀ r, r ∈ regs → is_Some (table_get (DOMAINS_TO_SETUP s') (reg_key r))).
Proof.
  revert s. induction regs as [ | r regs IH ]; intros s Hwk; simpl.
  - rewrite app_nil_r. split; [ reflexivity | ]. split; [ exact Hwk | ].
    split; [ tauto | ]. intros r Hr. now apply elem_of_nil in Hr.
  - destruct (IH (add_domain_to_setup self r s)) as (Hp & Hwk' & Hkeep & Hin).
    { simpl. now apply table_set_well_keyed. }
    assert (Hstep : ∀ k, is_Some (table_get (DOMAINS_TO_SETUP s) k)
                         ∨ k = reg_key r →
                         is_Some (table_get
                                    (DOMAINS_TO_SETUP
                                       (add_domain_to_setup self r s)) k)).
    { intros k Hk. simpl. rewrite table_get_table_set.
      destruct (decide (k = _)) as [ | Hne ]; [ eauto | ].
      destruct Hk as [ Hk | Hk ]; [ exact Hk | ]. now destruct Hne. }
    split; [ | split; [ exact Hwk' | split ] ].
    + rewrite Hp. unfold pending_of at 1. simpl.
      rewrite lookup_insert_eq. simpl. now rewrite <- app_assoc.
    + intros k Hk. apply Hkeep, Hstep. now left.
    + intros r' [ -> | Hr' ]%elem_of_cons; [ | now apply Hin ].
      apply Hkeep, Hstep. now right.
Qed.

(** A [setup] that returns [True] leaves what it queued in place. *)
Lemma setup_returning_True_keeps_queue (c : Consts) (self : Component)
    (m : ComponentModule) (config : val) (tries : Z) (s : State)
    (regs : list registration) :
  truthy config = true →
  setup m config = (regs, SetupReturns (PyBool true)) →
  run_component_setup c self m config tries s
  = (Ok true,
     emit (LogSetupTook (name self))
       (fold_left (λ s r, add_domain_to_setup self r s) regs
          (emit (CallSetup (name self) config) s))).
Proof.
  intros Hconfig Hsetup. unfold run_component_setup.
  now rewrite Hconfig, Hsetup.
Qed.

(** A component with nothing queued before, whose [setup] queues domains
    under distinct keys and does not return [True]: [setup_component]
    returns [False], the list of the component is emptied and none of
    the queued keys is left in the table. *)
Lemma failed_setup_clears_queue (c : Consts) (self : Component)
    (m : ComponentModule) (config : val) (tries : Z) (s : State)
    (regs : list registration) (ending : setup_result) :
  well_keyed (DOMAINS_TO_SETUP s) →
  pending_of s (name self) = [] →
  truthy config = true →
  setup m config = (regs, ending) →
  (∀ v, ending = SetupReturns v → is_True v = false) →
  NoDup (map reg_key regs) →
  ∃ s', run_component_setup c self m config tries s = (Ok false, s')
        ∧ pending_of s' (name self) = []
        ∧ (∀ r, r ∈ regs →
             table_get (DOMAINS_TO_SETUP s') (reg_key r) = None).
Proof.
  intros Hwk Hfresh Hconfig Hsetup Hending Hnd.
  destruct (registrations_queue self regs
              (emit (CallSetup (name self) config) s) Hwk)
    as (Hp & Hwk1 & _ & Hin).
  change (pending_of (emit (CallSetup (name self) config) s) (name self))
    with (pending_of s (name self)) in Hp.
  rewrite Hfresh in Hp. simpl in Hp.
  set (s1 := fold_left _ regs _) in *.
  assert (Hloop : ∀ s2,
            pending_of s2 (name self) = pending_of s1 (name self) →
            DOMAINS_TO_SETUP s2 = DOMAINS_TO_SETUP s1 →
            ∃ s3, for_each clear_marked (pending_of s2 (name self)) s2
                  = (Ok tt, s3)
                  ∧ ∀ r, r ∈ regs →
                      table_get (DOMAINS_TO_SETUP s3) (reg_key r) = None).
  { intros s2 Hp2 Ht2. rewrite Hp2, Hp.
    destruct (clear_marked_distinct (map (queued_entry self) regs) s2)
      as (s3 & Hrun & _ & Hgone & _).
    - now rewrite Ht2.
    - now rewrite map_map.
    - intros d (r & -> & Hr)%list_elem_of_fmap. rewrite Ht2. now apply Hin.
    - exists s3. split; [ exact Hrun | ]. intros r Hr.
      apply (Hgone (queued_entry self r)).
      apply list_elem_of_fmap. now exists r. }
  unfold run_component_setup. rewrite Hconfig, Hsetup. fold s1.
  destruct ending as [ v | | ].
  - rewrite (Hending v eq_refl).
    destruct (Hloop s1 eq_refl eq_refl) as (s3 & -> & Hgone).
    destruct (is_False v); eexists; (split; [ reflexivity | ]);
      (split; [ unfold pending_of; simpl; now rewrite lookup_insert_eq
              | exact Hgone ]).
  - simpl is_True. cbv iota.
    match goal with
    | |- context [ for_each clear_marked (pending_of ?s2 _) ?s2 ] =>
        destruct (Hloop s2 eq_refl eq_refl) as (s3 & -> & Hgone)
    end.
    eexists. split; [ reflexivity | ].
    split; [ unfold pending_of; simpl; now rewrite lookup_insert_eq
           | exact Hgone ].
  - simpl is_True. cbv iota.
    match goal with
    | |- context [ for_each clear_marked (pending_of ?s2 _) ?s2 ] =>
        destruct (Hloop s2 eq_refl eq_refl) as (s3 & -> & Hgone)
    end.
    eexists. split; [ reflexivity | ].
    split; [ unfold pending_of; simpl; now rewrite lookup_insert_eq
           | exact Hgone ].
Qed.

(** C5, where the code departs from it: a component whose [setup] queued
    the same domain and identifier twice and then returned [False] does
    not make [setup_component] return [False]; the clearing loop deletes
    the table entry at the first of the two and raises [KeyError] at the
    second, the list of the component is not emptied, and the
    module-level [setup_component] lets the exception through with the
    component still in [LOADING]. *)
Theorem clearing_a_twice_queued_domain_raises :
  (Component_setup_component consts_3_60 darknet
     (Some registers_twice_then_fails) 1 initial).1 = Raise KeyError
  ∧ length (pending_of
              (Component_setup_component consts_3_60 darknet
                 (Some registers_twice_then_fails) 1 initial).2 "darknet")
    = 2%nat
  ∧ (setup_component consts_3_60 initial darknet
       (Some registers_twice_then_fails) 1).1 = Raise KeyError
  ∧ is_Some (LOADING (setup_component consts_3_60 initial darknet
                        (Some registers_twice_then_fails) 1).2 !! "darknet")
  ∧ FAILED (setup_component consts_3_60 initial darknet
              (Some registers_twice_then_fails) 1).2 !! "darknet" = None.
Proof.
  repeat split; try reflexivity. vm_compute. eauto.
Qed.

(** *** The resolver, entry by entry *)

Lemma for_each_app {S A : Type} (body : S → A → result unit * S)
    (l1 l2 : list A) (s : S) :
  for_each body (l1 ++ l2) s
  = match for_each body l1 s with
    | (Ok _, s1) => for_each body l2 s1
    | (Raise e, s1) => (Raise e, s1)
    end.
Proof.
  revert s. induction l1 as [ | x l1 IH ]; intros s; simpl; [ reflexivity | ].
  destruct (body s x) as [ [ [] | e ] s1 ]; [ apply IH | reflexivity ].
Qed.

Lemma py_remove_None {A : Type} `{EqDecision A} (x : A) (l : list A) :
  py_remove x l = None ↔ x ∉ l.
Proof.
  induction l as [ | y l IH ]; simpl.
  - split; [ intros _; apply not_elem_of_nil | reflexivity ].
  - rewrite not_elem_of_cons. destruct (decide (x = y)) as [ -> | Hne ].
    + split; [ discriminate | intros [H _]; congruence ].
    + destruct (py_remove x l) as [ l' | ].
      * split; [ discriminate | ]. intros [_ H]. now apply IH in H.
      * split; [ | reflexivity ]. intros _. split; [ exact Hne | now apply IH ].
Qed.



(** An entry whose requirements are all registered is left alone. *)
Lemma check_entry_resolved (s : State) (d : DomainToSetup) :
  (∀ r, r ∈ require_domains d → registered (DOMAIN_IDENTIFIERS s) r = true) →
  check_entry s d = (Ok tt, s).
Proof.
  unfold check_entry. induction (require_domains d) as [ | r rs IH ];
    intros Hall; simpl; [ reflexivity | ].
  unfold check_required at 1. rewrite Hall by apply list_elem_of_here.
  apply IH. intros r' Hr'. now apply Hall, list_elem_of_further.
Qed.

(** The same loop, over requirements that are all registered. *)
Lemma check_required_resolved (s : State) (d : DomainToSetup)
    (rs : list (string * option string)) :
  (∀ r, r ∈ rs → registered (DOMAIN_IDENTIFIERS s) r = true) →
  for_each (check_required d) rs s = (Ok tt, s).
Proof.
  induction rs as [ | r rs IH ]; intros Hall; simpl; [ reflexivity | ].
  unfold check_required at 1. rewrite Hall by apply list_elem_of_here.
  apply IH. intros r' Hr'. now apply Hall, list_elem_of_further.
Qed.

(** An entry with exactly one unresolved requirement is reported, and
    pruned from its component's list and from the table. *)
Lemma check_entry_prunes (s : State) (d : DomainToSetup)
    (pre post : list (string * option string)) (r : string * option string)
    (l : list DomainToSetup)
    (table : list (string * list (option string * DomainToSetup))) :
  require_domains d = pre ++ r :: post →
  (∀ r', r' ∈ pre ++ post → registered (DOMAIN_IDENTIFIERS s) r' = true) →
  registered (DOMAIN_IDENTIFIERS s) r = false →
  py_remove d (pending_of s (component d)) = Some l →
  table_del (DOMAINS_TO_SETUP s) (key_of d) = Some table →
  check_entry s d
  = (Ok tt,
     set_DOMAINS_TO_SETUP table
       (set_domains_to_setup (<[component d := l]> (domains_to_setup s))
          (emit (LogMissingDependency d r) s))).
Proof.
  intros Hreq Hall Hr Hrem Hdel. unfold check_entry. rewrite Hreq.
  rewrite for_each_app, check_required_resolved
    by (intros r' Hr'; apply Hall, elem_of_app; now left).
  simpl. unfold check_required at 1. rewrite Hr. unfold prune. simpl.
  change (pending_of (emit (LogMissingDependency d r) s) (component d))
    with (pending_of s (component d)).
  rewrite Hrem. simpl. rewrite Hdel.
  apply check_required_resolved.
  intros r' Hr'. simpl. apply Hall, elem_of_app. now right.
Qed.

(** An entry with two unresolved requirements, queued once: the loop
    prunes it at the first and raises at the second. *)
Lemma check_entry_raises (s : State) (d : DomainToSetup)
    (pre mid post : list (string * option string))
    (r1 r2 : string * option string) (l : list DomainToSetup)
    (table : list (string * list (option string * DomainToSetup))) :
  require_domains d = pre ++ r1 :: mid ++ r2 :: post →
  (∀ r', r' ∈ pre ++ mid → registered (DOMAIN_IDENTIFIERS s) r' = true) →
  registered (DOMAIN_IDENTIFIERS s) r1 = false →
  registered (DOMAIN_IDENTIFIERS s) r2 = false →
  py_remove d (pending_of s (component d)) = Some l →
  d ∉ l →
  table_del (DOMAINS_TO_SETUP s) (key_of d) = Some table →
  (check_entry s d).1 = Raise ValueError.
Proof.
  intros Hreq Hall Hr1 Hr2 Hrem Hgone Hdel. unfold check_entry. rewrite Hreq.
  rewrite for_each_app, check_required_resolved
    by (intros r' Hr'; apply Hall, elem_of_app; now left).
  simpl. unfold check_required at 1. rewrite Hr1. unfold prune at 1. simpl.
  change (pending_of (emit (LogMissingDependency d r1) s) (component d))
    with (pending_of s (component d)).
  rewrite Hrem. simpl. rewrite Hdel.
  rewrite for_each_app, check_required_resolved
    by (intros r' Hr'; simpl; apply Hall, elem_of_app; now right).
  simpl. unfold check_required at 1. simpl. rewrite Hr2. unfold prune. simpl.
  unfold pending_of. simpl. rewrite lookup_insert_eq. simpl.
  now rewrite (proj2 (py_remove_None d l) Hgone).
Qed.



(** C3, where the code departs from it: the loop over the requirements
    of an entry goes on after the entry was pruned, so a pending entry
    with two unresolved requirements makes [list.remove] raise
    [ValueError] at the second one; the resolver stops there, and an
    entry visited later keeps its unresolved requirement, stays in the
    table and in the list of its component, and is not reported.  With a
    single unresolved requirement the same entry is pruned from both and
    reported. *)
Theorem second_unresolved_requirement_raises :
  (domain_dependencies two_unresolved).1 = Raise ValueError
  ∧ table_get (DOMAINS_TO_SETUP (domain_dependencies two_unresolved).2)
      ("nvr", camera_2) = Some nvr_camera_2_entry
  ∧ pending_of (domain_dependencies two_unresolved).2 "nvr"
    = [nvr_camera_2_entry]
  ∧ registered (DOMAIN_IDENTIFIERS (domain_dependencies two_unresolved).2)
      ("camera", camera_2) = false
  ∧ (LogMissingDependency nvr_camera_2_entry ("camera", camera_2)
     ∉ trace (domain_dependencies two_unresolved).2)
  ∧ (domain_dependencies one_unresolved).1 = Ok tt
  ∧ table_get (DOMAINS_TO_SETUP (domain_dependencies one_unresolved).2)
      ("nvr", camera_2) = None
  ∧ pending_of (domain_dependencies one_unresolved).2 "nvr" = []
  ∧ trace (domain_dependencies one_unresolved).2
    = [LogMissingDependency nvr_camera_2_entry ("camera", camera_2)].
Proof.
  repeat split; try reflexivity.
  vm_compute. intros H. repeat (apply elem_of_cons in H as [H | H];
                                [ discriminate | ]).
  now apply elem_of_nil in H.
Qed.

(** The domain side, as a function of how the futures ended. *)
Lemma result_of_set_phase (s : State) (f g : nat) (p : phase) :
  result_of (set_phase f p s) g
  = if decide (f = g) then
      match pool s !! f with
      | Some _ => match p with Finished o => Some o | _ => None end
      | None => None
      end
    else result_of s g.
Proof.
  unfold result_of, set_phase. simpl. rewrite list_lookup_alter.
  destruct (decide (f = g)) as [-> | Hne]; [ | reflexivity ].
  destruct (pool s !! g); reflexivity.
Qed.

Lemma all_done_ext (s1 s2 : State) (futures : list nat) :
  (∀ g, result_of s1 g = result_of s2 g) →
  all_done s1 futures = all_done s2 futures
  ∧ first_raised s1 futures = first_raised s2 futures
  ∧ failed s1 futures = failed s2 futures.
Proof.
  intros Hext. unfold all_done, failed.
  induction futures as [ | f fs (IH1 & IH2 & IH3) ]; simpl; [ easy | ].
  rewrite Hext, IH1, IH2, IH3. easy.
Qed.

(** A task that waits with a falsy configuration moves as if it waited
    with [None]. *)
Lemma waiting_with_falsy_config (c : Consts) (s : State) (future : nat)
    (t : Task) (v : val) (futures : list nat) (n : Z)
    (dm : option DomainModule) (ending : setup_result) :
  pool s !! future = Some t →
  task_phase t = AwaitingDependencies v futures n →
  truthy v = false →
  all_done s futures = true →
  Component_setup_domain c future dm ending s
  = Component_setup_domain c future dm ending
      (set_phase future (AwaitingDependencies PyNone futures n) s)
  ∧ (first_raised s futures = None →
     Component_setup_domain c future dm ending s
     = moved s future (Completed future (Returned (PyBool false)))
         (Finished (Returned (PyBool false))) (DOMAIN_IDENTIFIERS s)).
Proof.
  intros Ht Hp Hv Hdone.
  set (s0 := set_phase future (AwaitingDependencies PyNone futures n) s).
  assert (Hext : ∀ g, result_of s0 g = result_of s g).
  { intros g. unfold s0. rewrite result_of_set_phase.
    destruct (decide (future = g)) as [<- | ]; [ | reflexivity ].
    rewrite Ht. unfold result_of. now rewrite Ht, Hp. }
  destruct (all_done_ext s0 s futures Hext) as (Hd & Hr & Hf).
  unfold Component_setup_domain at 2.
  assert (Ht0 : pool s0 !! future
                = Some (Build_Task (entry t)
                          (AwaitingDependencies PyNone futures n))).
  { unfold s0, set_phase. simpl. now rewrite list_lookup_alter_eq, Ht. }
  rewrite Ht0. simpl. rewrite Hd, Hr, Hf, Hdone.
  unfold Component_setup_domain. rewrite Ht, Hp, Hdone, Hv.
  assert (Hfin : ∀ o, finish future o s0 = finish future o s).
  { intros o. unfold finish, set_phase, s0. simpl.
    unfold emit, set_pool. simpl. now rewrite list_alter_alter_eq. }
  split.
  - destruct (first_raised s futures); [ now rewrite Hfin | ].
    destruct (failed s futures); now rewrite Hfin.
  - intros ->. destruct (failed s futures); reflexivity.
Qed.

(** The first move of a worker stores what the validator returned as the
    configuration the task waits with. *)
Lemma start_stores_validated_config (c : Consts) (s : State) (future : nat)
    (t : Task) (tries : Z) (dm : DomainModule) (ending : setup_result)
    (req opt : list (ref * nat)) :
  pool s !! future = Some t →
  task_phase t = AtStart tries →
  dependencies_futures s (entry t) = Some req →
  optional_dependencies_futures s (entry t) = Some opt →
  pool (Component_setup_domain c future (Some dm) ending s) !! future
  = Some (Build_Task (entry t)
            (AwaitingDependencies
               (validate_domain_config (config (entry t)) dm)
               (map snd (req ++ opt)) tries)).
Proof.
  intros Ht Hp Hreq Hopt. unfold Component_setup_domain.
  rewrite Ht, Hp, Hreq, Hopt. unfold set_phase. simpl.
  now rewrite list_lookup_alter_eq, Ht.
Qed.

(** A domain without dependencies whose validator returns a falsy value:
    two moves of its worker, and its future holds [False]; the domain's
    [setup] was not called. *)
Lemma falsy_domain_config_ends_in_False (c : Consts) (s : State)
    (future : nat) (t : Task) (tries : Z) (dm : DomainModule)
    (dm' : option DomainModule) (ending ending' : setup_result) :
  pool s !! future = Some t →
  task_phase t = AtStart tries →
  require_domains (entry t) = [] →
  optional_domains (entry t) = [] →
  truthy (validate_domain_config (config (entry t)) dm) = false →
  let s' :=
    Component_setup_domain c future dm' ending'
      (Component_setup_domain c future (Some dm) ending s) in
  result_of s' future = Some (Returned (PyBool false))
  ∧ trace s'
    = trace s ++ [WaitsFor future [] [];
                  Completed future (Returned (PyBool false))].
Proof.
  intros Ht Hp Hreq Hopt Hv. cbv zeta.
  assert (Hfirst : Component_setup_domain c future (Some dm) ending s
                   = set_phase future
                       (AwaitingDependencies
                          (validate_domain_config (config (entry t)) dm)
                          [] tries)
                       (emit (WaitsFor future [] []) s)).
  { unfold Component_setup_domain. rewrite Ht, Hp.
    unfold dependencies_futures, optional_dependencies_futures.
    now rewrite Hreq, Hopt. }
  rewrite Hfirst. unfold Component_setup_domain, set_phase. simpl.
  rewrite list_lookup_alter_eq, Ht. simpl. rewrite Hv.
  unfold result_of, finish, set_phase. simpl.
  rewrite !list_lookup_alter_eq, Ht. simpl.
  now rewrite <- app_assoc.
Qed.

(** C6, where the code departs from it: a call of the module-level
    [setup_component] that ends by raising does not leave the component
    in exactly one of [LOADED] and [FAILED].  The [try] there catches
    [ModuleNotFoundError] only, so the [KeyError] of the clearing loop
    goes through the function before it takes the component out of
    [LOADING]: from a state where the component is in none of the maps,
    whenever its first call or one of its retries raises, the exception
    is that [KeyError] and the component is still in [LOADING] and in
    neither [LOADED] nor [FAILED].  The witness is the component that
    queues one domain and identifier twice and returns [False]. *)
Theorem raising_setup_stays_in_LOADING (c : Consts) (component : Component)
    (modules : list (option ComponentModule)) (s : State) (e : exn)
    (s' : State) :
  LOADED s !! name component = None →
  FAILED s !! name component = None →
  take_timer (name component) (timers s) = None →
  attempts c component modules 1 s = (Raise e, s') →
  e = KeyError
  ∧ LOADING s' !! name component = Some component
  ∧ LOADED s' !! name component = None
  ∧ FAILED s' !! name component = None
  ∧ ¬ settled s' (name component).
Proof.
  intros Hloaded Hfailed Htimers Hrun.
  enough (H : e = KeyError
              ∧ LOADING s' !! name component = Some component
              ∧ LOADED s' !! name component = None
              ∧ FAILED s' !! name component = None).
  { destruct H as (He & Hg & Hl & Hf). repeat (split; [ assumption | ]).
    intros [Hnone _]. congruence. }
  assert (Hgen : ∀ tries s,
            1 ≤ tries →
            LOADED s !! name component = None →
            (tries ≤ 1 → FAILED s !! name component = None) →
            (1 < tries → is_Some (FAILED s !! name component)) →
            take_timer (name component) (timers s) = None →
            attempts c component modules tries s = (Raise e, s') →
            e = KeyError
            ∧ LOADING s' !! name component = Some component
            ∧ LOADED s' !! name component = None
            ∧ FAILED s' !! name component = None).
  { clear. induction modules as [ | m later IH ];
      intros tries s Htries Hloaded Hfresh Hretry Htimers; [ discriminate | ].
    simpl.
    destruct (setup_component c s component m tries) as [[ [] | e0 ] s1]
      eqn:Hcall.
    - apply setup_component_once in Hcall as [Hset Ht]; try assumption.
      destruct Ht as [ -> | [Hl1 ->] ]; [ discriminate | ].
      apply IH; simpl; try assumption; try lia.
      intros _. destruct Hset as [_ [ [[x Hx] _] | [_ Hf] ]];
        [ congruence | exact Hf ].
    - intros [= <- <-]. eapply setup_component_raising; eassumption. }
  apply (Hgen 1 s); auto; lia.
Qed.

Lemma raising_setup_stays_in_LOADING_witness :
  (attempts consts_3_60 darknet [Some registers_twice_then_fails] 1
     initial).1 = Raise KeyError
  ∧ LOADING (attempts consts_3_60 darknet [Some registers_twice_then_fails] 1
               initial).2 !! "darknet" = Some darknet
  ∧ ¬ settled (attempts consts_3_60 darknet [Some registers_twice_then_fails]
                 1 initial).2 "darknet".
Proof.
  split; [ vm_compute; reflexivity | ].
  pose proof (raising_setup_stays_in_LOADING consts_3_60 darknet
                [Some registers_twice_then_fails] initial KeyError
                (attempts consts_3_60 darknet
                   [Some registers_twice_then_fails] 1 initial).2
                eq_refl eq_refl eq_refl) as H.
  destruct H as (_ & Hg & _ & _ & Hns); [ vm_compute; reflexivity | ].
  split; [ exact Hg | exact Hns ].
Defined.


End SetupProofs.

(** ** Submitting: one task for each domain and identifier *)

Module SchedulerProofs.

Import Components Scenarios.

Lemma task_of_task_set (tasks : gmap string (gmap (option string) nat))
    (k k' : string * option string) (f : nat) :
  task_of (task_set tasks k f) k'
  = if decide (k = k') then Some f else task_of tasks k'.
Proof.
  unfold task_of, task_set. destruct k as [d i], k' as [d' i']. simpl.
  destruct (decide (d = d')) as [-> | Hd].
  - rewrite lookup_insert_eq. destruct (decide (i = i')) as [-> | Hi].
    + rewrite lookup_insert_eq. now rewrite decide_True.
    + rewrite lookup_insert_ne by exact Hi.
      rewrite decide_False by congruence.
      destruct (tasks !! d'); simpl; [ reflexivity | apply lookup_empty ].
  - rewrite lookup_insert_ne by exact Hd.
    now rewrite decide_False by congruence.
Qed.

Lemma extends_refl (new : string * option string → Prop) (s : State) :
  extends new s s.
Proof. constructor; auto. Qed.

Lemma extends_trans (new1 new2 new : string * option string → Prop)
    (s0 s1 s2 : State) :
  extends new1 s0 s1 → extends new2 s1 s2 →
  (∀ k, new1 k → new k) → (∀ k, new2 k → new k) →
  extends new s0 s2.
Proof.
  intros [Ht1 Hi1 Hk1 Hn1] [Ht2 Hi2 Hk2 Hn2] H1 H2. constructor.
  - congruence.
  - congruence.
  - intros k f Hk. apply Hk2, Hk1, Hk.
  - intros k Hk. destruct (Hn2 k Hk) as [ Hk' | Hnew ]; [ | right; auto ].
    destruct (Hn1 k Hk') as [ Hk0 | Hnew ]; [ now left | right; auto ].
Qed.

(** The submitted keys are closed under the dependencies that are
    followed. *)
Lemma scheduled_closed_tc (s : State) (k k' : string * option string) :
  scheduled s →
  is_Some (task_of (DOMAIN_SETUP_TASKS s) k) →
  tc (depends_on (DOMAINS_TO_SETUP s) (DOMAIN_IDENTIFIERS s)) k k' →
  is_Some (task_of (DOMAIN_SETUP_TASKS s) k').
Proof.
  intros Hs Hk Htc. induction Htc as [ x y Hxy | x y z Hxy _ IH ].
  - eapply scheduled_closed; eassumption.
  - apply IH. eapply scheduled_closed; eassumption.
Qed.

(** Submitting an entry that has no task yet, after the dependencies it
    follows. *)
Lemma _setup_domain_scheduled (s : State) (d : DomainToSetup) :
  scheduled s →
  table_get (DOMAINS_TO_SETUP s) (key_of d) = Some d →
  task_of (DOMAIN_SETUP_TASKS s) (key_of d) = None →
  (∀ r, r ∈ followed (DOMAIN_IDENTIFIERS s) d →
        is_Some (task_of (DOMAIN_SETUP_TASKS s) r)) →
  scheduled (_setup_domain s d)
  ∧ extends (λ k, k = key_of d) s (_setup_domain s d)
  ∧ is_Some (task_of (DOMAIN_SETUP_TASKS (_setup_domain s d)) (key_of d)).
Proof.
  intros [Hnd Htasks Hclosed Hacyc] Hd Hnone Hdeps.
  assert (Hlookup : ∀ k,
            task_of (DOMAIN_SETUP_TASKS (_setup_domain s d)) k
            = if decide (key_of d = k) then Some (length (pool s))
              else task_of (DOMAIN_SETUP_TASKS s) k).
  { intros k. unfold _setup_domain. simpl. apply task_of_task_set. }
  assert (Hkeys : submitted_keys (_setup_domain s d)
                  = submitted_keys s ++ [key_of d]).
  { unfold submitted_keys, _setup_domain. simpl. now rewrite map_app. }
  assert (Hfresh : key_of d ∉ submitted_keys s).
  { intros Hin. apply Htasks in Hin as [f Hf]. congruence. }
  assert (Hmono : ∀ k, is_Some (task_of (DOMAIN_SETUP_TASKS s) k) →
                       is_Some (task_of (DOMAIN_SETUP_TASKS (_setup_domain s d)) k)).
  { intros k Hk. rewrite Hlookup. destruct (decide (key_of d = k)); eauto. }
  split; [ | split ].
  - constructor.
    + rewrite Hkeys. apply NoDup_app. split; [ exact Hnd | ].
      split; [ | apply NoDup_singleton ].
      intros k Hk Hk'. apply list_elem_of_singleton in Hk'. now subst k.
    + intros k. rewrite Hlookup, Hkeys, elem_of_app, list_elem_of_singleton.
      destruct (decide (key_of d = k)) as [ <- | Hne ].
      * split; eauto.
      * rewrite Htasks. split; [ now left | intros [ H | H ]; congruence ].
    + intros k k' Hk Hdep. change (DOMAINS_TO_SETUP (_setup_domain s d))
        with (DOMAINS_TO_SETUP s) in Hdep.
      change (DOMAIN_IDENTIFIERS (_setup_domain s d))
        with (DOMAIN_IDENTIFIERS s) in Hdep.
      apply Hmono. rewrite Hlookup in Hk.
      destruct (decide (key_of d = k)) as [ <- | Hne ].
      * destruct Hdep as (d' & Hd' & Hk'). rewrite Hd in Hd'.
        injection Hd' as <-. now apply Hdeps.
      * eapply Hclosed; eassumption.
    + intros k Hk Hcycle. change (DOMAINS_TO_SETUP (_setup_domain s d))
        with (DOMAINS_TO_SETUP s) in Hcycle.
      change (DOMAIN_IDENTIFIERS (_setup_domain s d))
        with (DOMAIN_IDENTIFIERS s) in Hcycle.
      rewrite Hlookup in Hk.
      destruct (decide (key_of d = k)) as [ <- | Hne ];
        [ | eapply Hacyc; eassumption ].
      assert (Hfirst : ∀ y, depends_on (DOMAINS_TO_SETUP s)
                              (DOMAIN_IDENTIFIERS s) (key_of d) y →
                            is_Some (task_of (DOMAIN_SETUP_TASKS s) y)).
      { intros y (d' & Hd' & Hy). rewrite Hd in Hd'. injection Hd' as <-.
        now apply Hdeps. }
      assert (Hback : is_Some (task_of (DOMAIN_SETUP_TASKS s) (key_of d))).
      { inversion Hcycle as [ x y Hxy | x y z Hxy Hyz ]; subst.
        - now apply Hfirst.
        - eapply scheduled_closed_tc;
            [ constructor; eassumption | apply Hfirst, Hxy | exact Hyz ]. }
      destruct Hback as [f Hf]. congruence.
  - constructor; try reflexivity.
    + intros k f Hk. rewrite Hlookup.
      destruct (decide (key_of d = k)) as [ <- | ]; [ congruence | exact Hk ].
    + intros k. rewrite Hlookup.
      destruct (decide (key_of d = k)) as [ <- | ]; [ now right | now left ].
  - rewrite Hlookup, decide_True by reflexivity. eauto.
Qed.

Lemma dependencies_loop (depth : nat) (root : string * option string)
    (s0 : State) (gate : State → string * option string → bool)
    (rs : list (string * option string)) :
  setup_domain_spec depth →
  table_consistent s0 →
  (∀ s1 s2 r, DOMAIN_IDENTIFIERS s1 = DOMAIN_IDENTIFIERS s2 →
              gate s1 r = gate s2 r) →
  (∀ r, r ∈ rs → gate s0 r = true →
        depends_on (DOMAINS_TO_SETUP s0) (DOMAIN_IDENTIFIERS s0) root r) →
  ∀ (s : State) (res : result unit) (s' : State),
    scheduled s →
    extends (tc (depends_on (DOMAINS_TO_SETUP s0) (DOMAIN_IDENTIFIERS s0)) root)
      s0 s →
    for_each
      (λ s r,
         if gate s r then
           match table_get (DOMAINS_TO_SETUP s) r with
           | Some d' => setup_domain depth s d'
           | None => (Raise KeyError, s)
           end
         else (Ok tt, s)) rs s = (res, s') →
    scheduled s'
    ∧ extends (tc (depends_on (DOMAINS_TO_SETUP s0) (DOMAIN_IDENTIFIERS s0)) root)
        s0 s'
    ∧ (∀ k f, task_of (DOMAIN_SETUP_TASKS s) k = Some f →
              task_of (DOMAIN_SETUP_TASKS s') k = Some f)
    ∧ (res = Ok tt →
       ∀ r, r ∈ rs → gate s0 r = true →
            is_Some (task_of (DOMAIN_SETUP_TASKS s') r)).
Proof.
  intros Hspec Hcons Hgate Hedge.
  induction rs as [ | r rs IH ]; intros s res s' Hs Hext; simpl.
  - intros [= <- <-]. split; [ exact Hs | ]. split; [ exact Hext | ].
    split; [ auto | ]. intros _ r Hr. now apply elem_of_nil in Hr.
  - assert (IH' := IH (λ r' Hr', Hedge r' (list_elem_of_further _ _ _ Hr'))).
    clear IH.
    assert (Hg : gate s r = gate s0 r) by (apply Hgate, Hext).
    rewrite Hg. destruct (gate s0 r) eqn:Hg0.
    + destruct (table_get (DOMAINS_TO_SETUP s) r) as [ d' | ] eqn:Hd'.
      * assert (Hkey : key_of d' = r).
        { apply Hcons. rewrite <- (extends_table _ _ _ Hext). exact Hd'. }
        destruct (setup_domain depth s d') as [ res1 s1 ] eqn:Hcall.
        apply Hspec in Hcall as (Hs1 & Hext1 & Hdone1);
          [ | intros k d0 H0; apply Hcons;
              now rewrite <- (extends_table _ _ _ Hext)
            | now rewrite Hkey | exact Hs ].
        rewrite Hkey in *.
        rewrite (extends_table _ _ _ Hext), (extends_ids _ _ _ Hext) in Hext1.
        assert (Hext01 : extends
                  (tc (depends_on (DOMAINS_TO_SETUP s0) (DOMAIN_IDENTIFIERS s0))
                     root) s0 s1).
        { eapply extends_trans; [ exact Hext | exact Hext1 | auto | ].
          intros k Hk. eapply tc_rtc_r; [ | exact Hk ].
          apply tc_once, Hedge; [ apply list_elem_of_here | exact Hg0 ]. }
        destruct res1 as [ [] | e ].
        -- intros Hloop. apply IH' in Hloop as (Hs' & Hext' & Hkeep & Hall);
             try assumption.
           split; [ exact Hs' | ]. split; [ exact Hext' | ]. split.
           ++ intros k f Hk. apply Hkeep, (extends_tasks _ _ _ Hext1), Hk.
           ++ intros -> r' Hr' Hgr'. apply elem_of_cons in Hr' as [ -> | Hr' ].
              ** destruct (Hdone1 eq_refl) as [f Hf]. exists f. now apply Hkeep.
              ** now apply Hall.
        -- intros [= <- <-].
           split; [ exact Hs1 | ]. split; [ exact Hext01 | ]. split.
           ++ apply (extends_tasks _ _ _ Hext1).
           ++ discriminate.
      * intros [= <- <-].
        split; [ exact Hs | ]. split; [ exact Hext | ].
        split; [ auto | discriminate ].
    + intros Hloop. apply IH' in Hloop as (Hs' & Hext' & Hkeep & Hall);
        try assumption.
      split; [ exact Hs' | ]. split; [ exact Hext' | ].
      split; [ exact Hkeep | ].
      intros -> r' Hr' Hgr'. apply elem_of_cons in Hr' as [ -> | Hr' ];
        [ congruence | now apply Hall ].
Qed.

Lemma setup_domain_meets_spec (depth : nat) : setup_domain_spec depth.
Proof.
  induction depth as [ | depth IH ]; intros s d res s' Hcons Hd Hs; simpl.
  - intros [= <- <-].
    split; [ exact Hs | ]. split; [ apply extends_refl | discriminate ].
  - destruct (task_of (DOMAIN_SETUP_TASKS s) (key_of d)) as [ f | ] eqn:Hk.
    + intros [= <- <-].
      split; [ exact Hs | ]. split; [ apply extends_refl | eauto ].
    + set (dep := depends_on (DOMAINS_TO_SETUP s) (DOMAIN_IDENTIFIERS s)).
      destruct (for_each _ (require_domains d) s) as [ res1 s1 ] eqn:Hreq.
      apply (dependencies_loop depth (key_of d) s (λ _ _, true)) in Hreq
        as (Hs1 & Hext1 & Hkeep1 & Hall1);
        [ | exact IH | exact Hcons | reflexivity
          | | exact Hs | apply extends_refl ].
      2:{ intros r Hr _. exists d. split; [ exact Hd | ].
          unfold followed. apply elem_of_app. now left. }
      assert (Hweak : ∀ k, tc dep (key_of d) k → rtc dep (key_of d) k)
        by (intros k; apply tc_rtc).
      destruct res1 as [ [] | e ].
      2:{ intros [= <- <-]. split; [ exact Hs1 | ].
          split; [ | discriminate ].
          eapply extends_trans;
            [ apply (extends_refl (λ _, False)) | exact Hext1 | intros k []
            | exact Hweak ]. }
      destruct (for_each _ (optional_domains d) s1) as [ res2 s2 ] eqn:Hopt.
      apply (dependencies_loop depth (key_of d) s
               (λ s r, registered (DOMAIN_IDENTIFIERS s) r)) in Hopt
        as (Hs2 & Hext2 & Hkeep2 & Hall2);
        [ | exact IH | exact Hcons | intros s3 s4 r ->; reflexivity
          | | exact Hs1 | exact Hext1 ].
      2:{ intros r Hr Hreg. exists d. split; [ exact Hd | ].
          unfold followed. apply elem_of_app. right.
          apply list_elem_of_In, filter_In. split;
            [ now apply list_elem_of_In | exact Hreg ]. }
      destruct res2 as [ [] | e ].
      2:{ intros [= <- <-]. split; [ exact Hs2 | ].
          split; [ | discriminate ].
          eapply extends_trans;
            [ apply (extends_refl (λ _, False)) | exact Hext2 | intros k []
            | exact Hweak ]. }
      intros [= <- <-].
      assert (Hnone : task_of (DOMAIN_SETUP_TASKS s2) (key_of d) = None).
      { destruct (task_of (DOMAIN_SETUP_TASKS s2) (key_of d)) as [ f | ] eqn:Hf;
          [ exfalso | reflexivity ].
        destruct (extends_new _ _ _ Hext2 (key_of d)) as [ [f0 Hf0] | Hcycle ];
          [ eauto | congruence | ].
        apply (scheduled_acyclic _ Hs2 (key_of d)); [ eauto | ].
        now rewrite (extends_table _ _ _ Hext2), (extends_ids _ _ _ Hext2). }
      destruct (_setup_domain_scheduled s2 d) as (Hs3 & Hext3 & Hdone3);
        try assumption.
      { now rewrite (extends_table _ _ _ Hext2). }
      { intros r Hr. rewrite (extends_ids _ _ _ Hext2) in Hr.
        unfold followed in Hr. apply elem_of_app in Hr as [ Hr | Hr ].
        - destruct (Hall1 eq_refl r Hr eq_refl) as [f Hf]. exists f.
          now apply Hkeep2.
        - apply list_elem_of_In, filter_In in Hr as [Hr Hreg].
          apply (Hall2 eq_refl r); [ now apply list_elem_of_In | exact Hreg ]. }
      split; [ exact Hs3 | ]. split; [ | intros _; exact Hdone3 ].
      eapply extends_trans; [ exact Hext2 | exact Hext3 | exact Hweak | ].
      intros k ->. apply rtc_refl.
Qed.

Lemma od_get_elem_of {K V : Type} `{EqDecision K} (d : list (K * V))
    (k : K) (v : V) :
  od_get d k = Some v → (k, v) ∈ d.
Proof.
  induction d as [ | [k' v'] d IH ]; simpl; [ discriminate | ].
  destruct (decide (k = k')) as [ -> | ].
  - intros [= ->]. apply list_elem_of_here.
  - intros H. apply list_elem_of_further, IH, H.
Qed.

Lemma stored_under_own_key_consistent (s : State) :
  stored_under_own_key (DOMAINS_TO_SETUP s) = true → table_consistent s.
Proof.
  unfold stored_under_own_key, table_consistent, table_get.
  rewrite forallb_forall. intros Hall [dom i] d. simpl.
  destruct (od_get (DOMAINS_TO_SETUP s) dom) as [ inner | ] eqn:Hrow;
    [ | discriminate ].
  intros Hd. apply od_get_elem_of, list_elem_of_In in Hrow.
  specialize (Hall _ Hrow). simpl in Hall. rewrite forallb_forall in Hall.
  apply od_get_elem_of, list_elem_of_In in Hd. specialize (Hall _ Hd).
  simpl in Hall. now apply bool_decide_eq_true in Hall.
Qed.

Lemma nothing_submitted_scheduled (s : State) :
  pool s = [] → DOMAIN_SETUP_TASKS s = ∅ → scheduled s.
Proof.
  intros Hpool Htasks.
  assert (Hnone : ∀ k, ¬ is_Some (task_of (DOMAIN_SETUP_TASKS s) k)).
  { intros k [f Hf]. unfold task_of in Hf. rewrite Htasks in Hf.
    now rewrite lookup_empty in Hf. }
  constructor; unfold submitted_keys; rewrite ?Hpool; simpl.
  - constructor.
  - intros k. split; [ intros H; now apply Hnone in H | ].
    intros H. now apply elem_of_nil in H.
  - intros k k' H. now apply Hnone in H.
  - intros k H. now apply Hnone in H.
Qed.

(** A sequence of calls on pending entries keeps the invariant. *)
Lemma setup_domain_calls (depth : nat) (ds : list DomainToSetup) :
  ∀ (s : State) (res : result unit) (s' : State),
    table_consistent s →
    (∀ d, d ∈ ds → table_get (DOMAINS_TO_SETUP s) (key_of d) = Some d) →
    scheduled s →
    for_each (setup_domain depth) ds s = (res, s') →
    scheduled s'
    ∧ extends (λ _, True) s s'
    ∧ (res = Ok tt →
       ∀ d, d ∈ ds → is_Some (task_of (DOMAIN_SETUP_TASKS s') (key_of d))).
Proof.
  induction ds as [ | d ds IH ]; intros s res s' Hcons Hds Hs; simpl.
  - intros [= <- <-]. split; [ exact Hs | ]. split; [ apply extends_refl | ].
    intros _ d Hd. now apply elem_of_nil in Hd.
  - destruct (setup_domain depth s d) as [ res1 s1 ] eqn:Hcall.
    apply setup_domain_meets_spec in Hcall as (Hs1 & Hext1 & Hdone1);
      [ | exact Hcons | apply Hds, list_elem_of_here | exact Hs ].
    assert (Hext1' : extends (λ _, True) s s1).
    { eapply extends_trans;
        [ apply (extends_refl (λ _, False)) | exact Hext1 | | ];
        intros k Hk; exact I. }
    destruct res1 as [ [] | e ].
    + intros Hloop. apply IH in Hloop as (Hs' & Hext' & Hall);
        [ | | | exact Hs1 ].
      * split; [ exact Hs' | ]. split.
        -- eapply extends_trans; [ exact Hext1' | exact Hext' | | ]; auto.
        -- intros -> d' Hd'. apply elem_of_cons in Hd' as [ -> | Hd' ];
             [ | now apply Hall ].
           destruct (Hdone1 eq_refl) as [f Hf]. exists f.
           apply (extends_tasks _ _ _ Hext'), Hf.
      * intros k d1 H1. apply Hcons.
        now rewrite <- (extends_table _ _ _ Hext1).
      * intros d1 Hd1. rewrite (extends_table _ _ _ Hext1).
        now apply Hds, list_elem_of_further.
    + intros [= <- <-]. split; [ exact Hs1 | ].
      split; [ exact Hext1' | discriminate ].
Qed.

(** C2: the submitting loop hands at most one task to the executor for
    each domain and identifier, and stores a future in
    [DOMAIN_SETUP_TASKS] for exactly the keys it submitted, however many
    times [setup_domain] meets a key (as a pending entry, or as a
    dependency of several entries) and however the loop ends; a call on a
    key that has a task changes nothing. *)
Theorem one_task_per_domain_and_identifier (depth : nat)
    (ds : list DomainToSetup) (s : State) (res : result unit) (s' : State) :
  table_consistent s →
  (∀ d, d ∈ ds → table_get (DOMAINS_TO_SETUP s) (key_of d) = Some d) →
  pool s = [] →
  DOMAIN_SETUP_TASKS s = ∅ →
  for_each (setup_domain depth) ds s = (res, s') →
  NoDup (submitted_keys s')
  ∧ (∀ k, is_Some (task_of (DOMAIN_SETUP_TASKS s') k) ↔ k ∈ submitted_keys s')
  ∧ (res = Ok tt → ∀ d, d ∈ ds → key_of d ∈ submitted_keys s')
  ∧ (∀ d depth', key_of d ∈ submitted_keys s' →
                 setup_domain (S depth') s' d = (Ok tt, s')).
Proof.
  intros Hcons Hds Hpool Htasks Hloop.
  apply setup_domain_calls in Hloop as (Hs' & _ & Hall);
    [ | exact Hcons | exact Hds | now apply nothing_submitted_scheduled ].
  split; [ apply (scheduled_once _ Hs') | ].
  split; [ apply (scheduled_tasks _ Hs') | ].
  split.
  - intros Hres d Hd. apply (scheduled_tasks _ Hs'). now apply Hall.
  - intros d depth' Hd. apply (scheduled_tasks _ Hs') in Hd as [f Hf].
    simpl. now rewrite Hf.
Qed.

Lemma one_task_per_domain_and_identifier_witness :
  NoDup (submitted_keys
           (for_each (setup_domain 5)
              (table_entries (DOMAINS_TO_SETUP three_pending))
              three_pending).2).
Proof.
  apply (one_task_per_domain_and_identifier 5
           (table_entries (DOMAINS_TO_SETUP three_pending)) three_pending
           (Ok tt)
           (for_each (setup_domain 5)
              (table_entries (DOMAINS_TO_SETUP three_pending))
              three_pending).2).
  - apply stored_under_own_key_consistent. vm_compute. reflexivity.
  - intros d Hd. vm_compute in Hd.
    repeat (apply elem_of_cons in Hd as [ -> | Hd ];
            [ vm_compute; reflexivity | ]).
    now apply elem_of_nil in Hd.
  - vm_compute. reflexivity.
  - vm_compute. reflexivity.
  - vm_compute. reflexivity.
Defined.

(** The three tasks, each submitted once, dependencies first. *)
Lemma three_pending_submitted :
  submitted_keys
    (for_each (setup_domain 5)
       (table_entries (DOMAINS_TO_SETUP three_pending)) three_pending).2
  = [("camera", camera_1); ("object_detector", camera_1); ("nvr", camera_1)].
Proof. vm_compute. reflexivity. Qed.

End SchedulerProofs.

(** ** The workers wait for their dependencies *)

Module OrderProofs.

Import Components WorkerProofs SchedulerProofs Scenarios.

Lemma snoc_cases {A : Type} (l : list A) (x y : A) (i : nat) :
  (l ++ [x]) !! i = Some y → l !! i = Some y ∨ (i = length l ∧ x = y).
Proof.
  intros H. apply lookup_snoc_Some in H as [ [_ H] | [-> <-] ]; auto.
Qed.

Lemma snoc_old {A : Type} (l : list A) (x y : A) (i : nat) :
  l !! i = Some y → (l ++ [x]) !! i = Some y.
Proof. intros H. now apply lookup_app_l_Some. Qed.

Lemma snoc_new {A : Type} (l : list A) (x : A) :
  (l ++ [x]) !! length l = Some x.
Proof. apply lookup_snoc_Some. right. auto. Qed.

(** An event that is no wait of [f] leaves its waits answered. *)
Lemma answered_snoc (tr : list event) (f : nat) (e : event) :
  answered tr f → (∀ req opt, e ≠ WaitsFor f req opt) →
  answered (tr ++ [e]) f.
Proof.
  intros Hans He i req opt Hi.
  apply snoc_cases in Hi as [ Hi | [_ Hi] ]; [ | now apply He in Hi ].
  destruct (Hans i req opt Hi) as (j & n & Hij & Hj).
  exists j, n. split; [ exact Hij | now apply snoc_old ].
Qed.

Lemma waits_at_snoc (tr : list event) (f i : nat)
    (req opt : list (string * option string * nat)) (e : event) :
  waits_at tr f i req opt →
  (∀ r o, e ≠ WaitsFor f r o) → (∀ n, e ≠ CallDomainSetup f n) →
  waits_at (tr ++ [e]) f i req opt.
Proof.
  intros (Hi & Hquiet & Hother) Hw Hc. split; [ now apply snoc_old | split ].
  - intros j n Hij Hj.
    apply snoc_cases in Hj as [ Hj | [_ Hj] ];
      [ exact (Hquiet j n Hij Hj) | now apply (Hc n) ].
  - intros j r o Hj Hne.
    apply snoc_cases in Hj as [ Hj | [_ Hj] ]; [ | now apply Hw in Hj ].
    destruct (Hother j r o Hj Hne) as (j' & n & Hjj' & Hj').
    exists j', n. split; [ exact Hjj' | now apply snoc_old ].
Qed.

(** The call that ends a wait answers it. *)
Lemma answered_by_call (tr : list event) (f i : nat)
    (req opt : list (string * option string * nat)) (n : Z) :
  waits_at tr f i req opt → answered (tr ++ [CallDomainSetup f n]) f.
Proof.
  intros (Hi & _ & Hother) j r o Hj.
  apply snoc_cases in Hj as [ Hj | [_ Hj] ]; [ | discriminate ].
  destruct (decide (j = i)) as [ -> | Hne ].
  - exists (length tr), n. split; [ | apply snoc_new ].
    eapply lookup_lt_Some, Hi.
  - destruct (Hother j r o Hj Hne) as (j' & n' & Hjj' & Hj').
    exists j', n'. split; [ exact Hjj' | now apply snoc_old ].
Qed.

(** A new wait of a task whose waits were answered. *)
Lemma waits_at_new (tr : list event) (f : nat)
    (req opt : list (string * option string * nat)) :
  answered tr f →
  waits_at (tr ++ [WaitsFor f req opt]) f (length tr) req opt.
Proof.
  intros Hans. split; [ apply snoc_new | split ].
  - intros j n Hij Hj. apply lookup_lt_Some in Hj.
    rewrite length_app in Hj. simpl in Hj. lia.
  - intros j r o Hj Hne.
    apply snoc_cases in Hj as [ Hj | [Hj _] ]; [ | contradiction ].
    destruct (Hans j r o Hj) as (j' & n & Hjj' & Hj').
    exists j', n. split; [ exact Hjj' | now apply snoc_old ].
Qed.

(** What a move tells about its event. *)
Lemma worker_move_event (c : Consts) (s : State) (f : nat) (t : Task)
    (e : event) (p : phase) :
  worker_move c s f t e p →
  (∀ g req opt, e = WaitsFor g req opt → g = f)
  ∧ (∀ g n, e = CallDomainSetup g n → g = f)
  ∧ (∀ g o, e = Completed g o → g = f ∧ p = Finished o)
  ∧ (∀ o, p = Finished o → e = Completed f o)
  ∧ (∀ o, task_phase t ≠ Finished o).
Proof.
  intros Hmove. inversion Hmove; subst;
    repeat split; intros; try congruence;
    match goal with
    | H : Completed _ _ = Completed _ _ |- _ => now injection H
    | _ => idtac
    end.
Qed.

Lemma result_of_unfinished (s : State) (f : nat) (t : Task) :
  pool s !! f = Some t → (∀ o, task_phase t ≠ Finished o) →
  result_of s f = None.
Proof.
  intros Ht Hp. unfold result_of. rewrite Ht.
  destruct (task_phase t); try reflexivity. now destruct (Hp o).
Qed.

Lemma pool_moved (s : State) (f g : nat) (t : Task) (e : event) (p : phase)
    (ids : list (string * list (option string))) :
  pool s !! f = Some t →
  pool (moved s f e p ids) !! g
  = if decide (g = f) then Some (Build_Task (entry t) p) else pool s !! g.
Proof.
  intros Ht. unfold moved. simpl. rewrite list_lookup_alter.
  destruct (decide (f = g)) as [ <- | Hne ].
  - rewrite decide_True by reflexivity. now rewrite Ht.
  - now rewrite decide_False by congruence.
Qed.

Lemma result_of_moved (s : State) (f g : nat) (t : Task) (e : event)
    (p : phase) (ids : list (string * list (option string))) :
  pool s !! f = Some t →
  result_of (moved s f e p ids) g
  = if decide (g = f) then match p with Finished o => Some o | _ => None end
    else result_of s g.
Proof.
  intros Ht. unfold result_of. rewrite (pool_moved s f g t) by exact Ht.
  destruct (decide (g = f)); reflexivity.
Qed.

(** A finished future stays finished, with the same outcome. *)
Lemma result_of_moved_keeps (c : Consts) (s : State) (f g : nat) (t : Task)
    (e : event) (p : phase) (ids : list (string * list (option string)))
    (o : outcome) :
  pool s !! f = Some t → worker_move c s f t e p →
  result_of s g = Some o → result_of (moved s f e p ids) g = Some o.
Proof.
  intros Ht Hmove Hg. rewrite (result_of_moved s f g t) by exact Ht.
  destruct (decide (g = f)) as [ -> | ]; [ | exact Hg ].
  apply worker_move_event in Hmove as (_ & _ & _ & _ & Hp).
  rewrite (result_of_unfinished s f t Ht Hp) in Hg. discriminate.
Qed.

Lemma lookup_futures_spec (tasks : gmap string (gmap (option string) nat))
    (rs : list (string * option string))
    (l : list (string * option string * nat)) :
  lookup_futures tasks rs = Some l →
  map fst l = rs ∧ ∀ r dep, (r, dep) ∈ l → task_of tasks r = Some dep.
Proof.
  revert l. induction rs as [ | r rs IH ]; intros l; simpl.
  - intros [= <-]. split; [ reflexivity | ].
    intros r dep H. now apply elem_of_nil in H.
  - destruct (task_of tasks r) as [ f | ] eqn:Hr; [ | discriminate ].
    destruct (lookup_futures tasks rs) as [ fs | ]; [ | discriminate ].
    intros [= <-]. destruct (IH fs eq_refl) as [Hmap Hall].
    split; [ simpl; now rewrite Hmap | ].
    intros r' dep H. apply elem_of_cons in H as [ [= -> ->] | H ];
      [ exact Hr | now apply Hall ].
Qed.

(** A finished future has its [Completed] event. *)
Lemma finished_has_event (s : State) (f : nat) (o : outcome) :
  orderly s → result_of s f = Some o →
  ∃ k, trace s !! k = Some (Completed f o).
Proof.
  intros Hord Hf. unfold result_of in Hf.
  destruct (pool s !! f) as [ t | ] eqn:Ht; [ | discriminate ].
  pose proof (orderly_agrees _ Hord f t Ht) as Hag. unfold agrees in Hag.
  destruct (task_phase t); try discriminate.
  injection Hf as ->. exact (proj1 Hag).
Qed.

(** A move keeps the events and the phases in agreement. *)
Lemma moved_agrees (c : Consts) (s : State) (f : nat) (t : Task) (e : event)
    (p : phase) (ids : list (string * list (option string))) :
  orderly s → pool s !! f = Some t → worker_move c s f t e p →
  ∀ g tg, pool (moved s f e p ids) !! g = Some tg →
          agrees (moved s f e p ids) g tg.
Proof.
  intros Hord Ht Hmove g tg Hg.
  pose proof (worker_move_event _ _ _ _ _ _ Hmove)
    as (Hew & Hec & Hed & Hpe & Hunf).
  rewrite (pool_moved s f g t) in Hg by exact Ht.
  destruct (decide (g = f)) as [ -> | Hne ].
  - injection Hg as <-.
    pose proof (orderly_agrees _ Hord f t Ht) as Hag.
    unfold agrees in *. simpl.
    inversion Hmove as [ n Hp | n Hp | n cfg req opt Hp Hreq Hopt
                       | cfg futs n Hp Hall Hcfg
                       | cfg futs n dep e0 Hp Hdep Hres
                       | cfg futs n Hp Hall | n o Hp | n Hp ];
      subst e p; rewrite Hp in Hag.
    + split; [ exists (length (trace s)); apply snoc_new | left ].
      apply answered_snoc; [ exact Hag | discriminate ].
    + split; [ exists (length (trace s)); apply snoc_new | left ].
      apply answered_snoc; [ exact Hag | discriminate ].
    + exists (length (trace s)), req, opt.
      split; [ now apply waits_at_new | reflexivity ].
    + destruct Hag as (i & req & opt & Hw & _).
      eapply answered_by_call, Hw.
    + split; [ exists (length (trace s)); apply snoc_new | right ].
      destruct Hag as (i & req & opt & Hw & ->).
      exists i, req, opt. split; [ apply waits_at_snoc; easy | right ].
      exists dep, e0. split; [ exact Hdep | ]. split; [ reflexivity | ].
      eapply result_of_moved_keeps; eassumption.
    + split; [ exists (length (trace s)); apply snoc_new | right ].
      destruct Hag as (i & req & opt & Hw & ->).
      exists i, req, opt. split; [ apply waits_at_snoc; easy | now left ].
    + split; [ exists (length (trace s)); apply snoc_new | left ].
      apply answered_snoc; [ exact Hag | discriminate ].
    + apply answered_snoc; [ exact Hag | discriminate ].
  - pose proof (orderly_agrees _ Hord g tg Hg) as Hag.
    assert (Hnw : ∀ r o, e ≠ WaitsFor g r o)
      by (intros r o He; apply Hew in He; congruence).
    assert (Hnc : ∀ n, e ≠ CallDomainSetup g n)
      by (intros n He; apply Hec in He; congruence).
    unfold agrees in *. simpl.
    destruct (task_phase tg) as [ n | cfg futs n | n | o ].
    + now apply answered_snoc.
    + destruct Hag as (i & req & opt & Hw & ->).
      exists i, req, opt. split; [ now apply waits_at_snoc | reflexivity ].
    + now apply answered_snoc.
    + destruct Hag as [ [i Hi] Hag ].
      split; [ exists i; now apply snoc_old | ].
      destruct Hag as [ Hans | (i0 & req & opt & Hw & Hout) ];
        [ left; now apply answered_snoc | right ].
      exists i0, req, opt. split; [ now apply waits_at_snoc | ].
      destruct Hout as [ -> | (dep & e0 & Hdep & -> & Hres) ]; [ now left | ].
      right. exists dep, e0. split; [ exact Hdep | ].
      split; [ reflexivity | ].
      eapply result_of_moved_keeps; eassumption.
Qed.

(** A move keeps the interleaving orderly. *)
Lemma moved_orderly (c : Consts) (s : State) (f : nat) (t : Task) (e : event)
    (p : phase) (ids : list (string * list (option string))) :
  orderly s → pool s !! f = Some t → worker_move c s f t e p →
  shrinks (DOMAIN_IDENTIFIERS s) ids →
  orderly (moved s f e p ids).
Proof.
  intros Hord Ht Hmove Hshr.
  pose proof (worker_move_event _ _ _ _ _ _ Hmove)
    as (Hew & Hec & Hed & Hpe & Hunf).
  pose proof (orderly_agrees _ Hord f t Ht) as Hag. unfold agrees in Hag.
  constructor.
  - eapply moved_agrees; eassumption.
  - intros i g o Hi. simpl in Hi. apply snoc_cases in Hi as [ Hi | [_ Hi] ].
    + eapply result_of_moved_keeps; [ eassumption | eassumption | ].
      eapply orderly_done; eassumption.
    + apply Hed in Hi as [ -> -> ].
      rewrite (result_of_moved s f f t) by exact Ht.
      now rewrite decide_True.
  - intros j g n Hj. simpl in Hj. apply snoc_cases in Hj as [ Hj | [-> Hj] ].
    + destruct (orderly_calls _ Hord j g n Hj) as (i & req & opt & Hij & Hi).
      exists i, req, opt. split; [ exact Hij | now apply snoc_old ].
    + pose proof (Hec _ _ Hj) as ->.
      inversion Hmove; subst; try discriminate.
      match goal with H : task_phase t = _ |- _ => rewrite H in Hag end.
      destruct Hag as (i & req & opt & (Hi & _) & _).
      exists i, req, opt.
      split; [ eapply lookup_lt_Some, Hi | now apply snoc_old ].
  - intros i j g req opt n Hi Hj Hij dep Hdep. simpl in Hi, Hj.
    apply snoc_cases in Hj as [ Hj | [-> Hj] ].
    + apply snoc_cases in Hi as [ Hi | [-> _] ];
        [ | apply lookup_lt_Some in Hj; lia ].
      destruct (orderly_passed _ Hord i j g req opt n Hi Hj Hij dep Hdep)
        as (k & Hk & Hev).
      exists k. split; [ exact Hk | now apply snoc_old ].
    + apply snoc_cases in Hi as [ Hi | [-> _] ]; [ | lia ].
      pose proof (Hec _ _ Hj) as ->.
      inversion Hmove as [ | | | cfg futs n0 Hp Hall Hcfg | | | | ];
        subst; try discriminate.
      rewrite Hp in Hag.
      destruct Hag as (i0 & req0 & opt0 & (Hi0 & _ & Hother) & ->).
      destruct (decide (i = i0)) as [ -> | Hne ].
      * rewrite Hi in Hi0. injection Hi0 as <- <-.
        destruct (finished_has_event s dep _ Hord (Hall dep Hdep)) as [k Hk].
        exists k. split; [ eapply lookup_lt_Some, Hk | now apply snoc_old ].
      * destruct (Hother i req opt Hi Hne) as (j' & n' & Hij' & Hj').
        destruct (orderly_passed _ Hord i j' f req opt n' Hi Hj' Hij' dep Hdep)
          as (k & Hk & Hev).
        exists k. split; [ | now apply snoc_old ].
        apply lookup_lt_Some in Hj'. lia.
  - intros i g req opt Hi. simpl in Hi.
    apply snoc_cases in Hi as [ Hi | [_ Hi] ].
    + destruct (orderly_covers _ Hord i g req opt Hi) as (t0 & Ht0 & Hreq & Hopt).
      destruct (decide (g = f)) as [ -> | Hne ].
      * exists (Build_Task (entry t) p).
        rewrite (pool_moved s f f t), decide_True by easy.
        rewrite Ht in Ht0. injection Ht0 as <-.
        split; [ reflexivity | ]. split; [ exact Hreq | ].
        intros r Hr Hreg. apply Hopt; [ exact Hr | now apply Hshr ].
      * exists t0. rewrite (pool_moved s f g t), decide_False by easy.
        split; [ exact Ht0 | ]. split; [ exact Hreq | ].
        intros r Hr Hreg. apply Hopt; [ exact Hr | now apply Hshr ].
    + pose proof (Hew _ _ _ Hi) as ->. subst e.
      inversion Hmove as [ | | n cfg req0 opt0 Hp Hreq Hopt | | | | | ]; subst.
      eexists. rewrite (pool_moved s f f t), decide_True by easy.
      split; [ reflexivity | ]. simpl.
      apply lookup_futures_spec in Hreq as [Hreq _].
      apply lookup_futures_spec in Hopt as [Hopt _].
      split; [ exact Hreq | ].
      intros r Hr Hreg. rewrite Hopt.
      apply list_elem_of_In, filter_In.
      split; [ now apply list_elem_of_In | now apply Hshr ].
Qed.

Lemma result_of_submitted (s : State) (d : DomainToSetup) (g : nat) :
  result_of (_setup_domain s d) g = result_of s g.
Proof.
  unfold result_of, _setup_domain. simpl.
  destruct (decide (g < length (pool s))%nat) as [ Hlt | Hge ].
  - now rewrite lookup_app_l.
  - rewrite (lookup_ge_None_2 (pool s)) by lia.
    destruct (decide (g = length (pool s))) as [ -> | Hne ].
    + now rewrite snoc_new.
    + rewrite lookup_ge_None_2; [ reflexivity | ].
      rewrite length_app. simpl. lia.
Qed.

(** A submission keeps the interleaving orderly. *)
Lemma submitted_orderly (s : State) (d : DomainToSetup) :
  orderly s → orderly (_setup_domain s d).
Proof.
  intros Hord.
  set (e := Submitted (length (pool s)) (key_of d)).
  assert (Htr : trace (_setup_domain s d) = trace s ++ [e]) by reflexivity.
  assert (Hpool : pool (_setup_domain s d)
                  = pool s ++ [Build_Task d (AtStart 1)]) by reflexivity.
  assert (Hids : DOMAIN_IDENTIFIERS (_setup_domain s d) = DOMAIN_IDENTIFIERS s)
    by reflexivity.
  assert (Hold : ∀ i ev, trace (_setup_domain s d) !! i = Some ev →
                         ev ≠ e → trace s !! i = Some ev).
  { intros i ev Hi Hne. rewrite Htr in Hi.
    apply snoc_cases in Hi as [ Hi | [_ Hi] ]; [ exact Hi | congruence ]. }
  constructor.
  - intros g tg Hg. rewrite Hpool in Hg. unfold agrees. rewrite Htr.
    apply snoc_cases in Hg as [ Hg | [-> <-] ].
    + pose proof (orderly_agrees _ Hord g tg Hg) as Hag. unfold agrees in Hag.
      destruct (task_phase tg) as [ n | cfg futs n | n | o ].
      * apply answered_snoc; [ exact Hag | discriminate ].
      * destruct Hag as (i & req & opt & Hw & ->).
        exists i, req, opt.
        split; [ apply waits_at_snoc; easy | reflexivity ].
      * apply answered_snoc; [ exact Hag | discriminate ].
      * destruct Hag as [ [i Hi] Hag ].
        split; [ exists i; now apply snoc_old | ].
        destruct Hag as [ Hans | (i0 & req & opt & Hw & Hout) ];
          [ left; apply answered_snoc; easy | right ].
        exists i0, req, opt. split; [ apply waits_at_snoc; easy | ].
        destruct Hout as [ -> | (dep & e0 & Hdep & -> & Hres) ]; [ now left | ].
        right. exists dep, e0. split; [ exact Hdep | ].
        split; [ reflexivity | now rewrite result_of_submitted ].
    + simpl. intros i req opt Hi.
      apply snoc_cases in Hi as [ Hi | [_ Hi] ]; [ | discriminate ].
      destruct (orderly_covers _ Hord i _ req opt Hi) as (t0 & Ht0 & _).
      apply lookup_lt_Some in Ht0. lia.
  - intros i g o Hi. rewrite result_of_submitted.
    eapply orderly_done; [ exact Hord | ]. apply (Hold i _ Hi). discriminate.
  - intros j g n Hj. apply Hold in Hj; [ | discriminate ].
    destruct (orderly_calls _ Hord j g n Hj) as (i & req & opt & Hij & Hi).
    exists i, req, opt. split; [ exact Hij | ]. rewrite Htr. now apply snoc_old.
  - intros i j g req opt n Hi Hj Hij dep Hdep.
    apply Hold in Hi; [ | discriminate ]. apply Hold in Hj; [ | discriminate ].
    destruct (orderly_passed _ Hord i j g req opt n Hi Hj Hij dep Hdep)
      as (k & Hk & Hev).
    exists k. split; [ exact Hk | ]. rewrite Htr. now apply snoc_old.
  - intros i g req opt Hi. apply Hold in Hi; [ | discriminate ].
    destruct (orderly_covers _ Hord i g req opt Hi) as (t0 & Ht0 & Hreq & Hopt).
    exists t0. rewrite Hpool, Hids.
    split; [ now apply lookup_app_l_Some | ]. split; assumption.
Qed.

Lemma initial_orderly : orderly initial.
Proof.
  constructor; simpl; intros; try discriminate.
Qed.

(** Every interleaving is orderly. *)
Lemma run_orderly (c : Consts) (acts : list action) (s : State) :
  orderly s → orderly (run c acts s).
Proof.
  revert s. induction acts as [ | a acts IH ]; intros s Hord; [ exact Hord | ].
  simpl. apply IH. destruct a as [ d | f m ending ]; simpl.
  - now apply submitted_orderly.
  - destruct (Component_setup_domain_moves c f m ending s)
      as [ -> | (t & e & p & ids & Ht & Hmove & Hshr & ->) ]; [ exact Hord | ].
    eapply moved_orderly; eassumption.
Qed.

Lemma awaited_elem_of (req opt : list (string * option string * nat))
    (dep : nat) :
  dep ∈ awaited req opt ↔ ∃ r, (r, dep) ∈ req ∨ (r, dep) ∈ opt.
Proof.
  unfold awaited. rewrite list_elem_of_fmap. split.
  - intros ([r dep'] & -> & Hin). exists r. now apply elem_of_app.
  - intros (r & Hin). exists (r, dep). split; [ reflexivity | ].
    now apply elem_of_app.
Qed.

Lemma elem_of_map_fst (l : list (string * option string * nat))
    (r : string * option string) :
  r ∈ map fst l → ∃ dep, (r, dep) ∈ l.
Proof.
  intros Hr. apply list_elem_of_fmap in Hr as ([r' dep] & -> & Hin). eauto.
Qed.

(** A move keeps the waits stable. *)
Lemma moved_stable (c : Consts) (s : State) (f : nat) (t : Task) (e : event)
    (p : phase) (ids : list (string * list (option string))) :
  orderly s → stable s → pool s !! f = Some t → worker_move c s f t e p →
  stable (moved s f e p ids).
Proof.
  intros Hord Hst Ht Hmove.
  pose proof (worker_move_event _ _ _ _ _ _ Hmove) as (Hew & _).
  assert (Hnew : ∀ g req opt, e = WaitsFor g req opt →
            g = f
            ∧ map fst req = require_domains (entry t)
            ∧ map fst opt
              = List.filter (registered (DOMAIN_IDENTIFIERS s))
                  (optional_domains (entry t))
            ∧ ∀ r dep, (r, dep) ∈ req ++ opt →
                       task_of (DOMAIN_SETUP_TASKS s) r = Some dep).
  { intros g req opt He. pose proof (Hew _ _ _ He) as ->. subst e.
    inversion Hmove as [ | | n cfg req0 opt0 Hp Hreq Hopt | | | | | ]; subst.
    apply lookup_futures_spec in Hreq as [Hreq Hreq'].
    apply lookup_futures_spec in Hopt as [Hopt Hopt'].
    split; [ reflexivity | ]. split; [ exact Hreq | ]. split; [ exact Hopt | ].
    intros r dep Hin. apply elem_of_app in Hin as [ Hin | Hin ]; auto. }
  constructor.
  - intros i g req opt r dep Hi Hin. simpl in Hi.
    apply snoc_cases in Hi as [ Hi | [_ Hi] ].
    + exact (stable_lookup _ Hst i g req opt r dep Hi Hin).
    + destruct (Hnew _ _ _ Hi) as (_ & _ & _ & Hall). exact (Hall r dep Hin).
  - intros i i' g req opt req' opt' Hi' Hi Hlt dep Hdep. simpl in Hi, Hi'.
    apply snoc_cases in Hi as [ Hi | [-> Hi] ].
    + apply snoc_cases in Hi' as [ Hi' | [-> _] ];
        [ | apply lookup_lt_Some in Hi; lia ].
      eapply (stable_nested _ Hst i i'); eassumption.
    + apply snoc_cases in Hi' as [ Hi' | [-> _] ]; [ | lia ].
      destruct (Hnew _ _ _ Hi) as (-> & Hreq & Hopt & Hall).
      destruct (orderly_covers _ Hord i' f req' opt' Hi')
        as (t0 & Ht0 & Hreq' & Hopt').
      rewrite Ht in Ht0. injection Ht0 as <-.
      apply awaited_elem_of in Hdep as (r & Hin).
      assert (Hr : task_of (DOMAIN_SETUP_TASKS s) r = Some dep)
        by (apply Hall, elem_of_app; exact Hin).
      assert (Hr' : r ∈ map fst req' ∨ r ∈ map fst opt').
      { destruct Hin as [ Hin | Hin ].
        - left. rewrite Hreq', <- Hreq.
          apply list_elem_of_fmap. now exists (r, dep).
        - right. assert (Hf : r ∈ map fst opt)
            by (apply list_elem_of_fmap; now exists (r, dep)).
          rewrite Hopt in Hf. apply list_elem_of_In, filter_In in Hf as [Hf Hreg].
          apply Hopt'; [ now apply list_elem_of_In | exact Hreg ]. }
      apply awaited_elem_of. exists r.
      destruct Hr' as [ Hr' | Hr' ]; apply elem_of_map_fst in Hr' as [dep' Hin'].
      * left. replace dep with dep'; [ exact Hin' | ].
        assert (task_of (DOMAIN_SETUP_TASKS s) r = Some dep')
          by (eapply (stable_lookup _ Hst i'); [ exact Hi' | ];
              apply elem_of_app; now left).
        congruence.
      * right. replace dep with dep'; [ exact Hin' | ].
        assert (task_of (DOMAIN_SETUP_TASKS s) r = Some dep')
          by (eapply (stable_lookup _ Hst i'); [ exact Hi' | ];
              apply elem_of_app; now right).
        congruence.
Qed.

(** Submitting a key that has no task keeps the waits stable. *)
Lemma submitted_stable (s : State) (d : DomainToSetup) :
  stable s → task_of (DOMAIN_SETUP_TASKS s) (key_of d) = None →
  stable (_setup_domain s d).
Proof.
  intros Hst Hnone.
  assert (Hold : ∀ i f req opt,
            trace (_setup_domain s d) !! i = Some (WaitsFor f req opt) →
            trace s !! i = Some (WaitsFor f req opt)).
  { intros i f req opt Hi. simpl in Hi.
    apply snoc_cases in Hi as [ Hi | [_ Hi] ]; [ exact Hi | discriminate ]. }
  constructor.
  - intros i f req opt r dep Hi Hin. apply Hold in Hi.
    pose proof (stable_lookup _ Hst i f req opt r dep Hi Hin) as Hr.
    unfold _setup_domain. simpl. rewrite task_of_task_set.
    destruct (decide (key_of d = r)) as [ <- | ]; [ congruence | exact Hr ].
  - intros i i' f req opt req' opt' Hi' Hi. apply Hold in Hi, Hi'.
    eapply (stable_nested _ Hst i i'); eassumption.
Qed.

Lemma initial_stable : stable initial.
Proof. constructor; simpl; intros; discriminate. Qed.

(** An interleaving that submits no key twice keeps the waits stable. *)
Lemma run_stable (c : Consts) (acts : list action) (s : State) :
  orderly s → stable s → fresh_submits s acts → stable (run c acts s).
Proof.
  revert s. induction acts as [ | a acts IH ]; intros s Hord Hst [Hnd Hfresh];
    [ exact Hst | ].
  simpl. destruct a as [ d | f m ending ]; simpl in *.
  - apply NoDup_cons in Hnd as [Hd Hnd].
    assert (Hnone : task_of (DOMAIN_SETUP_TASKS s) (key_of d) = None)
      by apply Hfresh, list_elem_of_here.
    apply IH; [ now apply submitted_orderly | now apply submitted_stable | ].
    split; [ exact Hnd | ].
    intros k Hk. unfold _setup_domain. simpl. rewrite task_of_task_set.
    destruct (decide (key_of d = k)) as [ <- | ]; [ contradiction | ].
    now apply Hfresh, list_elem_of_further.
  - destruct (Component_setup_domain_moves c f m ending s)
      as [ -> | (t & e & p & ids & Ht & Hmove & Hshr & ->) ];
      [ apply IH; easy | ].
    apply IH; [ eapply moved_orderly; eassumption
              | eapply moved_stable; eassumption | ].
    split; assumption.
Qed.

(** A state in which nothing is submitted yet is orderly and stable,
    whatever is pending and registered in it. *)
Lemma unsubmitted_orderly (s : State) : unsubmitted s → orderly s.
Proof.
  intros [Hpool Htasks Htrace].
  assert (Hno : ∀ i e, trace s !! i = Some e → scheduling_event e = true →
                       False).
  { intros i e Hi He. apply list_elem_of_lookup_2 in Hi.
    rewrite (Htrace e Hi) in He. discriminate. }
  constructor.
  - intros f t Ht. rewrite Hpool in Ht. discriminate.
  - intros i f o Hi. destruct (Hno _ _ Hi eq_refl).
  - intros j f n Hj. destruct (Hno _ _ Hj eq_refl).
  - intros i j f req opt n Hi. destruct (Hno _ _ Hi eq_refl).
  - intros i f req opt Hi. destruct (Hno _ _ Hi eq_refl).
Qed.

Lemma unsubmitted_stable (s : State) : unsubmitted s → stable s.
Proof.
  intros [Hpool Htasks Htrace].
  assert (Hno : ∀ i e, trace s !! i = Some e → scheduling_event e = true →
                       False).
  { intros i e Hi He. apply list_elem_of_lookup_2 in Hi.
    rewrite (Htrace e Hi) in He. discriminate. }
  constructor.
  - intros i f req opt r dep Hi. destruct (Hno _ _ Hi eq_refl).
  - intros i i' f req opt req' opt' Hi'. destruct (Hno _ _ Hi' eq_refl).
Qed.

(** C1, as amended: from any state in which nothing is submitted yet
    (as the resolver leaves it, with the identifiers of the pending
    entries registered), in every interleaving of the main thread and the
    workers that submits no key twice, (1) when a task calls its domain's
    [setup], the futures that [DOMAIN_SETUP_TASKS] holds for all its
    required dependencies and for all its registered optional
    dependencies have completed before the call (with [True], the call
    having been made); (2) a task that awaited a future that resolved to a
    value other than [True] never calls its domain's [setup], and if it
    completes it returns [False] unless a future it awaited raised, whose
    exception is then what the task raises. *)
Theorem setup_waits_for_its_dependencies (c : Consts) (s0 : State)
    (acts : list action) :
  unsubmitted s0 →
  NoDup (submitted acts) →
  let s := run c acts s0 in
  (∀ j f n t r,
     trace s !! j = Some (CallDomainSetup f n) →
     pool s !! f = Some t →
     r ∈ followed (DOMAIN_IDENTIFIERS s) (entry t) →
     ∃ dep k,
       task_of (DOMAIN_SETUP_TASKS s) r = Some dep
       ∧ (k < j)%nat
       ∧ trace s !! k = Some (Completed dep (Returned (PyBool true))))
  ∧ (∀ i f req opt dep k v,
       trace s !! i = Some (WaitsFor f req opt) →
       dep ∈ awaited req opt →
       trace s !! k = Some (Completed dep (Returned v)) →
       is_True v = false →
       (∀ j n, trace s !! j ≠ Some (CallDomainSetup f n))
       ∧ (∀ k' o,
            trace s !! k' = Some (Completed f o) →
            o = Returned (PyBool false)
            ∨ ∃ dep' e k'',
                dep' ∈ awaited req opt ∧ o = Raised e
                ∧ trace s !! k'' = Some (Completed dep' (Raised e)))).
Proof.
  intros Hstart Hnd s.
  assert (Hord : orderly s) by now apply run_orderly, unsubmitted_orderly.
  assert (Hst : stable s).
  { apply run_stable;
      [ now apply unsubmitted_orderly | now apply unsubmitted_stable | ].
    split; [ exact Hnd | ]. intros k _. unfold task_of.
    rewrite (unsubmitted_tasks _ Hstart). now rewrite lookup_empty. }
  assert (Hnever : ∀ i f req opt dep k v,
            trace s !! i = Some (WaitsFor f req opt) →
            dep ∈ awaited req opt →
            trace s !! k = Some (Completed dep (Returned v)) →
            is_True v = false →
            ∀ j n, trace s !! j ≠ Some (CallDomainSetup f n)).
  { intros i f req opt dep k v Hi Hdep Hk Hv j n Hj.
    assert (Htrue : ∃ k', trace s !! k'
                          = Some (Completed dep (Returned (PyBool true)))).
    { destruct (decide (i < j)%nat) as [ Hij | Hji ].
      - destruct (orderly_passed _ Hord i j f req opt n Hi Hj Hij dep Hdep)
          as (k' & _ & Hk'). eauto.
      - destruct (orderly_calls _ Hord j f n Hj) as (i' & req' & opt' & Hi'j & Hi').
        assert (Hne : i ≠ j) by (intros ->; congruence).
        assert (Hdep' : dep ∈ awaited req' opt')
          by (eapply (stable_nested _ Hst i i'); try eassumption; lia).
        destruct (orderly_passed _ Hord i' j f req' opt' n Hi' Hj Hi'j dep Hdep')
          as (k' & _ & Hk'). eauto. }
    destruct Htrue as [k' Hk'].
    apply (orderly_done _ Hord) in Hk, Hk'. rewrite Hk in Hk'.
    injection Hk' as ->. discriminate. }
  split.
  - intros j f n t r Hj Ht Hr.
    destruct (orderly_calls _ Hord j f n Hj) as (i & req & opt & Hij & Hi).
    destruct (orderly_covers _ Hord i f req opt Hi) as (t0 & Ht0 & Hreq & Hopt).
    rewrite Ht in Ht0. injection Ht0 as <-.
    assert (Hin : ∃ dep, (r, dep) ∈ req ++ opt).
    { unfold followed in Hr. apply elem_of_app in Hr as [ Hr | Hr ].
      - rewrite <- Hreq in Hr. apply elem_of_map_fst in Hr as [dep Hr].
        exists dep. apply elem_of_app. now left.
      - apply list_elem_of_In, filter_In in Hr as [Hr Hreg].
        apply list_elem_of_In in Hr.
        destruct (elem_of_map_fst _ _ (Hopt r Hr Hreg)) as [dep Hin].
        exists dep. apply elem_of_app. now right. }
    destruct Hin as [dep Hin]. exists dep.
    assert (Hdep : dep ∈ awaited req opt).
    { apply awaited_elem_of. exists r. now apply elem_of_app. }
    destruct (orderly_passed _ Hord i j f req opt n Hi Hj Hij dep Hdep)
      as (k & Hkj & Hk).
    exists k. split; [ | split; assumption ].
    eapply (stable_lookup _ Hst i); eassumption.
  - intros i f req opt dep k v Hi Hdep Hk Hv.
    pose proof (Hnever i f req opt dep k v Hi Hdep Hk Hv) as Hno.
    split; [ exact Hno | ].
    intros k' o Hk'.
    pose proof (orderly_done _ Hord k' f o Hk') as Hres.
    unfold result_of in Hres.
    destruct (pool s !! f) as [ t | ] eqn:Ht; [ | discriminate ].
    pose proof (orderly_agrees _ Hord f t Ht) as Hag. unfold agrees in Hag.
    destruct (task_phase t) as [ | | | o' ]; try discriminate.
    injection Hres as ->.
    destruct Hag as [ _ [ Hans | (i0 & req0 & opt0 & (Hi0 & _ & Hother) & Hout) ] ].
    + destruct (Hans i req opt Hi) as (j & n & _ & Hj). now destruct (Hno j n).
    + destruct (decide (i = i0)) as [ -> | Hne ].
      * rewrite Hi in Hi0. injection Hi0 as <- <-.
        destruct Hout as [ -> | (dep' & e & Hdep' & -> & Hraised) ];
          [ now left | right ].
        destruct (finished_has_event s dep' _ Hord Hraised) as [k'' Hk''].
        exists dep', e, k''. auto.
      * destruct (Hother i req opt Hi Hne) as (j & n & _ & Hj).
        now destruct (Hno j n).
Qed.

Lemma three_pending_unsubmitted : unsubmitted three_pending.
Proof.
  constructor; [ reflexivity | reflexivity | ].
  intros e He. vm_compute in He. now apply elem_of_nil in He.
Qed.

(** The NVR awaits the camera, which it requires, and the object
    detector, an optional dependency that is registered. *)
Lemma an_optional_dependency_fails_trace :
  trace (run consts_3_60 an_optional_dependency_fails three_pending)
  = [Submitted 0 ("camera", camera_1);
     Submitted 1 ("object_detector", camera_1);
     Submitted 2 ("nvr", camera_1);
     WaitsFor 0 [] [];
     CallDomainSetup 0 1;
     Completed 0 (Returned (PyBool true));
     WaitsFor 1 [(("camera", camera_1), 0%nat)] [];
     CallDomainSetup 1 1;
     Completed 1 (Returned (PyBool false));
     WaitsFor 2 [(("camera", camera_1), 0%nat)]
                [(("object_detector", camera_1), 1%nat)];
     Completed 2 (Returned (PyBool false))].
Proof. vm_compute. reflexivity. Qed.

(** There the NVR calls its [setup] once both are set up. *)
Lemma every_dependency_is_set_up_trace :
  trace (run consts_3_60 every_dependency_is_set_up three_pending)
  = [Submitted 0 ("camera", camera_1);
     Submitted 1 ("object_detector", camera_1);
     Submitted 2 ("nvr", camera_1);
     WaitsFor 0 [] [];
     CallDomainSetup 0 1;
     Completed 0 (Returned (PyBool true));
     WaitsFor 1 [(("camera", camera_1), 0%nat)] [];
     CallDomainSetup 1 1;
     Completed 1 (Returned (PyBool true));
     WaitsFor 2 [(("camera", camera_1), 0%nat)]
                [(("object_detector", camera_1), 1%nat)];
     CallDomainSetup 2 1].
Proof. vm_compute. reflexivity. Qed.

Lemma submits_three_keys (acts : list action) :
  submitted acts
  = [("camera", camera_1); ("object_detector", camera_1);
     ("nvr", camera_1)] →
  NoDup (submitted acts).
Proof.
  intros ->. repeat (apply NoDup_cons; split);
    rewrite ?elem_of_cons, ?elem_of_nil; try apply NoDup_nil_2;
    intros H; repeat (destruct H as [ H | H ]); try discriminate; exact H.
Qed.

Lemma setup_waits_for_its_dependencies_witness :
  (∃ dep k,
      task_of
        (DOMAIN_SETUP_TASKS
           (run consts_3_60 every_dependency_is_set_up three_pending))
        ("object_detector", camera_1) = Some dep
      ∧ (k < 10)%nat
      ∧ trace (run consts_3_60 every_dependency_is_set_up three_pending)
        !! k = Some (Completed dep (Returned (PyBool true))))
  ∧ trace (run consts_3_60 an_optional_dependency_fails three_pending)
    !! 10%nat
    ≠ Some (CallDomainSetup 2 1).
Proof.
  split.
  - apply (proj1 (setup_waits_for_its_dependencies consts_3_60 three_pending
                    every_dependency_is_set_up three_pending_unsubmitted
                    (submits_three_keys every_dependency_is_set_up eq_refl))
             10%nat 2%nat 1
             (Build_Task (queued_entry nvr nvr_registration) (InSetup 1))).
    + vm_compute. reflexivity.
    + vm_compute. reflexivity.
    + vm_compute. apply list_elem_of_further, list_elem_of_here.
  - assert (Hwait : trace (run consts_3_60 an_optional_dependency_fails
                             three_pending) !! 9%nat
                    = Some (WaitsFor 2 [(("camera", camera_1), 0%nat)]
                              [(("object_detector", camera_1), 1%nat)]))
      by (vm_compute; reflexivity).
    assert (Hdone : trace (run consts_3_60 an_optional_dependency_fails
                             three_pending) !! 8%nat
                    = Some (Completed 1 (Returned (PyBool false))))
      by (vm_compute; reflexivity).
    assert (Hdep : 1%nat ∈ awaited [(("camera", camera_1), 0%nat)]
                             [(("object_detector", camera_1), 1%nat)])
      by (apply list_elem_of_further, list_elem_of_here).
    exact (proj1 (proj2 (setup_waits_for_its_dependencies consts_3_60
                           three_pending an_optional_dependency_fails
                           three_pending_unsubmitted
                           (submits_three_keys an_optional_dependency_fails
                              eq_refl))
                    9%nat 2%nat _ _ 1%nat 8%nat (PyBool false)
                    Hwait Hdep Hdone eq_refl) 10%nat 1).
Defined.

(** C1, as stated, fails where one awaited dependency returned [False]
    and another raised: the task that awaited them does not return
    failure, its future holds the exception of the second. *)
Lemma a_raising_dependency_is_raised_again :
  trace (run consts_3_60 a_dependency_raises initial)
  = [Submitted 0 ("camera", camera_1);
     Submitted 1 ("object_detector", camera_1);
     Submitted 2 ("nvr", camera_1);
     WaitsFor 0 [] [];
     CallDomainSetup 0 1;
     Completed 0 (Returned (PyBool false));
     Completed 1 (Raised ModuleNotFoundError);
     WaitsFor 2 [(("camera", camera_1), 0%nat);
                 (("object_detector", camera_1), 1%nat)] [];
     Completed 2 (Raised ModuleNotFoundError)]
  ∧ result_of (run consts_3_60 a_dependency_raises initial) 0
    = Some (Returned (PyBool false))
  ∧ result_of (run consts_3_60 a_dependency_raises initial) 2
    = Some (Raised ModuleNotFoundError)
  ∧ Raised ModuleNotFoundError ≠ Returned (PyBool false).
Proof.
  split; [ vm_compute; reflexivity | ].
  split; [ vm_compute; reflexivity | ].
  split; [ vm_compute; reflexivity | discriminate ].
Qed.

End OrderProofs.
(** ** Falsy configurations *)

Module ConfigProofs.

Import Components ComponentProofs WorkerProofs SetupProofs SchedulerProofs.
Import OrderProofs Scenarios.

(** A task that waits with a falsy configuration, or that has ended
    without a call of its domain's [setup]. *)
Lemma falsy_wait_step (c : Consts) (future : nat) (d : DomainToSetup)
    (dv : val) (futures : list nat) (n : Z) (a : action) (s : State) :
  truthy dv = false →
  (pool s !! future
   = Some (Build_Task d (AwaitingDependencies dv futures n))
   ∨ ∃ o, pool s !! future = Some (Build_Task d (Finished o))
          ∧ (o = Returned (PyBool false) ∨ ∃ e, o = Raised e)) →
  (pool (perform c s a) !! future
   = Some (Build_Task d (AwaitingDependencies dv futures n))
   ∨ ∃ o, pool (perform c s a) !! future = Some (Build_Task d (Finished o))
          ∧ (o = Returned (PyBool false) ∨ ∃ e, o = Raised e))
  ∧ ∀ j k, trace (perform c s a) !! j = Some (CallDomainSetup future k) →
           trace s !! j = Some (CallDomainSetup future k).
Proof.
  intros Hdv Hinv. destruct a as [ d' | f m ending ]; simpl.
  - split.
    + destruct Hinv as [ Ht | (o & Ht & Ho) ]; [ left | right; exists o; split;
        [ | exact Ho ] ]; now apply lookup_app_l_Some.
    + intros j k Hj. apply snoc_cases in Hj as [ Hj | [_ [=]] ]. exact Hj.
  - destruct (Component_setup_domain_moves c f m ending s)
      as [ -> | (t & e & p & ids & Ht & Hmove & _ & ->) ]; [ auto | ].
    destruct (worker_move_event _ _ _ _ _ _ Hmove)
      as (_ & Hcall & _ & _ & Hunfinished).
    assert (Hpool : ∀ g, pool (moved s f e p ids) !! g
                         = if decide (g = f) then Some (Build_Task (entry t) p)
                           else pool s !! g)
      by (intros g; now apply pool_moved).
    assert (Htrace : trace (moved s f e p ids) = trace s ++ [e])
      by reflexivity.
    rewrite Hpool, Htrace.
    destruct (decide (future = f)) as [ <- | Hne ].
    + destruct Hinv as [ Ht' | (o & Ht' & _) ]; rewrite Ht in Ht';
        injection Ht' as ->; [ | now destruct (Hunfinished o) ].
      simpl in Hmove.
      inversion Hmove as [ k Hp | k Hp | k cfg req opt Hp
                           | cfg fs k Hp Hall Hcfg | cfg fs k dep e0 Hp
                           | cfg fs k Hp | k o Hp | k Hp ];
        simpl in Hp; try discriminate; subst.
      * injection Hp as <- <- <-. congruence.
      * split; [ right; eauto | ].
        intros j k' Hj. apply snoc_cases in Hj as [ Hj | [_ [=]] ]. exact Hj.
      * split; [ right; eauto | ].
        intros j k' Hj. apply snoc_cases in Hj as [ Hj | [_ [=]] ]. exact Hj.
    + split; [ exact Hinv | ].
      intros j k Hj. apply snoc_cases in Hj as [ Hj | [_ ->] ];
        [ exact Hj | ].
      now destruct (Hne (Hcall future k eq_refl)).
Qed.

Lemma falsy_wait_run (c : Consts) (future : nat) (d : DomainToSetup)
    (dv : val) (futures : list nat) (n : Z) (acts : list action) (s : State) :
  truthy dv = false →
  (pool s !! future
   = Some (Build_Task d (AwaitingDependencies dv futures n))
   ∨ ∃ o, pool s !! future = Some (Build_Task d (Finished o))
          ∧ (o = Returned (PyBool false) ∨ ∃ e, o = Raised e)) →
  (∀ j k, trace (run c acts s) !! j = Some (CallDomainSetup future k) →
          trace s !! j = Some (CallDomainSetup future k))
  ∧ ∀ o, result_of (run c acts s) future = Some o →
         o = Returned (PyBool false) ∨ ∃ e, o = Raised e.
Proof.
  intros Hdv. revert s. induction acts as [ | a acts IH ]; intros s Hinv.
  - split; [ trivial | ]. intros o. unfold result_of. simpl.
    destruct Hinv as [ -> | (o' & -> & Ho) ]; simpl; [ discriminate | ].
    now intros [= <-].
  - destruct (falsy_wait_step c future d dv futures n a s Hdv Hinv)
      as [Hinv' Htrace].
    destruct (IH _ Hinv') as [Hcalls Hres]. simpl.
    split; [ | exact Hres ].
    intros j k Hj. apply Htrace, Hcalls, Hj.
Qed.

(** C9: a validator that returns a falsy value other than [None] (an
    empty dictionary that the schema accepts, say) has the effect of one
    that rejects the configuration.  For a component: [setup] is not
    called, [Component.setup_component] goes the way of a [None]
    configuration and returns [False], and the component ends in
    [FAILED].  For a domain whose [CONFIG_SCHEMA] returns such a value
    at the start of its task: the first move of its worker stores that
    value as the configuration the task waits with, where a rejecting
    schema would store [None] and nothing else would differ; whatever
    the workers and the main thread do afterwards, the domain's [setup]
    is never called and the task's future holds [False], unless an
    exception takes its place (that of a dependency, or the [KeyError]
    of a dependency without task); and once its dependencies are done
    the task moves exactly as it would with [None]. *)
Theorem falsy_config_is_a_failed_setup (c : Consts) (self : Component)
    (m : ComponentModule) (schema : val → schema_result) (v : val)
    (tries : Z) (s : State) (future : nat) (t : Task) (n : Z)
    (dm : DomainModule) (domain_schema : val → schema_result) (dv : val)
    (ending : setup_result) :
  CONFIG_SCHEMA m = Some schema →
  schema (_config self) = SchemaReturns v →
  truthy v = false →
  DOMAIN_CONFIG_SCHEMA dm = Some domain_schema →
  domain_schema (config (entry t)) = SchemaReturns dv →
  truthy dv = false →
  pool s !! future = Some t →
  task_phase t = AtStart n →
  let out := Component_setup_component c self (Some m) tries s in
  let s1 := Component_setup_domain c future (Some dm) ending s in
  out = run_component_setup c self m PyNone tries
          (emit (LogSettingUp (name self) tries) s)
  ∧ (∀ cfg, CallSetup (name self) cfg ∈ trace out.2 →
            CallSetup (name self) cfg ∈ trace s)
  ∧ (pending_of s (name self) = [] →
     out.1 = Ok false
     ∧ (tries ≤ 1 →
        (setup_component c s self (Some m) tries).1 = Ok tt
        ∧ is_Some (FAILED (setup_component c s self (Some m) tries).2
                   !! name self)))
  ∧ (∀ req opt,
       dependencies_futures s (entry t) = Some req →
       optional_dependencies_futures s (entry t) = Some opt →
       pool s1 !! future
       = Some (Build_Task (entry t)
                 (AwaitingDependencies dv (map snd (req ++ opt)) n))
       ∧ ∀ rejecting rejects,
           DOMAIN_CONFIG_SCHEMA rejecting = Some rejects →
           rejects (config (entry t)) = SchemaInvalid
           ∨ rejects (config (entry t)) = SchemaCrash →
           Component_setup_domain c future (Some rejecting) ending s
           = set_phase future
               (AwaitingDependencies PyNone (map snd (req ++ opt)) n) s1)
  ∧ (∀ acts,
       (∀ j k, trace (run c acts s1) !! j = Some (CallDomainSetup future k) →
               trace s !! j = Some (CallDomainSetup future k))
       ∧ (∀ o, result_of (run c acts s1) future = Some o →
               o = Returned (PyBool false) ∨ ∃ e, o = Raised e))
  ∧ (∀ s2 futures dm' ending',
       pool s2 !! future
       = Some (Build_Task (entry t) (AwaitingDependencies dv futures n)) →
       all_done s2 futures = true →
       Component_setup_domain c future dm' ending' s2
       = Component_setup_domain c future dm' ending'
           (set_phase future (AwaitingDependencies PyNone futures n) s2)
       ∧ (first_raised s2 futures = None →
          result_of (Component_setup_domain c future dm' ending' s2) future
          = Some (Returned (PyBool false)))).
Proof.
  intros Hschema Hret Hv Hdschema Hdret Hdv Ht Hp. cbv zeta.
  assert (Hout : ∀ s0,
            Component_setup_component c self (Some m) tries s0
            = run_component_setup c self m PyNone tries
                (emit (LogSettingUp (name self) tries) s0)).
  { intros s0. unfold Component_setup_component, validate_component_config.
    rewrite Hschema, Hret. unfold run_component_setup. now rewrite Hv. }
  assert (Hempty : ∀ s0, pending_of s0 (name self) = [] →
            run_component_setup c self m PyNone tries
              (emit (LogSettingUp (name self) tries) s0)
            = (Ok false,
               emit (LogSetupFailed (name self))
                 (set_domains_to_setup
                    (<[name self := []]> (domains_to_setup s0))
                    (emit (LogSettingUp (name self) tries) s0)))).
  { intros s0 Hpend. unfold run_component_setup. simpl.
    change (pending_of (emit (LogSettingUp (name self) tries) s0) (name self))
      with (pending_of s0 (name self)).
    now rewrite Hpend. }
  assert (Hvalid : validate_domain_config (config (entry t)) dm = dv).
  { unfold validate_domain_config. now rewrite Hdschema, Hdret. }
  split; [ apply Hout | ].
  split.
  { intros cfg. rewrite Hout. unfold run_component_setup. simpl.
    destruct (for_each clear_marked _ _) as [[ [] | e ] s2] eqn:Hloop;
      apply clear_marked_lifecycle in Hloop as (_ & _ & Htr & _);
      simpl; rewrite Htr; simpl;
      rewrite !elem_of_app, !list_elem_of_singleton.
    - intros [ [ H | H ] | H ]; [ exact H | discriminate | discriminate ].
    - intros [ H | H ]; [ exact H | discriminate ]. }
  split.
  { intros Hpend. rewrite Hout, Hempty by exact Hpend.
    split; [ reflexivity | ]. intros Htries.
    unfold setup_component.
    replace (1 <? tries) with false by (symmetry; apply Z.ltb_ge; lia).
    rewrite Hout, Hempty by exact Hpend. unfold map_del. simpl.
    rewrite lookup_insert_eq. simpl. rewrite lookup_insert_eq. eauto. }
  split.
  { intros req opt Hreq Hopt. split.
    - rewrite (start_stores_validated_config c s future t n dm ending req opt
                 Ht Hp Hreq Hopt).
      now rewrite Hvalid.
    - intros rejecting rejects Hrs Hrej.
      assert (Hnone : validate_domain_config (config (entry t)) rejecting
                      = PyNone).
      { unfold validate_domain_config. rewrite Hrs.
        now destruct Hrej as [ -> | -> ]. }
      unfold Component_setup_domain. rewrite Ht, Hp, Hreq, Hopt, Hnone, Hvalid.
      unfold set_phase, set_pool, emit. simpl.
      now rewrite list_alter_alter_eq. }
  split.
  { intros acts.
    assert (Hfirst : (pool (Component_setup_domain c future (Some dm) ending s)
                      !! future
                      = Some (Build_Task (entry t)
                                (AwaitingDependencies dv
                                   (map snd
                                      (default [] (dependencies_futures s
                                                     (entry t))
                                       ++ default []
                                            (optional_dependencies_futures s
                                               (entry t)))) n))
                      ∨ ∃ o, pool (Component_setup_domain c future (Some dm)
                                     ending s) !! future
                             = Some (Build_Task (entry t) (Finished o))
                             ∧ (o = Returned (PyBool false)
                                ∨ ∃ e, o = Raised e))
                     ∧ ∃ e0, trace (Component_setup_domain c future (Some dm)
                                      ending s) = trace s ++ [e0]
                             ∧ ∀ k, e0 ≠ CallDomainSetup future k).
    { unfold Component_setup_domain. rewrite Ht, Hp, Hvalid.
      destruct (dependencies_futures s (entry t)) as [ req | ];
        [ destruct (optional_dependencies_futures s (entry t)) as [ opt | ] | ];
        simpl.
      - split; [ left; now rewrite list_lookup_alter_eq, Ht | ].
        eexists. split; [ reflexivity | discriminate ].
      - split; [ right; exists (Raised KeyError);
                 rewrite list_lookup_alter_eq, Ht; eauto | ].
        eexists. split; [ reflexivity | discriminate ].
      - split; [ right; exists (Raised KeyError);
                 rewrite list_lookup_alter_eq, Ht; eauto | ].
        eexists. split; [ reflexivity | discriminate ]. }
    destruct Hfirst as [Hinv (e0 & Htr & He0)].
    destruct (falsy_wait_run c future (entry t) dv _ n acts _ Hdv Hinv)
      as [Hcalls Hres].
    split; [ | exact Hres ].
    intros j k Hj. apply Hcalls in Hj. rewrite Htr in Hj.
    apply snoc_cases in Hj as [ Hj | [_ ->] ]; [ exact Hj | ].
    now destruct (He0 k). }
  intros s2 futures dm' ending' Ht2 Hdone.
  destruct (waiting_with_falsy_config c s2 future _ dv futures n dm' ending'
              Ht2 eq_refl Hdv Hdone) as [Hsame Hfalse].
  split; [ exact Hsame | ].
  intros Hraised. rewrite (Hfalse Hraised). unfold result_of, moved. simpl.
  now rewrite list_lookup_alter_eq, Ht2.
Qed.

Lemma falsy_config_is_a_failed_setup_witness :
  (Component_setup_component consts_3_60 darknet (Some accepts_as_empty) 1
     camera_submitted).1 = Ok false
  ∧ result_of
      (run consts_3_60 [Work 0 (Some returns_empty) SetupCrash]
         (Component_setup_domain consts_3_60 0 (Some returns_empty)
            (SetupReturns (PyBool true)) camera_submitted)) 0
    = Some (Returned (PyBool false))
  ∧ trace
      (run consts_3_60 [Work 0 (Some returns_empty) SetupCrash]
         (Component_setup_domain consts_3_60 0 (Some returns_empty)
            (SetupReturns (PyBool true)) camera_submitted)) !! 3%nat
    ≠ Some (CallDomainSetup 0 1).
Proof.
  pose proof (falsy_config_is_a_failed_setup consts_3_60 darknet
                accepts_as_empty (λ _, SchemaReturns (PyDict [])) (PyDict [])
                1 camera_submitted 0%nat
                (Build_Task camera_entry (AtStart 1)) 1
                returns_empty (λ _, SchemaReturns (PyDict [])) (PyDict [])
                (SetupReturns (PyBool true))
                eq_refl eq_refl eq_refl eq_refl eq_refl eq_refl eq_refl
                eq_refl)
    as (_ & _ & Hcomp & Hfirst & Hnever & Hsame).
  split; [ exact (proj1 (Hcomp eq_refl)) | ].
  split.
  - destruct (Hfirst [] [] eq_refl eq_refl) as [Hwaits _].
    exact (proj2 (Hsame _ [] (Some returns_empty) SetupCrash Hwaits eq_refl)
             eq_refl).
  - intros Hcall.
    pose proof (proj1 (Hnever [Work 0 (Some returns_empty) SetupCrash])
                  3%nat 1 Hcall) as H.
    vm_compute in H. discriminate.
Defined.

End ConfigProofs.
(** ** The storage helper: caching, errors and the files it touches *)

Module StorageFacts.

Import Storage Scenarios.

Section storage.
Variable STORAGE_PATH : string.









End storage.







End StorageFacts.

(** ** Components: the queue and the lifecycle maps *)

Module LifecycleFacts.

Import Components ComponentProofs WorkerProofs SetupProofs Scenarios.






End LifecycleFacts.

(** ** The resolver and the submitting loop: what they leave behind *)

Module ResolverFacts.

Import Components ComponentProofs WorkerProofs SetupProofs SchedulerProofs.
Import Scenarios.










End ResolverFacts.

(** ** The workers: what a move can and cannot do *)

Module WorkerFacts.

Import Components ComponentProofs WorkerProofs SetupProofs SchedulerProofs.
Import OrderProofs Scenarios.















End WorkerFacts.

(** ** Starting the components *)

Module StartupFacts.

Import Components ComponentProofs WorkerProofs SetupProofs Scenarios.

Lemma first_word_no_space (key : string) :
  (∀ a, a ∈ String.list_ascii_of_string key → a ≠ Ascii.Space) →
  ∀ rest, first_word (key +:+ String Ascii.Space rest) = key
          ∧ first_word key = key.
Proof.
  induction key as [ | a key IH ]; intros Hall rest; simpl.
  - split; reflexivity.
  - destruct (Ascii.eqb a Ascii.Space) eqn:Ha.
    + apply Ascii.eqb_eq in Ha. exfalso. apply (Hall a); [ | exact Ha ].
      simpl. apply list_elem_of_here.
    + destruct (IH (λ b Hb, Hall b (list_elem_of_further _ _ _ Hb)) rest)
        as [-> ->].
      split; reflexivity.
Qed.











Section startup.
Variables (c : Consts) (package_path : list string) (package_name : string).
Variable importable : string → option ComponentModule.






End startup.



End StartupFacts.

(** ** What the resolver leaves pending *)

Module PruningFacts.

Import Components ComponentProofs WorkerProofs SetupProofs SchedulerProofs.
Import Scenarios.












End PruningFacts.

(** ** The order of submission *)

Module SubmissionFacts.

Import Components ComponentProofs WorkerProofs SetupProofs SchedulerProofs.
Import OrderProofs Scenarios.






End SubmissionFacts.
